(** * The RAM backed block device driver (drivers/block/brd.c)

    A shallow embedding of the page store, the per-segment dispatcher, the
    request loop, the bulk free and the device list of brd.c, and the
    properties of the specification that concern them.

    Conventions.
    - C integers are [Z]; where the C type can wrap, the wrap-around is
      written out with [u64] or [u32].
    - A pointer into a buffer is the buffer together with an offset.
    - The kernel state a driver call can touch is a record [kstate]: the
      device, the outcomes the memory allocator will give to the coming
      requests, and a log of the pages given back and of the yields.
    - [BUG_ON] is a result of its own, [Bug]: the machine stops there. *)

From Stdlib Require Import ZArith Lia.
From Stdlib Require Import Strings.Byte.
From stdpp Require Import gmap list sorting.

Local Open Scope Z_scope.

(** ** Machine integers *)

Definition u64 (z : Z) : Z := z mod 2 ^ 64.
Definition u32 (z : Z) : Z := z mod 2 ^ 32.

(** ** Constants of the kernel headers

    The headers are not among the sources; the values are those of
    include/linux/blkdev.h, blk_types.h and errno. *)

Definition SECTOR_SHIFT : Z := 9.
Definition SECTOR_SIZE : Z := Z.shiftl 1 SECTOR_SHIFT.

Definition ENOMEM : Z := 12.
Definition EEXIST : Z := 17.
Definition ENOSPC : Z := 28.
Definition ENOTSUPP : Z := 524.

Definition REQ_OP_READ : Z := 0.
Definition REQ_OP_WRITE : Z := 1.
Definition REQ_OP_MASK : Z := 255.

Definition BLK_STS_OK : Z := 0.
Definition BLK_STS_IOERR : Z := 10.
Definition BLK_QC_T_NONE : Z := u32 (-1).

Definition FREE_BATCH : Z := 16.

(** [op_is_write] of blk_types.h: the low bit of the operation. *)
Definition op_is_write (op : Z) : bool := Z.testbit op 0.

(** ** Bytes and buffers *)

#[global] Instance byte_eq_dec : EqDecision byte := Byte.byte_eq_dec.

(** [memcpy (dst + doff, src + soff, n)] on buffers. *)
Definition memcpy (dst : list byte) (doff : Z) (src : list byte) (soff : Z)
    (n : Z) : list byte :=
  take (Z.to_nat doff) dst
    ++ take (Z.to_nat n) (drop (Z.to_nat soff) src)
    ++ drop (Z.to_nat (doff + n)) dst.

(** [memset (dst + doff, c, n)]. *)
Definition memset (dst : list byte) (doff : Z) (c : byte) (n : Z) : list byte :=
  take (Z.to_nat doff) dst
    ++ replicate (Z.to_nat n) c
    ++ drop (Z.to_nat (doff + n)) dst.

(** ** Pages, devices and the kernel state *)

(** [struct page]: the fields the driver uses, and the bytes [kmap_atomic]
    gives access to. *)
Record page := Page { index : Z; data : list byte }.

#[global] Instance page_eq_dec : EqDecision page.
Proof. solve_decision. Defined.

(** [struct brd_device]; [brd_capacity] is the capacity of [brd_disk], in
    sectors, and [brd_pages] the radix tree. *)
Record brd_device := BrdDevice {
  brd_number : Z;
  brd_capacity : Z;
  brd_pages : gmap Z page
}.

Inductive kevent :=
  | EvFreePage (p : page)   (* __free_page *)
  | EvResched.              (* cond_resched *)

Record kstate := KState {
  dev : brd_device;
  mem : list bool;
  klog : list kevent
}.

Inductive result (A : Type) :=
  | Ok (a : A)
  | Bug.
Arguments Ok {A} a.
Arguments Bug {A}.

Definition M (A : Type) : Type := kstate -> result (A * kstate).

#[global] Instance M_ret : MRet M := fun A a st => Ok (a, st).
#[global] Instance M_bind : MBind M := fun A B f m st =>
  match m st with
  | Ok (a, st') => f a st'
  | Bug => Bug
  end.

Definition BUG_ON (c : bool) : M unit :=
  fun st => if c then Bug else Ok (tt, st).

Definition get_pages : M (gmap Z page) :=
  fun st => Ok (brd_pages (dev st), st).

Definition set_pages (t : gmap Z page) : M unit :=
  fun st =>
    Ok (tt, KState (BrdDevice (brd_number (dev st)) (brd_capacity (dev st)) t)
                   (mem st) (klog st)).

Definition emit (e : kevent) : M unit :=
  fun st => Ok (tt, KState (dev st) (mem st) (klog st ++ [e])).

(** The next outcome of the allocator; a request made after the last
    recorded outcome fails. *)
Definition next_outcome : M bool :=
  fun st =>
    match mem st with
    | [] => Ok (false, st)
    | b :: m => Ok (b, KState (dev st) m (klog st))
    end.

Definition __free_page (p : page) : M unit := emit (EvFreePage p).
Definition cond_resched : M unit := emit EvResched.

(** ** The radix tree

    lib/radix-tree.c is not among the sources.  The specification has the
    page store as "a sparse mapping from page index to a fixed-size data
    page"; the tree is a finite map here, with the operations the driver
    calls. *)

(** Modelled from the spec: "lookup (index) -> Page | absent", read
    only. *)
Definition radix_tree_lookup (root : gmap Z page) (idx : Z) : option page :=
  root !! idx.

(** Modelled from the spec: registers the page at [index], or fails with
    [-EEXIST] when an insert "won the race" and the slot is taken. *)
Definition radix_tree_insert (root : gmap Z page) (idx : Z) (item : page)
    : Z * gmap Z page :=
  match root !! idx with
  | Some _ => (- EEXIST, root)
  | None => (0, <[idx := item]> root)
  end.

(** Modelled from the spec: removes the entry at [index] and returns
    it. *)
Definition radix_tree_delete (root : gmap Z page) (idx : Z)
    : option page * gmap Z page :=
  (root !! idx, delete idx root).

(** The indices present from [first_index] on, ascending. *)
Definition indices_from (root : gmap Z page) (first_index : Z) : list Z :=
  merge_sort Z.le (filter (fun i => first_index <= i) (elements (dom root))).

(** Modelled from the spec: a batch for "drop_all", up to [max_items]
    items, those of the smallest indices from [first_index] on, by
    ascending index ([brd_free_pages] assumes it "always returns as many
    pages as possible"). *)
Definition radix_tree_gang_lookup (root : gmap Z page) (first_index : Z)
    (max_items : Z) : list page :=
  take (Z.to_nat max_items)
    (omap (fun i => root !! i) (indices_from root first_index)).

(** ** Requests *)

Record bio_vec := BioVec { bv_page : page; bv_len : Z; bv_offset : Z }.

(** [struct bio]: [bi_sector] and [bi_size] are those of [bi_iter];
    [bi_io_vec] holds the segments [bio_for_each_segment] yields, each
    within one page. *)
Record bio := Bio {
  bi_sector : Z;
  bi_size : Z;
  bi_opf : Z;
  bi_status : Z;
  bi_io_vec : list bio_vec
}.

Definition bio_op (b : bio) : Z := Z.land (bi_opf b) REQ_OP_MASK.

Definition bio_end_sector (b : bio) : Z :=
  u64 (bi_sector b + Z.shiftr (bi_size b) 9).

Definition get_capacity : M Z := fun st => Ok (brd_capacity (dev st), st).

(** [bio_endio] completes the request with the status it has. *)
Definition bio_endio (b : bio) : M bio := mret b.

(** [bio_io_error] of bio.h: the status becomes [BLK_STS_IOERR], then
    [bio_endio]. *)
Definition bio_io_error (b : bio) : M bio :=
  bio_endio (Bio (bi_sector b) (bi_size b) (bi_opf b) BLK_STS_IOERR (bi_io_vec b)).

(** ** The log of a bulk free *)

(** The pages a log gives back, in order. *)
Definition freed (l : list kevent) : list page :=
  omap (fun e => match e with EvFreePage p => Some p | EvResched => None end) l.

(** A log made of batches of at most [FREE_BATCH] pages given back, each
    batch followed by a yield. *)
Inductive batched : list kevent -> Prop :=
  | batched_nil : batched []
  | batched_cons (ps : list page) (l : list kevent) :
      Z.of_nat (length ps) <= FREE_BATCH ->
      batched l ->
      batched ((EvFreePage <$> ps) ++ EvResched :: l).


(** The yields of a log. *)
Definition yields (l : list kevent) : nat :=
  length (omap (fun e => match e with
                         | EvResched => Some tt
                         | EvFreePage _ => None
                         end) l).

(** ** The device list

    The devices [brd_alloc] makes are kernel objects: they live at
    addresses, and [brd_devices] is the list of the addresses. *)

Definition MINORBITS : Z := 20.
Definition MINORMASK : Z := Z.shiftl 1 MINORBITS - 1.
Definition MINOR (dev : Z) : Z := Z.land dev MINORMASK.

(** The state of the module: its parameters, the devices allocated, the
    list, and the outcomes of the coming fallible kernel calls. *)
Record brd_module := BrdModule {
  rd_size : Z;
  max_part : Z;
  objs : gmap Z brd_device;
  brd_devices : list Z;
  outcomes : list bool
}.

Definition take_outcome (r : brd_module) : bool * brd_module :=
  match outcomes r with
  | [] => (false, r)
  | b :: m => (b, BrdModule (rd_size r) (max_part r) (objs r) (brd_devices r) m)
  end.

(** [kzalloc], [blk_alloc_queue] and [alloc_disk] may each fail; what was
    allocated before is given back, so a failure leaves no object. *)
Definition brd_alloc (i : Z) (r : brd_module) : option Z * brd_module :=
  let '(ok, r) := take_outcome r in
  if negb ok then (None, r)
  else
    let '(ok, r) := take_outcome r in
    if negb ok then (None, r)
    else
      let '(ok, r) := take_outcome r in
      if negb ok then (None, r)
      else
        let brd := fresh (dom (objs r)) in
        (Some brd,
         BrdModule (rd_size r) (max_part r)
           (<[brd := BrdDevice i (u64 (rd_size r * 2)) ∅]> (objs r))
           (brd_devices r) (outcomes r)).

(** The [list_for_each_entry] of [brd_init_one]: the first device of the
    list whose number is [i]. *)
Fixpoint brd_find (os : gmap Z brd_device) (l : list Z) (i : Z) : option Z :=
  match l with
  | [] => None
  | brd :: l =>
    match os !! brd with
    | Some d => if bool_decide (brd_number d = i) then Some brd
                else brd_find os l i
    | None => brd_find os l i
    end
  end.

(** Returns the device, or [NULL], and [*new]. *)
Definition brd_init_one (i : Z) (r : brd_module)
    : option Z * bool * brd_module :=
  match brd_find (objs r) (brd_devices r) i with
  | Some brd => (Some brd, false, r)
  | None =>
    let '(brd, r) := brd_alloc i r in
    let r :=
      match brd with
      | Some a =>
        BrdModule (rd_size r) (max_part r) (objs r) (brd_devices r ++ [a])
          (outcomes r)
      | None => r
      end in
    (brd, true, r)
  end.

(** [get_disk_and_module] gives the disk of the device, or [NULL] when
    the module or the disk is going away; the disk is named by its
    device.  [brd_probe] returns it with what it leaves in [*part]. *)
Definition brd_probe (dev : Z) (part : Z) (r : brd_module)
    : option Z * Z * brd_module :=
  let '(brd, new, r) := brd_init_one (MINOR dev / max_part r) r in
  let '(kobj, r) :=
    match brd with
    | Some a => let '(ok, r) := take_outcome r in
                (if ok then Some a else None, r)
    | None => (None, r)
    end in
  (kobj, if new then 0 else part, r).

(** Every entry of the list is a device. *)
Definition list_ok (r : brd_module) : Prop :=
  Forall (fun brd => is_Some (objs r !! brd)) (brd_devices r).

(** How many devices of the list have number [i]. *)
Definition entries (r : brd_module) (i : Z) : nat :=
  length (filter (fun brd => brd_number <$> objs r !! brd = Some i)
            (brd_devices r)).


Section brd.

(** [PAGE_SHIFT] comes from the architecture's headers. *)
Variable PAGE_SHIFT : Z.

Definition PAGE_SIZE : Z := Z.shiftl 1 PAGE_SHIFT.
Definition PAGE_SECTORS_SHIFT : Z := PAGE_SHIFT - SECTOR_SHIFT.
Definition PAGE_SECTORS : Z := Z.shiftl 1 PAGE_SECTORS_SHIFT.

(** Modelled from the spec: [alloc_page (GFP_NOIO | __GFP_ZERO |
    __GFP_HIGHMEM)] gives "a zero-filled page", or [NULL] "if memory
    cannot be obtained". *)
Definition alloc_page : M (option page) :=
  ok ← next_outcome;
  if ok : bool
  then mret (Some (Page 0 (replicate (Z.to_nat PAGE_SIZE) x00)))
  else mret None.

(** Modelled from the spec: [radix_tree_preload (GFP_NOIO)] gets the
    memory the insertion needs, or fails with [-ENOMEM]. *)
Definition radix_tree_preload : M Z :=
  ok ← next_outcome;
  if ok : bool then mret 0 else mret (- ENOMEM).

Definition brd_lookup_page (sector : Z) : M (option page) :=
  let idx := Z.shiftr sector PAGE_SECTORS_SHIFT in
  root ← get_pages;
  let page := radix_tree_lookup root idx in
  BUG_ON (match page with
          | Some p => bool_decide (index p ≠ idx)
          | None => false
          end);;
  mret page.

Definition brd_insert_page (sector : Z) : M (option page) :=
  page ← brd_lookup_page sector;
  match page with
  | Some p => mret (Some p)
  | None =>
    page ← alloc_page;
    match page with
    | None => mret None
    | Some p =>
      r ← radix_tree_preload;
      if bool_decide (r ≠ 0) then
        __free_page p;;
        mret None
      else
        let idx := Z.shiftr sector PAGE_SECTORS_SHIFT in
        let p := Page idx (data p) in
        root ← get_pages;
        let '(r, root') := radix_tree_insert root idx p in
        set_pages root';;
        if bool_decide (r ≠ 0) then
          __free_page p;;
          let page := radix_tree_lookup root' idx in
          BUG_ON (bool_decide (page = None));;
          BUG_ON (match page with
                  | Some q => bool_decide (index q ≠ idx)
                  | None => false
                  end);;
          mret page
        else mret (Some p)
    end
  end.

(** One batch of [brd_free_pages]: the inner [for]. *)
Fixpoint brd_free_batch (pages : list page) (pos : Z) : M Z :=
  match pages with
  | [] => mret pos
  | p :: pages =>
    BUG_ON (index p <? pos);;
    let pos := index p in
    root ← get_pages;
    let '(ret, root') := radix_tree_delete root pos in
    set_pages root';;
    BUG_ON (bool_decide (ret ≠ Some p));;
    __free_page p;;
    brd_free_batch pages pos
  end.

(** The [do ... while] of [brd_free_pages], at most [fuel] rounds; the
    result tells whether the loop ended by its own test. *)
Fixpoint brd_free_pages_from (fuel : nat) (pos : Z) : M bool :=
  match fuel with
  | O => mret false
  | S fuel =>
    root ← get_pages;
    let pages := radix_tree_gang_lookup root pos FREE_BATCH in
    let nr_pages := Z.of_nat (length pages) in
    pos ← brd_free_batch pages pos;
    let pos := u64 (pos + 1) in
    cond_resched;;
    if nr_pages =? FREE_BATCH then brd_free_pages_from fuel pos
    else mret true
  end.

Definition brd_free_pages : M unit :=
  root ← get_pages;
  brd_free_pages_from (S (size root)) 0;;
  mret tt.

(** The offset within the page of a sector's first byte. *)
Definition sector_offset (sector : Z) : Z :=
  u32 (Z.shiftl (Z.land sector (PAGE_SECTORS - 1)) SECTOR_SHIFT).

Definition copy_to_brd_setup (sector : Z) (n : Z) : M Z :=
  let offset := sector_offset sector in
  let copy := Z.min n (u64 (PAGE_SIZE - offset)) in
  p ← brd_insert_page sector;
  if bool_decide (p = None) then mret (- ENOSPC)
  else if copy <? n then
    let sector := u64 (sector + Z.shiftr copy SECTOR_SHIFT) in
    p ← brd_insert_page sector;
    if bool_decide (p = None) then mret (- ENOSPC) else mret 0
  else mret 0.

(** [memcpy] into the mapped page that the tree holds at [sector]'s
    index: the page is shared with the tree, so the tree sees the bytes. *)
Definition page_write (sector : Z) (p : page) (d : list byte) : M unit :=
  root ← get_pages;
  set_pages (<[Z.shiftr sector PAGE_SECTORS_SHIFT := Page (index p) d]> root).

Definition copy_to_brd (src : list byte) (soff : Z) (sector : Z) (n : Z)
    : M unit :=
  let offset := sector_offset sector in
  let copy := Z.min n (u64 (PAGE_SIZE - offset)) in
  page ← brd_lookup_page sector;
  match page with
  | None => BUG_ON true
  | Some p =>
    page_write sector p (memcpy (data p) offset src soff copy);;
    if copy <? n then
      let soff := soff + copy in
      let sector := u64 (sector + Z.shiftr copy SECTOR_SHIFT) in
      let copy := u64 (n - copy) in
      page ← brd_lookup_page sector;
      match page with
      | None => BUG_ON true
      | Some p => page_write sector p (memcpy (data p) 0 src soff copy)
      end
    else mret tt
  end.

Definition copy_from_brd (dst : list byte) (doff : Z) (sector : Z) (n : Z)
    : M (list byte) :=
  let offset := sector_offset sector in
  let copy := Z.min n (u64 (PAGE_SIZE - offset)) in
  page ← brd_lookup_page sector;
  let dst :=
    match page with
    | Some p => memcpy dst doff (data p) offset copy
    | None => memset dst doff x00 copy
    end in
  if copy <? n then
    let doff := doff + copy in
    let sector := u64 (sector + Z.shiftr copy SECTOR_SHIFT) in
    let copy := u64 (n - copy) in
    page ← brd_lookup_page sector;
    match page with
    | Some p => mret (memcpy dst doff (data p) 0 copy)
    | None => mret (memset dst doff x00 copy)
    end
  else mret dst.

(** Process a single bvec of a bio; the caller's page is returned with
    the bytes a read has put into it. *)
Definition brd_do_bvec (pg : page) (len off op sector : Z)
    : M (Z * page) :=
  err ← (if op_is_write op then copy_to_brd_setup sector len else mret 0);
  if bool_decide (err ≠ 0) then mret (err, pg)
  else if negb (op_is_write op) then
    mem' ← copy_from_brd (data pg) off sector len;
    mret (err, Page (index pg) mem')
  else
    copy_to_brd (data pg) off sector len;;
    mret (err, pg).

(** [brd_rw_page]; [huge] is [PageTransHuge (page)]. *)
Definition brd_rw_page (sector : Z) (pg : page) (huge : bool) (op : Z)
    : M (Z * page) :=
  if huge then mret (- ENOTSUPP, pg)
  else brd_do_bvec pg PAGE_SIZE 0 op sector.

(** [brd_free]: the disk and the queue go, then the pages, then the
    device. *)
Definition brd_free : M unit := brd_free_pages.

(** The body of [bio_for_each_segment] in [brd_submit_bio].  The
    [WARN_ON_ONCE] on a buffer that is not sector aligned only prints, and
    is left out. *)
Fixpoint brd_do_segments (vecs : list bio_vec) (op sector : Z)
    : M (Z * list bio_vec) :=
  match vecs with
  | [] => mret (0, [])
  | bvec :: vecs =>
    let len := bv_len bvec in
    '(err, pg) ← brd_do_bvec (bv_page bvec) len (bv_offset bvec) op sector;
    let bvec := BioVec pg (bv_len bvec) (bv_offset bvec) in
    if bool_decide (err ≠ 0) then mret (err, bvec :: vecs)
    else
      '(err, vecs) ← brd_do_segments vecs op
                       (u64 (sector + Z.shiftr len SECTOR_SHIFT));
      mret (err, bvec :: vecs)
  end.

Definition brd_submit_bio (b : bio) : M (Z * bio) :=
  let sector := bi_sector b in
  capacity ← get_capacity;
  if bio_end_sector b >? capacity then
    b ← bio_io_error b;
    mret (BLK_QC_T_NONE, b)
  else
    '(err, vecs) ← brd_do_segments (bi_io_vec b) (bio_op b) sector;
    let b := Bio (bi_sector b) (bi_size b) (bi_opf b) (bi_status b) vecs in
    if bool_decide (err ≠ 0) then
      b ← bio_io_error b;
      mret (BLK_QC_T_NONE, b)
    else
      b ← bio_endio b;
      mret (BLK_QC_T_NONE, b).


(** ** The device as an array of bytes, and its invariant *)

(** The page indices of a 64-bit sector number: [2^64 / PAGE_SECTORS]. *)
Definition NR_INDICES : Z := 2 ^ (73 - PAGE_SHIFT).

(** The sector the second page starts at, when a transfer from [sector]
    crosses the end of its page. *)
Definition next_page_sector (sector : Z) : Z :=
  u64 (sector
       + Z.shiftr (PAGE_SIZE - sector_offset sector) SECTOR_SHIFT).

(** The address, on the device, of byte [k] of a transfer that starts at
    [sector]; sector numbers have 64 bits, so addresses have 73. *)
Definition byte_addr (sector k : Z) : Z :=
  (sector * SECTOR_SIZE + k) mod 2 ^ 73.

(** The byte the device holds at offset [off] of page [idx]: a page that
    is absent holds zeroes. *)
Definition page_byte (root : gmap Z page) (idx off : Z) : byte :=
  match root !! idx with
  | Some p => default x00 (data p !! Z.to_nat off)
  | None => x00
  end.

Definition dev_byte (root : gmap Z page) (a : Z) : byte :=
  page_byte root (a / PAGE_SIZE) (a mod PAGE_SIZE).

(** What [brd_lookup_page] asserts of the tree, for keys that are
    [unsigned long]. *)
Definition tree_ok (root : gmap Z page) : Prop :=
  ∀ idx p, root !! idx = Some p -> index p = idx ∧ 0 <= idx < 2 ^ 64.

(** Every page of the store is a whole page. *)
Definition pages_ok (root : gmap Z page) : Prop :=
  ∀ idx p, root !! idx = Some p -> Z.of_nat (length (data p)) = PAGE_SIZE.

Definition store_ok (st : kstate) : Prop :=
  tree_ok (brd_pages (dev st)) ∧ pages_ok (brd_pages (dev st)).

(** ** What the calls leave in the tree *)

(** The page [brd_insert_page] registers at [idx]. *)
Definition fresh_page (idx : Z) : page :=
  Page idx (replicate (Z.to_nat PAGE_SIZE) x00).

(** The tree once a page is known to exist at [idx]. *)
Definition with_page (root : gmap Z page) (idx : Z) : gmap Z page :=
  match root !! idx with
  | Some _ => root
  | None => <[idx := fresh_page idx]> root
  end.

(** The tree once [cnt] bytes of [src + soff] are copied to offset [off]
    of the page at [idx]. *)
Definition put_bytes (root : gmap Z page) (idx off : Z) (src : list byte)
    (soff cnt : Z) : gmap Z page :=
  match root !! idx with
  | Some p => <[idx := Page (index p) (memcpy (data p) off src soff cnt)]> root
  | None => root
  end.

Definition set_dev_pages (st : kstate) (root : gmap Z page) : kstate :=
  KState (BrdDevice (brd_number (dev st)) (brd_capacity (dev st)) root)
         (mem st) (klog st).


(** A transfer of [n] bytes from [sector] goes past the end of the
    sector's page. *)
Definition crosses (sector n : Z) : Prop :=
  PAGE_SIZE - sector_offset sector < n.

(** The tree after a write of [n] bytes of [src + soff] at [sector] that
    found its pages. *)
Definition written_store (root : gmap Z page) (src : list byte)
    (soff sector n : Z) : gmap Z page :=
  let idx := sector / PAGE_SECTORS in
  let o := sector_offset sector in
  if n <=? PAGE_SIZE - o then
    put_bytes (with_page root idx) idx o src soff n
  else
    let idx' := next_page_sector sector / PAGE_SECTORS in
    put_bytes
      (put_bytes (with_page (with_page root idx) idx') idx o src soff
         (PAGE_SIZE - o))
      idx' 0 src (soff + (PAGE_SIZE - o)) (n - (PAGE_SIZE - o)).


(** The buffer after the bytes of one page, present or not, are read
    into it. *)
Definition read_chunk (po : option page) (dst : list byte)
    (doff poff cnt : Z) : list byte :=
  match po with
  | Some p => memcpy dst doff (data p) poff cnt
  | None => memset dst doff x00 cnt
  end.


(** An allocation that a write of [len] bytes at [sector] needs fails:
    that of the page of [sector], or, when the write crosses into the
    next page, that of the next page. *)
Definition alloc_fails (st : kstate) (sector len : Z) : Prop :=
  (∃ st1, brd_insert_page sector st = Ok (None, st1))
  ∨ (crosses sector len
     ∧ ∃ p st0 st1,
         brd_insert_page sector st = Ok (Some p, st0)
         ∧ brd_insert_page (next_page_sector sector) st0 = Ok (None, st1)).


(** ** Histories of a device

    The calls of [brd_do_bvec] that [brd_submit_bio] and [brd_rw_page]
    make on a device since [brd_alloc] made it, with an empty tree. *)

Record call := Call {
  c_page : page;
  c_len : Z;
  c_off : Z;
  c_op : Z;
  c_sector : Z
}.

(** The callers pass a 64-bit sector and a segment that lies within one
    page of theirs. *)
Definition call_ok (c : call) : Prop :=
  0 <= c_sector c < 2 ^ 64
  ∧ 0 <= c_len c <= PAGE_SIZE
  ∧ 0 <= c_off c
  ∧ c_off c + c_len c <= Z.of_nat (length (data (c_page c))).

Fixpoint run_calls (cs : list call) : M (list Z) :=
  match cs with
  | [] => mret []
  | c :: cs =>
    r ← brd_do_bvec (c_page c) (c_len c) (c_off c) (c_op c) (c_sector c);
    errs ← run_calls cs;
    mret (r.1 :: errs)
  end.

(** The device [brd_alloc (i)] makes, and the allocator's coming
    outcomes. *)
Definition brd_new (i capacity : Z) (m : list bool) : kstate :=
  KState (BrdDevice i capacity ∅) m [].

(** Call [c] is a write whose range holds the byte at address [a]. *)
Definition writes_at (c : call) (a : Z) : Prop :=
  op_is_write (c_op c) = true
  ∧ ∃ k, 0 <= k < c_len c ∧ a = byte_addr (c_sector c) k.

(** The byte at [a] has been written: by a write that returned [0]. *)
Fixpoint written (cs : list call) (errs : list Z) (a : Z) : Prop :=
  match cs, errs with
  | c :: cs, err :: errs => (err = 0 ∧ writes_at c a) ∨ written cs errs a
  | _, _ => False
  end.

(** Some write of the history, whatever it returned, has a byte of page
    [idx] in its range. *)
Definition targeted (cs : list call) (idx : Z) : Prop :=
  Exists (fun c => ∃ a, writes_at c a ∧ a / PAGE_SIZE = idx) cs.


(** ** The device as its history makes it *)

(** The place, in a transfer of [len] bytes from [sector], of the byte at
    address [a], when the transfer holds it. *)
Definition covered (sector len a : Z) : option Z :=
  let k := (a - sector * SECTOR_SIZE) mod 2 ^ 73 in
  if k <? len then Some k else None.

(** The bytes of the device after a history, from the bytes [f] before
    it: at each address the last write that returned [0] and holds the
    address gives the byte. *)
Fixpoint replay (cs : list call) (errs : list Z) (f : Z -> byte) (a : Z)
    : byte :=
  match cs, errs with
  | c :: cs, err :: errs =>
    replay cs errs
      (fun a =>
         if bool_decide (err = 0) && op_is_write (c_op c) then
           match covered (c_sector c) (c_len c) a with
           | Some k => default x00 (data (c_page c) !! Z.to_nat (c_off c + k))
           | None => f a
           end
         else f a)
      a
  | _, _ => f a
  end.


(** ** Requests, segment by segment *)

(** A segment lies within one page of the caller. *)
Definition seg_ok (bvec : bio_vec) : Prop :=
  0 <= bv_len bvec <= PAGE_SIZE
  ∧ 0 <= bv_offset bvec
  ∧ bv_offset bvec + bv_len bvec
    <= Z.of_nat (length (data (bv_page bvec))).

(** The sector cursor of [brd_submit_bio] after the segments [vecs]. *)
Fixpoint sector_after (vecs : list bio_vec) (sector : Z) : Z :=
  match vecs with
  | [] => sector
  | bvec :: vecs =>
    sector_after vecs (u64 (sector + Z.shiftr (bv_len bvec) SECTOR_SHIFT))
  end.

(** How many segments of a request complete: the segments before the
    first one for which [brd_do_bvec] does not return [0]. *)
Fixpoint segments_done (vecs : list bio_vec) (op sector : Z) (st : kstate)
    : nat :=
  match vecs with
  | [] => O
  | bvec :: vecs =>
    match brd_do_bvec (bv_page bvec) (bv_len bvec) (bv_offset bvec) op
            sector st with
    | Ok ((err, _), st') =>
      if bool_decide (err ≠ 0) then O
      else S (segments_done vecs op
                (u64 (sector + Z.shiftr (bv_len bvec) SECTOR_SHIFT)) st')
    | Bug => O
    end
  end.


(** C6, as the specification has it: the pages present are those that
    hold a written byte. *)
Definition pages_iff_written (cs : list call) (errs : list Z) (st : kstate)
    : Prop :=
  ∀ idx, is_Some (brd_pages (dev st) !! idx)
         ↔ ∃ a, written cs errs a ∧ a / PAGE_SIZE = idx.

(** C7, as the specification has it: the result of a failed request
    tells how many segments completed, that is, the number can be read
    off what [brd_submit_bio] gives back. *)
Definition result_tells_count (count : Z * bio -> nat) : Prop :=
  ∀ b st r st',
    brd_submit_bio b st = Ok (r, st') ->
    (segments_done (bi_io_vec b) (bio_op b) (bi_sector b) st
     < length (bi_io_vec b))%nat ->
    count r = segments_done (bi_io_vec b) (bio_op b) (bi_sector b) st.


(** The length of a segment is a whole number of sectors: what the
    [WARN_ON_ONCE] of [brd_submit_bio] checks of it. *)
Definition seg_aligned (bvec : bio_vec) : Prop :=
  Z.land (bv_len bvec) (SECTOR_SIZE - 1) = 0.

(** The sectors the cursor of [brd_submit_bio] advances by over [vecs]. *)
Definition total_sectors (vecs : list bio_vec) : Z :=
  foldr (fun bvec n => Z.shiftr (bv_len bvec) SECTOR_SHIFT + n) 0 vecs.

(** The bytes of the segments of a request. *)
Definition bio_bytes (vecs : list bio_vec) : Z :=
  foldr (fun bvec n => bv_len bvec + n) 0 vecs.

(** The bytes a segment transfers, in the caller's page. *)
Definition seg_data (bvec : bio_vec) : list byte :=
  take (Z.to_nat (bv_len bvec))
    (drop (Z.to_nat (bv_offset bvec)) (data (bv_page bvec))).

(** ** Loading and unloading the module *)

Definition EIO : Z := 5.
Definition DISK_MAX_PARTS : Z := 256.

(** An [int] of C: 32 bits, two's complement. *)
Definition s32 (z : Z) : Z := (z + 2 ^ 31) mod 2 ^ 32 - 2 ^ 31.

(** [fls] of the kernel's bitops, on the 32 bits of its argument: the
    place of the most significant set bit, counted from 1, and 0 when no
    bit is set. *)
Definition fls (x : Z) : Z :=
  let x := u32 x in
  if x =? 0 then 0 else Z.log2 x + 1.

(** [brd_check_and_reset_par], on the value of the [int max_part].  The
    remainder is one of [unsigned int]s; [1UL] has 64 bits, and the
    assignment to the [int] keeps the low 32 of them. *)
Definition brd_check_and_reset_par (max_part : Z) : Z :=
  let max_part := if max_part =? 0 then 1 else max_part in
  let max_part :=
    if negb (Z.shiftl 1 MINORBITS mod u32 max_part =? 0)
    then s32 (u64 (Z.shiftl 1 (fls max_part)))
    else max_part in
  if max_part >? DISK_MAX_PARTS then DISK_MAX_PARTS else max_part.

Definition set_max_part (v : Z) (r : brd_module) : brd_module :=
  BrdModule (rd_size r) v (objs r) (brd_devices r) (outcomes r).

(** [list_add_tail (&brd->brd_list, &brd_devices)]. *)
Definition list_add_tail (brd : Z) (r : brd_module) : brd_module :=
  BrdModule (rd_size r) (max_part r) (objs r) (brd_devices r ++ [brd])
    (outcomes r).

(** [list_del (&brd->brd_list)]. *)
Definition list_del (brd : Z) (r : brd_module) : brd_module :=
  BrdModule (rd_size r) (max_part r) (objs r)
    (filter (fun a => a ≠ brd) (brd_devices r)) (outcomes r).

(** [brd_free] of the device at [brd]: [brd_free] gives its pages back,
    on a log of its own, which is returned, and [kfree] ends the object.
    A pointer to no device is a bug of the caller. *)
Definition brd_free_at (brd : Z) (r : brd_module)
    : result (list kevent * brd_module) :=
  match objs r !! brd with
  | None => Bug
  | Some d =>
    match brd_free (KState d [] []) with
    | Ok (_, st) =>
      Ok (klog st,
          BrdModule (rd_size r) (max_part r) (delete brd (objs r))
            (brd_devices r) (outcomes r))
    | Bug => Bug
    end
  end.

Definition brd_del_one (brd : Z) (r : brd_module)
    : result (list kevent * brd_module) :=
  brd_free_at brd (list_del brd r).

(** [list_for_each_entry_safe] over the entries [l] of the list, the
    logs of the bodies one after the other. *)
Fixpoint for_each_entry_safe
    (body : Z -> brd_module -> result (list kevent * brd_module))
    (l : list Z) (r : brd_module) : result (list kevent * brd_module) :=
  match l with
  | [] => Ok ([], r)
  | brd :: l =>
    match body brd r with
    | Ok (ev, r) =>
      match for_each_entry_safe body l r with
      | Ok (ev', r) => Ok (ev ++ ev', r)
      | Bug => Bug
      end
    | Bug => Bug
    end
  end.

(** The [for] loop of [brd_init], with [n] devices to go from number
    [i]: whether all were allocated. *)
Fixpoint brd_init_loop (n : nat) (i : Z) (r : brd_module)
    : bool * brd_module :=
  match n with
  | O => (true, r)
  | S n =>
    let '(brd, r) := brd_alloc i r in
    match brd with
    | None => (false, r)
    | Some a => brd_init_loop n (i + 1) (list_add_tail a r)
    end
  end.

(** [brd_init], for the parameter [rd_nr]; [register_blkdev] is the
    first of the fallible kernel calls.  Returns the code and the log of
    what the failure path gives back. *)
Definition brd_init (rd_nr : Z) (r : brd_module)
    : result (Z * list kevent * brd_module) :=
  let '(ok, r) := take_outcome r in
  if negb ok then Ok (- EIO, [], r)
  else
    let r := set_max_part (brd_check_and_reset_par (max_part r)) r in
    let '(ok, r) := brd_init_loop (Z.to_nat rd_nr) 0 r in
    if ok then Ok (0, [], r)
    else
      match for_each_entry_safe
              (fun brd r => brd_free_at brd (list_del brd r))
              (brd_devices r) r with
      | Ok (ev, r) => Ok (- ENOMEM, ev, r)
      | Bug => Bug
      end.

Definition brd_exit (r : brd_module) : result (list kevent * brd_module) :=
  for_each_entry_safe brd_del_one (brd_devices r) r.

(** The pages of the devices at [l]. *)
Definition pages_at (r : brd_module) (l : list Z) : list page :=
  l ≫= (fun a => match objs r !! a with
                 | Some d => (map_to_list (brd_pages d)).*2
                 | None => []
                 end).

(** The list and the devices as the kernel keeps them: every entry is a
    device, no device is twice in the list, and the trees are well
    formed. *)
Definition module_ok (r : brd_module) : Prop :=
  list_ok r ∧ NoDup (brd_devices r)
  ∧ ∀ a d, objs r !! a = Some d -> tree_ok (brd_pages d).


(** No two devices of the list have the same number. *)
Definition numbers_distinct (r : brd_module) : Prop :=
  ∀ i, (entries r i <= 1)%nat.

(** A device of the module as [brd_alloc] makes it. *)
Definition blank_device (r : brd_module) (i : Z) : brd_device :=
  BrdDevice i (u64 (rd_size r * 2)) ∅.


(** ** Sample devices and requests, for 4 KiB pages *)

Definition demo_page (b : byte) : page := Page 0 (replicate 4096 b).

Definition demo_dev (m : list bool) : kstate := brd_new 0 64 m.

Definition demo_calls : list call :=
  [Call (demo_page "*") 512 0 REQ_OP_WRITE 0].

Definition demo_after : kstate :=
  KState (BrdDevice 0 64
            {[0 := Page 0 (replicate 512 "*"%byte ++ replicate 3584 x00)]})
         [] [].

Definition demo_bio (sector : Z) : bio :=
  Bio sector 8192 REQ_OP_WRITE BLK_STS_OK
    [BioVec (demo_page "*") 4096 0; BioVec (demo_page "*") 4096 0].

Definition demo_module (os : list bool) : brd_module :=
  BrdModule 4096 1 ∅ [] os.

(** The scenario of the specification: a device of 8 pages, one byte
    written at sector 0 and one at the first sector of page 7, then a
    read of the whole device, page by page. *)
Definition scenario_writes : list call :=
  [Call (demo_page "*") 1 0 REQ_OP_WRITE 0;
   Call (demo_page "*") 1 0 REQ_OP_WRITE 56].

Definition scenario_read : list bio_vec :=
  replicate 8 (BioVec (demo_page "#") 4096 0).

(** A write of 1024 bytes at sector 7 goes from page 0 into page 1; when
    memory is found for page 0 and not for page 1 it fails, and page 0
    stays. *)
Definition torn_calls : list call :=
  [Call (demo_page "*") 1024 0 REQ_OP_WRITE 7].

Definition torn_after : kstate :=
  KState (BrdDevice 0 64 {[0 := Page 0 (replicate 4096 x00)]}) [] [].

Definition demo_read_bio (sector : Z) : bio :=
  Bio sector 8192 REQ_OP_READ BLK_STS_OK
    [BioVec (demo_page x00) 4096 0; BioVec (demo_page x00) 4096 0].

(** The device after [demo_bio 0]. *)
Definition demo_written : kstate :=
  KState (BrdDevice 0 64
            {[0 := Page 0 (replicate 4096 "*"%byte);
              1 := Page 1 (replicate 4096 "*"%byte)]})
         [] [].

(** A module with one device, which holds a page. *)
Definition demo_listed : brd_module :=
  BrdModule 4096 1 {[7 := dev demo_after]} [7] [true; true; true].

(** The module after [brd_init] for two devices. *)
Definition demo_loaded : brd_module :=
  BrdModule 4096 1
    {[0 := BrdDevice 0 8192 ∅; 1 := BrdDevice 1 8192 ∅]} [0; 1] [].


(** ** Arithmetic of sectors, pages and byte addresses *)

(** Pages are at least a sector, and their size fits [unsigned int]. *)
Hypothesis PAGE_SHIFT_range : SECTOR_SHIFT <= PAGE_SHIFT < 32.

Lemma PAGE_SIZE_pow2 : PAGE_SIZE = 2 ^ PAGE_SHIFT.
Proof.
  unfold PAGE_SIZE, SECTOR_SHIFT in *. rewrite Z.shiftl_mul_pow2 by lia. lia.
Qed.

Lemma PAGE_SECTORS_pow2 : PAGE_SECTORS = 2 ^ (PAGE_SHIFT - 9).
Proof.
  unfold PAGE_SECTORS, PAGE_SECTORS_SHIFT, SECTOR_SHIFT in *.
  rewrite Z.shiftl_mul_pow2 by lia. lia.
Qed.

Lemma PAGE_SECTORS_pos : 0 < PAGE_SECTORS.
Proof.
  rewrite PAGE_SECTORS_pow2. unfold SECTOR_SHIFT in *.
  apply Z.pow_pos_nonneg; lia.
Qed.

Lemma PAGE_SIZE_sectors : PAGE_SIZE = PAGE_SECTORS * 512.
Proof.
  rewrite PAGE_SIZE_pow2, PAGE_SECTORS_pow2. unfold SECTOR_SHIFT in *.
  replace PAGE_SHIFT with ((PAGE_SHIFT - 9) + 9) at 1 by lia.
  rewrite Z.pow_add_r by lia. reflexivity.
Qed.

Lemma PAGE_SIZE_bounds : 512 <= PAGE_SIZE < 2 ^ 32.
Proof.
  pose proof PAGE_SECTORS_pos. split; [rewrite PAGE_SIZE_sectors; lia|].
  rewrite PAGE_SIZE_pow2. unfold SECTOR_SHIFT in *.
  apply Z.pow_lt_mono_r; lia.
Qed.

Lemma NR_INDICES_sectors : NR_INDICES * PAGE_SECTORS = 2 ^ 64.
Proof.
  unfold NR_INDICES. rewrite PAGE_SECTORS_pow2. unfold SECTOR_SHIFT in *.
  rewrite <- Z.pow_add_r by lia. f_equal. lia.
Qed.

Lemma NR_INDICES_big : 2 <= NR_INDICES.
Proof.
  unfold NR_INDICES. unfold SECTOR_SHIFT in *.
  change 2 with (2 ^ 1) at 1. apply Z.pow_le_mono_r; lia.
Qed.

Lemma sector_index_div sector :
  Z.shiftr sector PAGE_SECTORS_SHIFT = sector / PAGE_SECTORS.
Proof.
  rewrite PAGE_SECTORS_pow2. unfold PAGE_SECTORS_SHIFT, SECTOR_SHIFT in *.
  apply Z.shiftr_div_pow2. lia.
Qed.

Lemma sector_index_range sector :
  0 <= sector < 2 ^ 64 -> 0 <= sector / PAGE_SECTORS < NR_INDICES.
Proof.
  intros Hs. pose proof PAGE_SECTORS_pos. pose proof NR_INDICES_sectors.
  split.
  - apply Z.div_pos; lia.
  - apply Z.div_lt_upper_bound; lia.
Qed.

Lemma sector_offset_mod sector :
  sector_offset sector = (sector mod PAGE_SECTORS) * 512.
Proof.
  pose proof PAGE_SECTORS_pos. pose proof PAGE_SIZE_bounds as Hb.
  rewrite PAGE_SIZE_sectors in Hb.
  unfold sector_offset, u32.
  replace (PAGE_SECTORS - 1) with (Z.ones (PAGE_SHIFT - 9)).
  2:{ rewrite Z.ones_equiv, PAGE_SECTORS_pow2. lia. }
  unfold SECTOR_SHIFT in *.
  rewrite Z.land_ones by lia. rewrite <- PAGE_SECTORS_pow2.
  rewrite Z.shiftl_mul_pow2 by lia. change (2 ^ 9) with 512.
  pose proof (Z.mod_pos_bound sector PAGE_SECTORS ltac:(lia)).
  apply Z.mod_small. lia.
Qed.

Lemma sector_offset_range sector :
  0 <= sector_offset sector <= PAGE_SIZE - 512.
Proof.
  pose proof PAGE_SECTORS_pos.
  rewrite sector_offset_mod, PAGE_SIZE_sectors.
  pose proof (Z.mod_pos_bound sector PAGE_SECTORS ltac:(lia)). lia.
Qed.

Lemma first_chunk_u64 sector :
  u64 (PAGE_SIZE - sector_offset sector) = PAGE_SIZE - sector_offset sector.
Proof.
  pose proof (sector_offset_range sector). pose proof PAGE_SIZE_bounds.
  unfold u64. apply Z.mod_small. lia.
Qed.

Lemma next_page_sector_eq sector :
  0 <= sector < 2 ^ 64 ->
  next_page_sector sector
    = ((sector / PAGE_SECTORS + 1) mod NR_INDICES) * PAGE_SECTORS.
Proof.
  intros Hs. pose proof PAGE_SECTORS_pos as Hp.
  unfold next_page_sector, u64. rewrite sector_offset_mod.
  unfold SECTOR_SHIFT. rewrite Z.shiftr_div_pow2 by lia.
  change (2 ^ 9) with 512. rewrite PAGE_SIZE_sectors.
  replace (PAGE_SECTORS * 512 - sector mod PAGE_SECTORS * 512)
    with ((PAGE_SECTORS - sector mod PAGE_SECTORS) * 512) by lia.
  rewrite Z.div_mul by lia.
  rewrite <- NR_INDICES_sectors.
  rewrite <- Z.mul_mod_distr_r by (pose proof NR_INDICES_big; lia).
  f_equal. pose proof (Z.div_mod sector PAGE_SECTORS ltac:(lia)). lia.
Qed.

Lemma next_page_sector_range sector :
  0 <= sector < 2 ^ 64 -> 0 <= next_page_sector sector < 2 ^ 64.
Proof.
  intros _. unfold next_page_sector, u64. apply Z.mod_pos_bound. lia.
Qed.

Lemma next_page_sector_index sector :
  0 <= sector < 2 ^ 64 ->
  next_page_sector sector / PAGE_SECTORS
    = (sector / PAGE_SECTORS + 1) mod NR_INDICES.
Proof.
  intros Hs. rewrite next_page_sector_eq by done.
  apply Z.div_mul. pose proof PAGE_SECTORS_pos. lia.
Qed.

Lemma next_page_sector_offset sector :
  0 <= sector < 2 ^ 64 -> sector_offset (next_page_sector sector) = 0.
Proof.
  intros Hs. rewrite sector_offset_mod, next_page_sector_eq by done.
  rewrite Z.mod_mul by (pose proof PAGE_SECTORS_pos; lia). done.
Qed.

Lemma next_page_sector_other sector :
  0 <= sector < 2 ^ 64 ->
  next_page_sector sector / PAGE_SECTORS ≠ sector / PAGE_SECTORS.
Proof.
  intros Hs. rewrite next_page_sector_index by done.
  pose proof (sector_index_range sector Hs) as Hi.
  pose proof NR_INDICES_big.
  destruct (decide (sector / PAGE_SECTORS + 1 = NR_INDICES)) as [He|Hne].
  - rewrite He, Z.mod_same by lia. lia.
  - rewrite Z.mod_small by lia. lia.
Qed.

Lemma byte_addr_first sector k :
  0 <= sector < 2 ^ 64 ->
  0 <= k < PAGE_SIZE - sector_offset sector ->
  byte_addr sector k / PAGE_SIZE = sector / PAGE_SECTORS
  ∧ byte_addr sector k mod PAGE_SIZE = sector_offset sector + k.
Proof.
  intros Hs Hk. pose proof PAGE_SECTORS_pos as Hp.
  pose proof PAGE_SIZE_bounds as Hb.
  pose proof (sector_offset_range sector) as Ho.
  pose proof (sector_index_range sector Hs) as Hi.
  pose proof NR_INDICES_sectors as Hn.
  rewrite sector_offset_mod in *.
  pose proof (Z.div_mod sector PAGE_SECTORS ltac:(lia)) as Hdm.
  unfold byte_addr. change SECTOR_SIZE with 512.
  assert (Heq : sector * 512 + k
                = sector / PAGE_SECTORS * PAGE_SIZE
                  + (sector mod PAGE_SECTORS * 512 + k)).
  { rewrite PAGE_SIZE_sectors. lia. }
  rewrite Z.mod_small.
  2:{ change (2 ^ 73) with (2 ^ 64 * 512).
      assert ((sector / PAGE_SECTORS + 1) * PAGE_SECTORS
              <= NR_INDICES * PAGE_SECTORS)
        by (apply Z.mul_le_mono_nonneg_r; lia).
      pose proof PAGE_SIZE_sectors. lia. }
  rewrite Heq. split.
  - rewrite Z.add_comm, Z.div_add by lia. rewrite Z.div_small by lia. lia.
  - rewrite Z.add_comm, Z.mod_add by lia. apply Z.mod_small. lia.
Qed.

Lemma byte_addr_second sector k :
  0 <= sector < 2 ^ 64 ->
  PAGE_SIZE - sector_offset sector <= k
    < 2 * PAGE_SIZE - sector_offset sector ->
  byte_addr sector k / PAGE_SIZE = next_page_sector sector / PAGE_SECTORS
  ∧ byte_addr sector k mod PAGE_SIZE
    = k - (PAGE_SIZE - sector_offset sector).
Proof.
  intros Hs Hk. pose proof PAGE_SECTORS_pos as Hp.
  pose proof PAGE_SIZE_bounds as Hb.
  pose proof NR_INDICES_big as Hn2.
  rewrite next_page_sector_index by done.
  rewrite sector_offset_mod in *.
  pose proof (Z.div_mod sector PAGE_SECTORS ltac:(lia)) as Hdm.
  unfold byte_addr. change SECTOR_SIZE with 512.
  set (r := k - (PAGE_SIZE - sector mod PAGE_SECTORS * 512)).
  assert (Heq : sector * 512 + k
                = r + (sector / PAGE_SECTORS + 1) * PAGE_SIZE).
  { unfold r. rewrite PAGE_SIZE_sectors. lia. }
  assert (Hr : 0 <= r < PAGE_SIZE) by (unfold r; lia).
  replace (2 ^ 73) with (PAGE_SIZE * NR_INDICES).
  2:{ change (2 ^ 73) with (2 ^ 64 * 512).
      rewrite PAGE_SIZE_sectors. pose proof NR_INDICES_sectors. lia. }
  rewrite Z.rem_mul_r by lia. rewrite Heq.
  rewrite Z.mod_add, Z.div_add by lia.
  rewrite (Z.mod_small r), (Z.div_small r) by lia.
  pose proof (Z.mod_pos_bound (0 + (sector / PAGE_SECTORS + 1)) NR_INDICES
                ltac:(lia)).
  split.
  - rewrite Z.mul_comm, Z.div_add by lia. rewrite Z.div_small by lia. done.
  - rewrite Z.mul_comm, Z.mod_add by lia. apply Z.mod_small. lia.
Qed.

(** ** Buffers *)

Lemma memcpy_length dst doff src soff n :
  0 <= doff -> 0 <= n -> doff + n <= Z.of_nat (length dst) ->
  0 <= soff -> soff + n <= Z.of_nat (length src) ->
  length (memcpy dst doff src soff n) = length dst.
Proof.
  intros. unfold memcpy.
  rewrite !length_app, !length_take, !length_drop. lia.
Qed.

Lemma memset_length dst doff c n :
  0 <= doff -> 0 <= n -> doff + n <= Z.of_nat (length dst) ->
  length (memset dst doff c n) = length dst.
Proof.
  intros. unfold memset.
  rewrite !length_app, length_take, length_replicate, length_drop. lia.
Qed.

Lemma memcpy_lookup_in dst doff src soff n j :
  0 <= doff -> doff + n <= Z.of_nat (length dst) ->
  0 <= soff -> soff + n <= Z.of_nat (length src) ->
  0 <= j < n ->
  memcpy dst doff src soff n !! Z.to_nat (doff + j)
    = src !! Z.to_nat (soff + j).
Proof.
  intros. unfold memcpy.
  rewrite lookup_app_r by (rewrite length_take; lia).
  rewrite length_take.
  rewrite lookup_app_l by (rewrite length_take, length_drop; lia).
  rewrite lookup_take_lt by lia. rewrite lookup_drop. f_equal. lia.
Qed.

Lemma memcpy_lookup_out dst doff src soff n i :
  0 <= doff -> 0 <= n -> doff + n <= Z.of_nat (length dst) ->
  0 <= soff -> soff + n <= Z.of_nat (length src) ->
  0 <= i -> ¬ (doff <= i < doff + n) ->
  memcpy dst doff src soff n !! Z.to_nat i = dst !! Z.to_nat i.
Proof.
  intros. unfold memcpy.
  destruct (decide (i < doff)).
  - rewrite lookup_app_l by (rewrite length_take; lia).
    apply lookup_take_lt. lia.
  - rewrite lookup_app_r by (rewrite length_take; lia).
    rewrite length_take.
    rewrite lookup_app_r by (rewrite length_take, length_drop; lia).
    rewrite length_take, length_drop, lookup_drop. f_equal. lia.
Qed.

Lemma memset_lookup_in dst doff c n j :
  0 <= doff -> doff + n <= Z.of_nat (length dst) ->
  0 <= j < n ->
  memset dst doff c n !! Z.to_nat (doff + j) = Some c.
Proof.
  intros. unfold memset.
  rewrite lookup_app_r by (rewrite length_take; lia).
  rewrite length_take.
  rewrite lookup_app_l by (rewrite length_replicate; lia).
  apply lookup_replicate_2. lia.
Qed.

Lemma memset_lookup_out dst doff c n i :
  0 <= doff -> 0 <= n -> doff + n <= Z.of_nat (length dst) ->
  0 <= i -> ¬ (doff <= i < doff + n) ->
  memset dst doff c n !! Z.to_nat i = dst !! Z.to_nat i.
Proof.
  intros. unfold memset.
  destruct (decide (i < doff)).
  - rewrite lookup_app_l by (rewrite length_take; lia).
    apply lookup_take_lt. lia.
  - rewrite lookup_app_r by (rewrite length_take; lia).
    rewrite length_take.
    rewrite lookup_app_r by (rewrite length_replicate; lia).
    rewrite length_replicate, lookup_drop. f_equal. lia.
Qed.

(** ** The page store *)

Ltac munfold :=
  unfold mbind, M_bind, mret, M_ret, get_pages, set_pages, BUG_ON, emit,
    __free_page, next_outcome in *; simpl in *.

Lemma brd_lookup_page_spec st sector :
  tree_ok (brd_pages (dev st)) ->
  brd_lookup_page sector st
    = Ok (brd_pages (dev st) !! (sector / PAGE_SECTORS), st).
Proof.
  intros Hok. unfold brd_lookup_page. rewrite sector_index_div.
  unfold radix_tree_lookup. munfold.
  destruct (brd_pages (dev st) !! (sector / PAGE_SECTORS)) as [p|] eqn:E;
    [|done].
  apply Hok in E as [-> _]. by rewrite bool_decide_false by tauto.
Qed.

(** A lookup changes nothing, whatever the tree. *)
Lemma brd_lookup_page_pure st sector r st' :
  brd_lookup_page sector st = Ok (r, st') ->
  st' = st ∧ r = brd_pages (dev st) !! (sector / PAGE_SECTORS).
Proof.
  unfold brd_lookup_page. rewrite sector_index_div.
  unfold radix_tree_lookup. munfold.
  destruct (brd_pages (dev st) !! (sector / PAGE_SECTORS)) as [p|];
    [case_bool_decide|]; intros; simplify_eq; done.
Qed.

Lemma set_dev_pages_id st : set_dev_pages st (brd_pages (dev st)) = st.
Proof. by destruct st as [[] ? ?]. Qed.

Lemma brd_insert_page_found st sector p :
  tree_ok (brd_pages (dev st)) ->
  brd_pages (dev st) !! (sector / PAGE_SECTORS) = Some p ->
  brd_insert_page sector st = Ok (Some p, st).
Proof.
  intros Hok Hp. unfold brd_insert_page.
  unfold mbind at 1, M_bind at 1.
  by rewrite brd_lookup_page_spec, Hp.
Qed.

Lemma brd_insert_page_new st sector m :
  tree_ok (brd_pages (dev st)) ->
  brd_pages (dev st) !! (sector / PAGE_SECTORS) = None ->
  mem st = true :: true :: m ->
  brd_insert_page sector st
    = Ok (Some (fresh_page (sector / PAGE_SECTORS)),
          KState (BrdDevice (brd_number (dev st)) (brd_capacity (dev st))
                    (<[sector / PAGE_SECTORS
                       := fresh_page (sector / PAGE_SECTORS)]>
                       (brd_pages (dev st))))
                 m (klog st)).
Proof.
  intros Hok Hp Hm. unfold brd_insert_page.
  unfold mbind at 1, M_bind at 1.
  rewrite brd_lookup_page_spec, Hp by done.
  unfold alloc_page, radix_tree_preload, radix_tree_insert.
  rewrite sector_index_div. munfold. rewrite Hm. simpl.
  rewrite Hp. simpl. done.
Qed.

(** [alloc_page] fails. *)
Lemma brd_insert_page_no_page st sector :
  tree_ok (brd_pages (dev st)) ->
  brd_pages (dev st) !! (sector / PAGE_SECTORS) = None ->
  head (mem st) ≠ Some true ->
  brd_insert_page sector st
    = Ok (None, KState (dev st) (tail (mem st)) (klog st)).
Proof.
  intros Hok Hp Hm. unfold brd_insert_page.
  unfold mbind at 1, M_bind at 1.
  rewrite brd_lookup_page_spec, Hp by done.
  unfold alloc_page. munfold.
  destruct st as [d [|[] m] l]; simpl in *; done.
Qed.

(** [radix_tree_preload] fails: the page goes back. *)
Lemma brd_insert_page_no_node st sector m :
  tree_ok (brd_pages (dev st)) ->
  brd_pages (dev st) !! (sector / PAGE_SECTORS) = None ->
  mem st = true :: m -> head m ≠ Some true ->
  brd_insert_page sector st
    = Ok (None, KState (dev st) (tail m)
                  (klog st ++ [EvFreePage (Page 0 (data (fresh_page 0)))])).
Proof.
  intros Hok Hp Hm Hm'. unfold brd_insert_page.
  unfold mbind at 1, M_bind at 1.
  rewrite brd_lookup_page_spec, Hp by done.
  unfold alloc_page, radix_tree_preload. munfold. rewrite Hm. simpl.
  destruct m as [|[] m]; simpl in *; done.
Qed.

(** The four cases at once. *)
Lemma brd_insert_page_cases st sector :
  tree_ok (brd_pages (dev st)) ->
  ∃ r st',
    brd_insert_page sector st = Ok (r, st')
    ∧ brd_number (dev st') = brd_number (dev st)
    ∧ brd_capacity (dev st') = brd_capacity (dev st)
    ∧ match r with
      | Some p =>
          brd_pages (dev st')
            = with_page (brd_pages (dev st)) (sector / PAGE_SECTORS)
          ∧ brd_pages (dev st') !! (sector / PAGE_SECTORS) = Some p
      | None =>
          brd_pages (dev st') = brd_pages (dev st)
          ∧ brd_pages (dev st) !! (sector / PAGE_SECTORS) = None
      end.
Proof.
  intros Hok. unfold with_page.
  destruct (brd_pages (dev st) !! (sector / PAGE_SECTORS)) as [p|] eqn:Hp.
  - eexists _, _. split; [by apply brd_insert_page_found|].
    by rewrite Hp.
  - destruct (mem st) as [|[] m] eqn:Hm.
    + eexists _, _. split; [by apply brd_insert_page_no_page; rewrite ?Hm|done].
    + destruct m as [|[] m'] eqn:Hm'.
      * eexists _, _. split; [by eapply brd_insert_page_no_node|done].
      * eexists _, _. split; [by eapply brd_insert_page_new|].
        simpl. by rewrite lookup_insert_eq.
      * eexists _, _. split; [by eapply brd_insert_page_no_node|done].
    + eexists _, _. split; [by apply brd_insert_page_no_page; rewrite ?Hm|done].
Qed.

(** ** Trees with one more page, or with bytes copied in *)

Lemma fresh_page_length idx :
  Z.of_nat (length (data (fresh_page idx))) = PAGE_SIZE.
Proof.
  pose proof PAGE_SIZE_bounds. simpl. rewrite length_replicate. lia.
Qed.

Lemma fresh_page_byte idx (o : nat) :
  default x00 (data (fresh_page idx) !! o) = x00.
Proof.
  simpl. destruct (replicate _ _ !! o) eqn:E; [|done].
  by apply lookup_replicate in E as [-> _].
Qed.

Lemma with_page_lookup root idx i :
  is_Some (with_page root idx !! i) ↔ is_Some (root !! i) ∨ i = idx.
Proof.
  unfold with_page. destruct (root !! idx) eqn:E.
  - split; [tauto|]. intros [?| ->]; [done|by rewrite E].
  - rewrite lookup_insert. case_decide; subst.
    + split; [tauto|by eauto].
    + split; [tauto|]. intros [?|?]; [done|congruence].
Qed.

Lemma with_page_mono root idx i p :
  root !! i = Some p -> with_page root idx !! i = Some p.
Proof.
  intros Hi. unfold with_page. destruct (root !! idx) eqn:E; [done|].
  rewrite lookup_insert_ne; [done|congruence].
Qed.

Lemma with_page_tree_ok root idx :
  tree_ok root -> 0 <= idx < 2 ^ 64 -> tree_ok (with_page root idx).
Proof.
  intros Hok Hidx i p. unfold with_page.
  destruct (root !! idx) eqn:E; [apply Hok|].
  rewrite lookup_insert. case_decide; [|apply Hok].
  intros; simplify_eq. done.
Qed.

Lemma with_page_pages_ok root idx :
  pages_ok root -> pages_ok (with_page root idx).
Proof.
  intros Hok i p. unfold with_page.
  destruct (root !! idx) eqn:E; [apply Hok|].
  rewrite lookup_insert. case_decide; [|apply Hok].
  intros; simplify_eq. apply fresh_page_length.
Qed.

Lemma with_page_byte root idx i o :
  page_byte (with_page root idx) i o = page_byte root i o.
Proof.
  unfold page_byte, with_page.
  destruct (root !! idx) eqn:E; [done|].
  rewrite lookup_insert. case_decide; [|done]. subst.
  rewrite E. apply fresh_page_byte.
Qed.

Lemma put_bytes_lookup root idx off src soff cnt i :
  is_Some (put_bytes root idx off src soff cnt !! i) ↔ is_Some (root !! i).
Proof.
  unfold put_bytes. destruct (root !! idx) eqn:E; [|done].
  rewrite lookup_insert. case_decide; [|done]. subst.
  rewrite E. split; eauto.
Qed.

Lemma put_bytes_tree_ok root idx off src soff cnt :
  tree_ok root -> tree_ok (put_bytes root idx off src soff cnt).
Proof.
  intros Hok i p. unfold put_bytes.
  destruct (root !! idx) as [q|] eqn:E; [|apply Hok].
  rewrite lookup_insert. case_decide; [|apply Hok].
  intros; simplify_eq. apply (Hok _ _ E).
Qed.

Lemma put_bytes_pages_ok root idx off src soff cnt :
  pages_ok root ->
  0 <= off -> 0 <= cnt -> off + cnt <= PAGE_SIZE ->
  0 <= soff -> soff + cnt <= Z.of_nat (length src) ->
  pages_ok (put_bytes root idx off src soff cnt).
Proof.
  intros Hok ????? i p. unfold put_bytes.
  destruct (root !! idx) as [q|] eqn:E; [|apply Hok].
  rewrite lookup_insert. case_decide; [|apply Hok].
  intros; simplify_eq. simpl. pose proof (Hok _ _ E).
  rewrite memcpy_length; lia.
Qed.

Lemma put_bytes_byte_in root idx off src soff cnt j :
  pages_ok root -> is_Some (root !! idx) ->
  0 <= off -> off + cnt <= PAGE_SIZE ->
  0 <= soff -> soff + cnt <= Z.of_nat (length src) ->
  0 <= j < cnt ->
  page_byte (put_bytes root idx off src soff cnt) idx (off + j)
    = default x00 (src !! Z.to_nat (soff + j)).
Proof.
  intros Hok [q E] ?????. unfold page_byte, put_bytes.
  rewrite E, lookup_insert_eq. simpl. pose proof (Hok _ _ E).
  rewrite memcpy_lookup_in; [done|lia..].
Qed.

Lemma put_bytes_byte_out root idx off src soff cnt i o :
  pages_ok root ->
  0 <= off -> 0 <= cnt -> off + cnt <= PAGE_SIZE ->
  0 <= soff -> soff + cnt <= Z.of_nat (length src) ->
  0 <= o -> i ≠ idx ∨ ¬ (off <= o < off + cnt) ->
  page_byte (put_bytes root idx off src soff cnt) i o = page_byte root i o.
Proof.
  intros Hok ?????? Hout. unfold page_byte, put_bytes.
  destruct (root !! idx) as [q|] eqn:E; [|done].
  rewrite lookup_insert. case_decide; [|done]. subst.
  rewrite E. simpl. pose proof (Hok _ _ E).
  rewrite memcpy_lookup_out; [done|lia..].
Qed.

(** ** The dispatcher, page by page *)

Lemma bind_Ok {A B} (m : M A) (f : A -> M B) st a st' :
  m st = Ok (a, st') -> (m ≫= f) st = f a st'.
Proof. intros E. unfold mbind, M_bind. by rewrite E. Qed.

Lemma bind_inv {A B} (m : M A) (f : A -> M B) st r :
  (m ≫= f) st = Ok r -> ∃ a st', m st = Ok (a, st') ∧ f a st' = Ok r.
Proof.
  unfold mbind, M_bind. destruct (m st) as [[a st']|]; [eauto|done].
Qed.

Lemma copy_to_brd_setup_spec st sector n :
  tree_ok (brd_pages (dev st)) -> 0 <= sector < 2 ^ 64 ->
  ∃ err st',
    copy_to_brd_setup sector n st = Ok (err, st')
    ∧ brd_number (dev st') = brd_number (dev st)
    ∧ brd_capacity (dev st') = brd_capacity (dev st)
    ∧ ((err = 0
        ∧ brd_pages (dev st')
          = if n <=? PAGE_SIZE - sector_offset sector
            then with_page (brd_pages (dev st)) (sector / PAGE_SECTORS)
            else with_page
                   (with_page (brd_pages (dev st)) (sector / PAGE_SECTORS))
                   (next_page_sector sector / PAGE_SECTORS))
       ∨ (err = - ENOSPC
          ∧ (brd_pages (dev st') = brd_pages (dev st)
             ∨ (crosses sector n
                ∧ brd_pages (dev st')
                  = with_page (brd_pages (dev st))
                      (sector / PAGE_SECTORS))))).
Proof.
  intros Hok Hs. unfold copy_to_brd_setup, crosses.
  rewrite first_chunk_u64.
  destruct (brd_insert_page_cases st sector Hok)
    as (r & st1 & E1 & Hnr1 & Hcap1 & Hr1).
  rewrite (bind_Ok _ _ _ _ _ E1).
  destruct r as [p|]; simpl.
  2:{ eexists _, _. split; [done|]. destruct Hr1. eauto 10. }
  destruct Hr1 as [Hr1 Hp].
  destruct (Z.ltb_spec (Z.min n (PAGE_SIZE - sector_offset sector)) n)
    as [Hlt|Hge].
  - rewrite Z.min_r in * by lia.
    rewrite (proj2 (Z.leb_gt _ _)) by lia.
    fold (next_page_sector sector).
    assert (Hok1 : tree_ok (brd_pages (dev st1))).
    { rewrite Hr1. apply with_page_tree_ok; [done|].
      pose proof (sector_index_range sector Hs).
      pose proof NR_INDICES_sectors. pose proof PAGE_SECTORS_pos. nia. }
    destruct (brd_insert_page_cases st1 (next_page_sector sector) Hok1)
      as (r & st2 & E2 & Hnr2 & Hcap2 & Hr2).
    rewrite (bind_Ok _ _ _ _ _ E2).
    destruct r as [q|]; simpl.
    + eexists _, _. split; [done|]. destruct Hr2 as [-> _].
      rewrite Hr1. split_and!; [congruence..|]. by left.
    + eexists _, _. split; [done|]. destruct Hr2 as [-> _].
      split_and!; [congruence..|]. right. split; [done|]. right. done.
  - rewrite (proj2 (Z.leb_le _ _)) by lia.
    eexists _, _. split; [done|]. split_and!; [done..|]. by left.
Qed.

Lemma page_write_spec st sector p d :
  page_write sector p d st
    = Ok (tt, set_dev_pages st
                (<[sector / PAGE_SECTORS := Page (index p) d]>
                   (brd_pages (dev st)))).
Proof. unfold page_write. rewrite sector_index_div. done. Qed.

Lemma copy_to_brd_spec st src soff sector n :
  tree_ok (brd_pages (dev st)) ->
  0 <= sector < 2 ^ 64 -> 0 <= n <= PAGE_SIZE ->
  is_Some (brd_pages (dev st) !! (sector / PAGE_SECTORS)) ->
  (crosses sector n ->
   is_Some (brd_pages (dev st) !! (next_page_sector sector / PAGE_SECTORS))) ->
  copy_to_brd src soff sector n st
    = Ok (tt,
          set_dev_pages st
            (if n <=? PAGE_SIZE - sector_offset sector then
               put_bytes (brd_pages (dev st)) (sector / PAGE_SECTORS)
                 (sector_offset sector) src soff n
             else
               put_bytes
                 (put_bytes (brd_pages (dev st)) (sector / PAGE_SECTORS)
                    (sector_offset sector) src soff
                    (PAGE_SIZE - sector_offset sector))
                 (next_page_sector sector / PAGE_SECTORS) 0 src
                 (soff + (PAGE_SIZE - sector_offset sector))
                 (n - (PAGE_SIZE - sector_offset sector)))).
Proof.
  intros Hok Hs Hn [p Hp] Hq. unfold copy_to_brd, crosses in *.
  rewrite first_chunk_u64.
  rewrite (bind_Ok _ _ _ _ _ (brd_lookup_page_spec st sector Hok)), Hp.
  rewrite (bind_Ok _ _ _ _ _ (page_write_spec _ _ _ _)).
  pose proof (sector_offset_range sector) as Ho.
  pose proof PAGE_SIZE_bounds as Hb.
  destruct (Z.ltb_spec (Z.min n (PAGE_SIZE - sector_offset sector)) n)
    as [Hlt|Hge].
  - rewrite Z.min_r in * by lia.
    rewrite (proj2 (Z.leb_gt _ _)) by lia.
    fold (next_page_sector sector).
    destruct Hq as [q Hq]; [lia|].
    set (st1 := set_dev_pages st _).
    assert (Hok1 : tree_ok (brd_pages (dev st1))).
    { pose proof (put_bytes_tree_ok (brd_pages (dev st))
                    (sector / PAGE_SECTORS) (sector_offset sector) src soff
                    (PAGE_SIZE - sector_offset sector) Hok) as H1.
      unfold put_bytes in H1. rewrite Hp in H1. exact H1. }
    rewrite (bind_Ok _ _ _ _ _
               (brd_lookup_page_spec st1 (next_page_sector sector) Hok1)).
    simpl. rewrite lookup_insert_ne
      by (pose proof (next_page_sector_other sector Hs); congruence).
    rewrite Hq. rewrite page_write_spec. simpl.
    unfold put_bytes. rewrite Hp.
    rewrite lookup_insert_ne
      by (pose proof (next_page_sector_other sector Hs); congruence).
    rewrite Hq. unfold u64. rewrite Z.mod_small by lia. done.
  - rewrite Z.min_l by lia.
    rewrite (proj2 (Z.leb_le _ _)) by lia.
    unfold put_bytes. rewrite Hp. done.
Qed.

Lemma read_chunk_length po dst doff poff cnt :
  (∀ p, po = Some p -> Z.of_nat (length (data p)) = PAGE_SIZE) ->
  0 <= doff -> 0 <= cnt -> doff + cnt <= Z.of_nat (length dst) ->
  0 <= poff -> poff + cnt <= PAGE_SIZE ->
  length (read_chunk po dst doff poff cnt) = length dst.
Proof.
  intros Hp ?????. destruct po as [p|]; simpl.
  - specialize (Hp p eq_refl). apply memcpy_length; lia.
  - apply memset_length; lia.
Qed.

Lemma read_chunk_in root idx dst doff poff cnt j :
  pages_ok root ->
  0 <= doff -> doff + cnt <= Z.of_nat (length dst) ->
  0 <= poff -> poff + cnt <= PAGE_SIZE ->
  0 <= j < cnt ->
  read_chunk (root !! idx) dst doff poff cnt !! Z.to_nat (doff + j)
    = Some (page_byte root idx (poff + j)).
Proof.
  intros Hok ?????. unfold page_byte.
  destruct (root !! idx) as [p|] eqn:E; simpl.
  - pose proof (Hok _ _ E).
    rewrite memcpy_lookup_in by lia.
    destruct (lookup_lt_is_Some_2 (data p) (Z.to_nat (poff + j)))
      as [b Hb]; [lia|]. by rewrite Hb.
  - apply memset_lookup_in; lia.
Qed.

Lemma read_chunk_out po dst doff poff cnt i :
  (∀ p, po = Some p -> Z.of_nat (length (data p)) = PAGE_SIZE) ->
  0 <= doff -> 0 <= cnt -> doff + cnt <= Z.of_nat (length dst) ->
  0 <= poff -> poff + cnt <= PAGE_SIZE ->
  0 <= i -> ¬ (doff <= i < doff + cnt) ->
  read_chunk po dst doff poff cnt !! Z.to_nat i = dst !! Z.to_nat i.
Proof.
  intros Hp ???????. destruct po as [p|]; simpl.
  - specialize (Hp p eq_refl). apply memcpy_lookup_out; lia.
  - apply memset_lookup_out; lia.
Qed.

Lemma copy_from_brd_eq st dst doff sector n :
  tree_ok (brd_pages (dev st)) ->
  0 <= sector < 2 ^ 64 -> 0 <= n <= PAGE_SIZE ->
  copy_from_brd dst doff sector n st
    = Ok (let o := sector_offset sector in
          let root := brd_pages (dev st) in
          if n <=? PAGE_SIZE - o then
            read_chunk (root !! (sector / PAGE_SECTORS)) dst doff o n
          else
            read_chunk (root !! (next_page_sector sector / PAGE_SECTORS))
              (read_chunk (root !! (sector / PAGE_SECTORS)) dst doff o
                 (PAGE_SIZE - o))
              (doff + (PAGE_SIZE - o)) 0 (n - (PAGE_SIZE - o)),
          st).
Proof.
  intros Hok Hs Hn. unfold copy_from_brd. rewrite first_chunk_u64.
  rewrite (bind_Ok _ _ _ _ _ (brd_lookup_page_spec st sector Hok)).
  pose proof (sector_offset_range sector) as Ho.
  pose proof PAGE_SIZE_bounds as Hb.
  destruct (Z.ltb_spec (Z.min n (PAGE_SIZE - sector_offset sector)) n)
    as [Hlt|Hge]; simpl.
  - rewrite Z.min_r in * by lia.
    rewrite (proj2 (Z.leb_gt _ _)) by lia.
    fold (next_page_sector sector).
    rewrite (bind_Ok _ _ _ _ _
               (brd_lookup_page_spec st (next_page_sector sector) Hok)).
    unfold u64. rewrite Z.mod_small by lia.
    unfold read_chunk.
    by destruct (_ !! (next_page_sector sector / PAGE_SECTORS)).
  - rewrite Z.min_l by lia.
    rewrite (proj2 (Z.leb_le _ _)) by lia. done.
Qed.

Lemma copy_from_brd_spec st dst doff sector n :
  store_ok st ->
  0 <= sector < 2 ^ 64 -> 0 <= n <= PAGE_SIZE ->
  0 <= doff -> doff + n <= Z.of_nat (length dst) ->
  ∃ d',
    copy_from_brd dst doff sector n st = Ok (d', st)
    ∧ length d' = length dst
    ∧ (∀ k, 0 <= k < n ->
         d' !! Z.to_nat (doff + k)
           = Some (dev_byte (brd_pages (dev st)) (byte_addr sector k)))
    ∧ (∀ i, 0 <= i -> ¬ (doff <= i < doff + n) ->
         d' !! Z.to_nat i = dst !! Z.to_nat i).
Proof.
  intros [Hok Hpg] Hs Hn Hd Hlen.
  eexists. split; [by apply copy_from_brd_eq|].
  pose proof (sector_offset_range sector) as Ho.
  pose proof PAGE_SIZE_bounds as Hb.
  set (root := brd_pages (dev st)) in *.
  set (o := sector_offset sector) in *.
  assert (Hpo : ∀ idx p, root !! idx = Some p ->
                  Z.of_nat (length (data p)) = PAGE_SIZE) by exact Hpg.
  simpl. destruct (Z.leb_spec n (PAGE_SIZE - o)) as [Hle|Hgt].
  - split_and!.
    + apply read_chunk_length; eauto; lia.
    + intros k Hk. rewrite (read_chunk_in root) by (done || lia).
      unfold dev_byte.
      destruct (byte_addr_first sector k Hs) as [-> ->]; [fold o; lia|done].
    + intros i Hi Hout. apply read_chunk_out; eauto; lia.
  - assert (Hl1 : length (read_chunk (root !! (sector / PAGE_SECTORS)) dst
                            doff o (PAGE_SIZE - o)) = length dst)
      by (apply read_chunk_length; eauto; lia).
    split_and!.
    + rewrite read_chunk_length; eauto; lia.
    + intros k Hk. unfold dev_byte.
      destruct (decide (k < PAGE_SIZE - o)) as [Hk1|Hk2].
      * rewrite read_chunk_out by (eauto; lia).
        rewrite (read_chunk_in root) by (done || lia).
        destruct (byte_addr_first sector k Hs) as [-> ->]; [fold o; lia|done].
      * replace (doff + k)
          with (doff + (PAGE_SIZE - o) + (k - (PAGE_SIZE - o))) by lia.
        rewrite (read_chunk_in root) by (done || lia).
        destruct (byte_addr_second sector k Hs) as [-> ->];
          [fold o; lia|done].
    + intros i Hi Hout.
      rewrite read_chunk_out by (eauto; lia).
      apply read_chunk_out; eauto; lia.
Qed.

(** ** The store after a write, byte by byte *)

Lemma idx_u64 sector :
  0 <= sector < 2 ^ 64 -> 0 <= sector / PAGE_SECTORS < 2 ^ 64.
Proof.
  intros Hs. pose proof (sector_index_range sector Hs).
  pose proof NR_INDICES_sectors. pose proof PAGE_SECTORS_pos. nia.
Qed.

Lemma idx'_u64 sector :
  0 <= sector < 2 ^ 64 ->
  0 <= next_page_sector sector / PAGE_SECTORS < 2 ^ 64.
Proof.
  intros Hs. apply idx_u64. by apply next_page_sector_range.
Qed.

Section written.

Variables (root : gmap Z page) (src : list byte) (soff sector n : Z).
Hypothesis Htree : tree_ok root.
Hypothesis Hpages : pages_ok root.
Hypothesis Hsector : 0 <= sector < 2 ^ 64.
Hypothesis Hn : 0 <= n <= PAGE_SIZE.
Hypothesis Hsoff : 0 <= soff.
Hypothesis Hsrc : soff + n <= Z.of_nat (length src).

Let idx := sector / PAGE_SECTORS.
Let idx' := next_page_sector sector / PAGE_SECTORS.
Let o := sector_offset sector.

Lemma written_store_lookup i :
  is_Some (written_store root src soff sector n !! i)
  ↔ is_Some (root !! i) ∨ i = idx ∨ (crosses sector n ∧ i = idx').
Proof.
  unfold written_store, crosses. fold o idx idx'.
  destruct (Z.leb_spec n (PAGE_SIZE - o)).
  - rewrite put_bytes_lookup, with_page_lookup. intuition lia.
  - rewrite !put_bytes_lookup, !with_page_lookup. intuition lia.
Qed.

Lemma written_store_tree_ok :
  tree_ok (written_store root src soff sector n).
Proof.
  pose proof (idx_u64 sector Hsector).
  pose proof (idx'_u64 sector Hsector).
  unfold written_store. fold o idx idx' in H, H0 |- *.
  destruct (Z.leb_spec n (PAGE_SIZE - o));
    repeat first [apply put_bytes_tree_ok | apply with_page_tree_ok];
    done.
Qed.

Lemma written_store_pages_ok :
  pages_ok (written_store root src soff sector n).
Proof.
  pose proof (sector_offset_range sector). pose proof PAGE_SIZE_bounds.
  unfold written_store. fold o idx idx'. fold o in H.
  destruct (Z.leb_spec n (PAGE_SIZE - o));
    repeat first [apply put_bytes_pages_ok | apply with_page_pages_ok];
    (done || lia).
Qed.

Lemma written_store_in k :
  0 <= k < n ->
  dev_byte (written_store root src soff sector n) (byte_addr sector k)
    = default x00 (src !! Z.to_nat (soff + k)).
Proof.
  intros Hk. pose proof (sector_offset_range sector) as Ho.
  pose proof PAGE_SIZE_bounds as Hb.
  pose proof (next_page_sector_other sector Hsector) as Hne.
  unfold written_store, dev_byte. fold o idx idx' in Ho, Hne |- *.
  destruct (Z.leb_spec n (PAGE_SIZE - o)).
  - destruct (byte_addr_first sector k Hsector) as [-> ->];
      [fold o; lia|].
    fold o idx. apply put_bytes_byte_in; try lia.
    + by apply with_page_pages_ok.
    + apply with_page_lookup. by right.
  - destruct (decide (k < PAGE_SIZE - o)).
    + destruct (byte_addr_first sector k Hsector) as [-> ->];
        [fold o; lia|].
      fold o idx. rewrite put_bytes_byte_out; try lia.
      * apply put_bytes_byte_in; try lia.
        -- by do 2 apply with_page_pages_ok.
        -- apply with_page_lookup. left. apply with_page_lookup. by right.
      * apply put_bytes_pages_ok; try lia.
        by do 2 apply with_page_pages_ok.
    + destruct (byte_addr_second sector k Hsector) as [-> ->];
        [fold o; lia|].
      fold o idx'.
      replace (k - (PAGE_SIZE - o)) with (0 + (k - (PAGE_SIZE - o)))
        at 1 by lia.
      rewrite put_bytes_byte_in; try lia.
      * f_equal. f_equal. lia.
      * apply put_bytes_pages_ok; try lia.
        by do 2 apply with_page_pages_ok.
      * apply put_bytes_lookup, with_page_lookup. by right.
Qed.

Lemma written_store_out a :
  (∀ k, 0 <= k < n -> a ≠ byte_addr sector k) ->
  dev_byte (written_store root src soff sector n) a = dev_byte root a.
Proof.
  intros Hout. pose proof (sector_offset_range sector) as Ho.
  pose proof PAGE_SIZE_bounds as Hb.
  pose proof (Z.mod_pos_bound a PAGE_SIZE ltac:(lia)) as Hm.
  pose proof (Z.div_mod a PAGE_SIZE ltac:(lia)) as Ha.
  assert (Hfirst : ∀ k, 0 <= k < n -> k < PAGE_SIZE - o ->
            ¬ (a / PAGE_SIZE = idx ∧ a mod PAGE_SIZE = o + k)).
  { intros k Hk Hk' [Hi Hoff]. apply (Hout k Hk).
    destruct (byte_addr_first sector k Hsector) as [H1 H2];
      [fold o; lia|].
    pose proof (Z.div_mod (byte_addr sector k) PAGE_SIZE ltac:(lia)).
    fold idx o in H1, H2. congruence. }
  assert (Hsecond : ∀ k, 0 <= k < n -> PAGE_SIZE - o <= k ->
            ¬ (a / PAGE_SIZE = idx'
               ∧ a mod PAGE_SIZE = k - (PAGE_SIZE - o))).
  { intros k Hk Hk' [Hi Hoff]. apply (Hout k Hk).
    destruct (byte_addr_second sector k Hsector) as [H1 H2];
      [fold o; lia|].
    pose proof (Z.div_mod (byte_addr sector k) PAGE_SIZE ltac:(lia)).
    fold idx' o in H1, H2. congruence. }
  unfold written_store, dev_byte. fold o idx idx' in Ho |- *.
  destruct (Z.leb_spec n (PAGE_SIZE - o)).
  - rewrite put_bytes_byte_out; try lia.
    + apply with_page_byte.
    + by apply with_page_pages_ok.
    + destruct (decide (a / PAGE_SIZE = idx)); [|by left]. right.
      intros Hr. apply (Hfirst (a mod PAGE_SIZE - o)); lia.
  - rewrite put_bytes_byte_out; try lia.
    + rewrite put_bytes_byte_out; try lia.
      * by rewrite !with_page_byte.
      * by do 2 apply with_page_pages_ok.
      * destruct (decide (a / PAGE_SIZE = idx)); [|by left]. right.
        intros Hr. apply (Hfirst (a mod PAGE_SIZE - o)); lia.
    + apply put_bytes_pages_ok; try lia.
      by do 2 apply with_page_pages_ok.
    + destruct (decide (a / PAGE_SIZE = idx')); [|by left]. right.
      intros Hr. apply (Hsecond (a mod PAGE_SIZE + (PAGE_SIZE - o))); lia.
Qed.

End written.

(** ** One segment *)

Lemma copy_from_brd_total st dst doff sector n :
  tree_ok (brd_pages (dev st)) ->
  ∃ d', copy_from_brd dst doff sector n st = Ok (d', st).
Proof.
  intros Hok. unfold copy_from_brd.
  rewrite (bind_Ok _ _ _ _ _ (brd_lookup_page_spec st sector Hok)).
  destruct (_ <? n).
  - rewrite (bind_Ok _ _ _ _ _ (brd_lookup_page_spec st _ Hok)).
    destruct (_ !! (_ / PAGE_SECTORS)); eexists; done.
  - eexists; done.
Qed.

Lemma brd_do_bvec_read st pg len off op sector :
  store_ok st -> op_is_write op = false ->
  0 <= sector < 2 ^ 64 -> 0 <= len <= PAGE_SIZE ->
  0 <= off -> off + len <= Z.of_nat (length (data pg)) ->
  ∃ d',
    brd_do_bvec pg len off op sector st = Ok ((0, Page (index pg) d'), st)
    ∧ length d' = length (data pg)
    ∧ (∀ k, 0 <= k < len ->
         d' !! Z.to_nat (off + k)
           = Some (dev_byte (brd_pages (dev st)) (byte_addr sector k)))
    ∧ (∀ i, 0 <= i -> ¬ (off <= i < off + len) ->
         d' !! Z.to_nat i = data pg !! Z.to_nat i).
Proof.
  intros Hok Hop Hs Hn Hoff Hlen.
  destruct (copy_from_brd_spec st (data pg) off sector len)
    as (d' & E & Hd'); try done.
  exists d'. split; [|done].
  unfold brd_do_bvec. rewrite Hop. simpl.
  unfold mbind at 1, M_bind at 1, mret at 1, M_ret at 1. simpl.
  by rewrite (bind_Ok _ _ _ _ _ E).
Qed.

Lemma brd_do_bvec_write st pg len off op sector :
  store_ok st -> op_is_write op = true ->
  0 <= sector < 2 ^ 64 -> 0 <= len <= PAGE_SIZE ->
  0 <= off -> off + len <= Z.of_nat (length (data pg)) ->
  ∃ err st',
    brd_do_bvec pg len off op sector st = Ok ((err, pg), st')
    ∧ store_ok st'
    ∧ brd_number (dev st') = brd_number (dev st)
    ∧ brd_capacity (dev st') = brd_capacity (dev st)
    ∧ ((err = 0
        ∧ brd_pages (dev st')
          = written_store (brd_pages (dev st)) (data pg) off sector len)
       ∨ (err = - ENOSPC
          ∧ (brd_pages (dev st') = brd_pages (dev st)
             ∨ (crosses sector len
                ∧ brd_pages (dev st')
                  = with_page (brd_pages (dev st))
                      (sector / PAGE_SECTORS))))).
Proof.
  intros [Hok Hpg] Hop Hs Hn Hoff Hlen.
  destruct (copy_to_brd_setup_spec st sector len Hok Hs)
    as (err & st1 & E1 & Hnr & Hcap & Hcases).
  unfold brd_do_bvec. rewrite Hop. rewrite (bind_Ok _ _ _ _ _ E1).
  destruct Hcases as [[-> Hst1]|[-> Hst1]]; simpl.
  - assert (Hok1 : tree_ok (brd_pages (dev st1))).
    { rewrite Hst1. pose proof (idx_u64 sector Hs).
      pose proof (idx'_u64 sector Hs).
      destruct (_ <=? _); repeat apply with_page_tree_ok; done. }
    assert (H1 : is_Some (brd_pages (dev st1) !! (sector / PAGE_SECTORS))).
    { rewrite Hst1. destruct (_ <=? _); apply with_page_lookup; [by right|].
      left. apply with_page_lookup. by right. }
    assert (H2 : crosses sector len ->
                 is_Some (brd_pages (dev st1)
                            !! (next_page_sector sector / PAGE_SECTORS))).
    { unfold crosses. intros Hc. rewrite Hst1.
      rewrite (proj2 (Z.leb_gt _ _)) by lia.
      apply with_page_lookup. by right. }
    rewrite (bind_Ok _ _ _ _ _
               (copy_to_brd_spec st1 (data pg) off sector len Hok1 Hs Hn
                  H1 H2)).
    eexists _, _. split; [done|]. simpl.
    assert (Heq : (if len <=? PAGE_SIZE - sector_offset sector
                   then put_bytes (brd_pages (dev st1))
                          (sector / PAGE_SECTORS) (sector_offset sector)
                          (data pg) off len
                   else put_bytes
                          (put_bytes (brd_pages (dev st1))
                             (sector / PAGE_SECTORS)
                             (sector_offset sector) (data pg) off
                             (PAGE_SIZE - sector_offset sector))
                          (next_page_sector sector / PAGE_SECTORS) 0
                          (data pg)
                          (off + (PAGE_SIZE - sector_offset sector))
                          (len - (PAGE_SIZE - sector_offset sector)))
                  = written_store (brd_pages (dev st)) (data pg) off
                      sector len).
    { unfold written_store. rewrite Hst1. by destruct (_ <=? _). }
    rewrite Heq. split_and!; [|done..|by left].
    split; [by apply written_store_tree_ok
           |by apply written_store_pages_ok].
  - eexists _, _. split; [done|]. split_and!; [|done..|by right].
    unfold store_ok. destruct Hst1 as [->|[_ ->]]; [done|].
    pose proof (idx_u64 sector Hs).
    split; [by apply with_page_tree_ok|by apply with_page_pages_ok].
Qed.

Lemma with_page_dev_byte root idx a :
  dev_byte (with_page root idx) a = dev_byte root a.
Proof. apply with_page_byte. Qed.

(** What one call of [brd_do_bvec] does to the device, for the proofs
    about requests and histories. *)
Lemma brd_do_bvec_step st pg len off op sector :
  store_ok st ->
  0 <= sector < 2 ^ 64 -> 0 <= len <= PAGE_SIZE ->
  0 <= off -> off + len <= Z.of_nat (length (data pg)) ->
  ∃ err pg' st',
    brd_do_bvec pg len off op sector st = Ok ((err, pg'), st')
    ∧ store_ok st'
    ∧ brd_capacity (dev st') = brd_capacity (dev st)
    ∧ length (data pg') = length (data pg)
    ∧ (err = 0 ∨ err = - ENOSPC)
    ∧ (op_is_write op = false -> err = 0 ∧ st' = st)
    ∧ (op_is_write op = true -> pg' = pg)
    ∧ (err ≠ 0 ->
       ∀ a, dev_byte (brd_pages (dev st')) a
            = dev_byte (brd_pages (dev st)) a)
    ∧ (∀ a, (∀ k, 0 <= k < len -> a ≠ byte_addr sector k) ->
            dev_byte (brd_pages (dev st')) a
            = dev_byte (brd_pages (dev st)) a)
    ∧ (err = 0 -> op_is_write op = true ->
       ∀ k, 0 <= k < len ->
            dev_byte (brd_pages (dev st')) (byte_addr sector k)
            = default x00 (data pg !! Z.to_nat (off + k))
            ∧ is_Some (brd_pages (dev st')
                         !! (byte_addr sector k / PAGE_SIZE)))
    ∧ (∀ i, is_Some (brd_pages (dev st) !! i) ->
            is_Some (brd_pages (dev st') !! i))
    ∧ (∀ i, is_Some (brd_pages (dev st') !! i) ->
            is_Some (brd_pages (dev st) !! i)
            ∨ (op_is_write op = true
               ∧ (i = sector / PAGE_SECTORS
                  ∨ (crosses sector len
                     ∧ i = next_page_sector sector / PAGE_SECTORS)))).
Proof.
  intros Hok Hs Hn Hoff Hlen.
  destruct (op_is_write op) eqn:Hop.
  - destruct (brd_do_bvec_write st pg len off op sector)
      as (err & st' & E & Hok' & _ & Hcap & Hcases); try done.
    exists err, pg, st'. destruct Hok as [Htree Hpages].
    split_and!; try done.
    + tauto.
    + intros Hne a.
      destruct Hcases as [[? _]|[_ [->|[_ ->]]]]; [done|done|].
      apply with_page_dev_byte.
    + intros a Ha.
      destruct Hcases as [[_ ->]|[_ [->|[_ ->]]]];
        [by apply written_store_out|done|apply with_page_dev_byte].
    + intros -> _ k Hk.
      destruct Hcases as [[_ ->]|[? _]]; [|done].
      split; [by apply written_store_in|].
      apply written_store_lookup; try done.
      pose proof (sector_offset_range sector).
      destruct (decide (k < PAGE_SIZE - sector_offset sector)).
      * destruct (byte_addr_first sector k Hs) as [-> _]; [lia|tauto].
      * destruct (byte_addr_second sector k Hs) as [-> _]; [lia|].
        right. right. unfold crosses. split; [lia|done].
    + intros i Hi.
      destruct Hcases as [[_ ->]|[_ [->|[_ ->]]]]; [|done|].
      * apply written_store_lookup; tauto.
      * apply with_page_lookup; tauto.
    + intros i Hi.
      destruct Hcases as [[_ Hst']|[_ [Hst'|[? Hst']]]];
        rewrite Hst' in Hi.
      * apply written_store_lookup in Hi; tauto.
      * tauto.
      * apply with_page_lookup in Hi. tauto.
  - destruct (brd_do_bvec_read st pg len off op sector)
      as (d' & E & Hlen' & _); try done.
    exists 0, (Page (index pg) d'), st.
    split_and!; try done; try tauto.
Qed.

Lemma copy_from_brd_pure st dst doff sector n d' st' :
  copy_from_brd dst doff sector n st = Ok (d', st') -> st' = st.
Proof.
  unfold copy_from_brd. intros E.
  apply bind_inv in E as (po & st1 & E1 & E).
  apply brd_lookup_page_pure in E1 as [-> _].
  destruct (_ <? n).
  - apply bind_inv in E as (po' & st2 & E2 & E).
    apply brd_lookup_page_pure in E2 as [-> _].
    destruct po'; unfold mret, M_ret in E; by simplify_eq.
  - unfold mret, M_ret in E; by simplify_eq.
Qed.

(** A read changes nothing of the kernel state, whatever the state. *)
Lemma brd_do_bvec_read_pure st pg len off op sector r st' :
  op_is_write op = false ->
  brd_do_bvec pg len off op sector st = Ok (r, st') ->
  st' = st ∧ r.1 = 0.
Proof.
  intros Hop E. unfold brd_do_bvec in E. rewrite Hop in E. simpl in E.
  unfold mbind at 1, M_bind at 1, mret at 1, M_ret at 1 in E. simpl in E.
  apply bind_inv in E as (d' & st1 & E1 & E).
  apply copy_from_brd_pure in E1 as ->.
  unfold mret, M_ret in E. by simplify_eq.
Qed.

(** ** Properties of one segment *)


(** C3. [brd_insert_page]: a page that exists at the index of [sector]
    is returned and nothing changes; when none exists and memory is
    obtained (the page, then the tree node), a zero-filled page whose
    index is the key is registered at the key and returned; [NULL] comes
    back only when there was no page and memory could not be obtained,
    and then the device is unchanged. *)
Theorem brd_insert_page_contract st sector :
  tree_ok (brd_pages (dev st)) ->
  let idx := Z.shiftr sector PAGE_SECTORS_SHIFT in
  (∀ p, brd_pages (dev st) !! idx = Some p ->
        brd_insert_page sector st = Ok (Some p, st))
  ∧ (∀ m, brd_pages (dev st) !! idx = None ->
          mem st = true :: true :: m ->
          ∃ p st',
            brd_insert_page sector st = Ok (Some p, st')
            ∧ index p = idx
            ∧ data p = replicate (Z.to_nat PAGE_SIZE) x00
            ∧ brd_pages (dev st') = <[idx := p]> (brd_pages (dev st))
            ∧ brd_pages (dev st') !! idx = Some p)
  ∧ (∃ r st', brd_insert_page sector st = Ok (r, st'))
  ∧ (∀ st', brd_insert_page sector st = Ok (None, st') ->
            brd_pages (dev st) !! idx = None
            ∧ (¬ ∃ m, mem st = true :: true :: m)
            ∧ dev st' = dev st).
Proof.
  intros Hok idx. unfold idx. rewrite sector_index_div.
  split_and!.
  - intros p Hp. by apply brd_insert_page_found.
  - intros m Hp Hm. eexists _, _.
    split; [by eapply brd_insert_page_new|]. simpl.
    split_and!; try done. by rewrite lookup_insert_eq.
  - destruct (brd_insert_page_cases st sector Hok) as (r & st' & E & _).
    eauto.
  - intros st' E.
    destruct (brd_pages (dev st) !! (sector / PAGE_SECTORS)) as [p|] eqn:Hp.
    { rewrite (brd_insert_page_found st sector p Hok Hp) in E. done. }
    split; [done|].
    destruct (mem st) as [|[] m] eqn:Hm.
    + rewrite brd_insert_page_no_page in E by (by rewrite ?Hm).
      simplify_eq. split; [|done]. by intros [? ?].
    + destruct m as [|[] m'] eqn:Hm'.
      * rewrite (brd_insert_page_no_node st sector []) in E by done.
        simplify_eq. split; [|done]. by intros [? ?].
      * rewrite (brd_insert_page_new st sector m') in E by done. done.
      * rewrite (brd_insert_page_no_node st sector (false :: m')) in E
          by done.
        simplify_eq. split; [|done]. by intros [? ?].
    + rewrite brd_insert_page_no_page in E by (by rewrite ?Hm).
      simplify_eq. split; [|done]. by intros [? ?].
Qed.

(** C4. When an allocation that a write segment needs fails, the
    segment returns [-ENOSPC], the caller's page is as it was, and every
    byte of the device is what it was before the call. *)
Theorem brd_do_bvec_nospace st pg len off op sector :
  store_ok st -> op_is_write op = true ->
  0 <= sector < 2 ^ 64 -> 0 <= len <= PAGE_SIZE ->
  0 <= off -> off + len <= Z.of_nat (length (data pg)) ->
  alloc_fails st sector len ->
  ∃ st',
    brd_do_bvec pg len off op sector st = Ok ((- ENOSPC, pg), st')
    ∧ ∀ a, dev_byte (brd_pages (dev st')) a
           = dev_byte (brd_pages (dev st)) a.
Proof.
  intros Hok Hop Hs Hn Hoff Hlen Hfail.
  assert (Hset : ∃ st', copy_to_brd_setup sector len st
                        = Ok (- ENOSPC, st')).
  { unfold copy_to_brd_setup. rewrite first_chunk_u64.
    destruct Hfail as [[st1 E1]|(Hc & p & st0 & st1 & E0 & E1)].
    - rewrite (bind_Ok _ _ _ _ _ E1). simpl. eauto.
    - rewrite (bind_Ok _ _ _ _ _ E0). simpl. unfold crosses in Hc.
      rewrite Z.min_r by lia. rewrite (proj2 (Z.ltb_lt _ _)) by lia.
      fold (next_page_sector sector).
      rewrite (bind_Ok _ _ _ _ _ E1). simpl. eauto. }
  destruct Hset as [st' Eset].
  destruct (brd_do_bvec_write st pg len off op sector)
    as (err & st2 & E & _ & _ & _ & Hcases); try done.
  assert (err = - ENOSPC ∧ st2 = st') as [-> ->].
  { unfold brd_do_bvec in E. rewrite Hop in E.
    rewrite (bind_Ok _ _ _ _ _ Eset) in E. simpl in E.
    unfold mret, M_ret in E. by simplify_eq. }
  exists st'. split; [done|].
  destruct Hcases as [[? _]|[_ [->|[_ ->]]]]; [done|done|].
  intros a. apply with_page_dev_byte.
Qed.

(** C10. A read segment never returns an error: whatever the device,
    a call of [brd_do_bvec] with an operation that is not a write, if it
    returns, returns [0] and leaves the kernel state as it is; and on
    every device whose tree holds each page at its index it does
    return, whatever pages exist: a page that is absent is read as
    zeroes. *)
Theorem brd_do_bvec_read_succeeds st pg len off op sector :
  op_is_write op = false ->
  (∀ r st', brd_do_bvec pg len off op sector st = Ok (r, st') ->
            r.1 = 0 ∧ st' = st)
  ∧ (tree_ok (brd_pages (dev st)) ->
     ∃ pg', brd_do_bvec pg len off op sector st = Ok ((0, pg'), st)).
Proof.
  intros Hop. split.
  - intros r st' E.
    by destruct (brd_do_bvec_read_pure _ _ _ _ _ _ _ _ Hop E).
  - intros Hok. unfold brd_do_bvec. rewrite Hop. simpl.
    unfold mbind at 1, M_bind at 1, mret at 1, M_ret at 1. simpl.
    destruct (copy_from_brd_total st (data pg) off sector len Hok)
      as [d' E].
    rewrite (bind_Ok _ _ _ _ _ E). eauto.
Qed.

(** ** Histories *)

Lemma brd_new_ok i capacity m : store_ok (brd_new i capacity m).
Proof. split; intros idx p; simpl; by rewrite lookup_empty. Qed.

Lemma run_calls_inv cs :
  ∀ st, store_ok st -> Forall call_ok cs ->
  ∃ errs st',
    run_calls cs st = Ok (errs, st')
    ∧ store_ok st'
    ∧ (∀ a, ¬ written cs errs a ->
            dev_byte (brd_pages (dev st')) a
            = dev_byte (brd_pages (dev st)) a)
    ∧ (∀ i, is_Some (brd_pages (dev st) !! i) ->
            is_Some (brd_pages (dev st') !! i))
    ∧ (∀ a, written cs errs a ->
            is_Some (brd_pages (dev st') !! (a / PAGE_SIZE)))
    ∧ (Forall (fun c => 0 < c_len c) cs ->
       ∀ i, is_Some (brd_pages (dev st') !! i) ->
            is_Some (brd_pages (dev st) !! i) ∨ targeted cs i).
Proof.
  induction cs as [|c cs IH]; intros st Hok Hcs.
  - exists [], st. simpl. split_and!; try done. intros _ i Hi. by left.
  - apply Forall_cons in Hcs as [(Hs & Hn & Hoff & Hlen) Hcs].
    destruct (brd_do_bvec_step st (c_page c) (c_len c) (c_off c) (c_op c)
                (c_sector c))
      as (err & pg' & st1 & E & Hok1 & _ & _ & _ & Hrd & _ & Hfail & Hout
          & Hin & Hmono & Hnew); try done.
    destruct (IH st1 Hok1 Hcs)
      as (errs & st' & E' & Hok' & Hout' & Hmono' & Hwr' & Hnew').
    exists (err :: errs), st'. simpl.
    rewrite (bind_Ok _ _ _ _ _ E), (bind_Ok _ _ _ _ _ E'). simpl.
    split_and!; try done.
    + intros a Ha. rewrite Hout' by tauto.
      destruct (decide (err = 0)) as [->|Hne]; [|by apply Hfail].
      destruct (op_is_write (c_op c)) eqn:Hop.
      * apply Hout. intros k Hk ->. apply Ha. left.
        split; [done|]. split; [done|]. eauto.
      * destruct Hrd as [_ ->]; done.
    + intros i Hi. eauto.
    + intros a [[-> [Hop (k & Hk & ->)]]|Ha]; [|by apply Hwr'].
      apply Hmono'. by apply Hin.
    + intros Hlens i Hi. apply Forall_cons in Hlens as [Hlen0 Hlens].
      destruct (Hnew' Hlens i Hi) as [Hi1|Ht].
      2:{ right. by apply Exists_cons_tl. }
      destruct (Hnew i Hi1) as [?|[Hop Hidx]]; [by left|].
      right. apply Exists_cons_hd.
      pose proof (sector_offset_range (c_sector c)) as Ho.
      destruct Hidx as [->|[Hc ->]].
      * exists (byte_addr (c_sector c) 0). split.
        -- split; [done|]. exists 0. split; [lia|done].
        -- apply byte_addr_first; [done|lia].
      * unfold crosses in Hc.
        exists (byte_addr (c_sector c)
                  (PAGE_SIZE - sector_offset (c_sector c))). split.
        -- split; [done|]. eexists. split; [|done]. lia.
        -- apply byte_addr_second; [done|lia].
Qed.

(** ** Properties of histories *)

(** C2. Zero fill: on a device reached by any history of calls since its
    creation, a read of a range no byte of which has been written
    returns [0], puts zeroes in the caller's buffer, and leaves the
    kernel state as it is: the tree, the allocator and the log, so no
    page is allocated and no entry inserted. *)
Theorem brd_read_never_written i capacity m cs errs st pg len off op sector :
  Forall call_ok cs ->
  run_calls cs (brd_new i capacity m) = Ok (errs, st) ->
  op_is_write op = false ->
  0 <= sector < 2 ^ 64 -> 0 <= len <= PAGE_SIZE ->
  0 <= off -> off + len <= Z.of_nat (length (data pg)) ->
  (∀ k, 0 <= k < len -> ¬ written cs errs (byte_addr sector k)) ->
  ∃ d',
    brd_do_bvec pg len off op sector st = Ok ((0, Page (index pg) d'), st)
    ∧ take (Z.to_nat len) (drop (Z.to_nat off) d')
      = replicate (Z.to_nat len) x00.
Proof.
  intros Hcs Hrun Hop Hs Hn Hoff Hlen Hnever.
  destruct (run_calls_inv cs _ (brd_new_ok i capacity m) Hcs)
    as (errs' & st' & E & Hok & Hout & _).
  rewrite Hrun in E. simplify_eq.
  destruct (brd_do_bvec_read st' pg len off op sector)
    as (d' & E' & Hlen' & Hin & _); try done.
  exists d'. split; [done|].
  apply list_eq. intros j.
  destruct (decide (j < Z.to_nat len)%nat) as [Hj|Hj].
  - rewrite lookup_take_lt, lookup_drop by done.
    replace (Z.to_nat off + j)%nat with (Z.to_nat (off + Z.of_nat j))
      by lia.
    rewrite Hin, Hout by (try apply Hnever; lia).
    rewrite lookup_replicate_2 by done. done.
  - rewrite lookup_take_ge by lia.
    symmetry. apply lookup_replicate_None. lia.
Qed.

(** C6, as the code has it. On a device reached by any history of
    non-empty segments: a page that holds a written byte is present; a
    page that is present has a byte in the range of some write of the
    history, which may have failed; and a read leaves the store as it
    is. *)
Theorem brd_pages_of_history i capacity m cs errs st :
  Forall call_ok cs -> Forall (fun c => 0 < c_len c) cs ->
  run_calls cs (brd_new i capacity m) = Ok (errs, st) ->
  (∀ idx, (∃ a, written cs errs a ∧ a / PAGE_SIZE = idx) ->
          is_Some (brd_pages (dev st) !! idx))
  ∧ (∀ idx, is_Some (brd_pages (dev st) !! idx) -> targeted cs idx)
  ∧ (∀ pg len off op sector r st',
       op_is_write op = false ->
       brd_do_bvec pg len off op sector st = Ok (r, st') -> st' = st).
Proof.
  intros Hcs Hlens Hrun.
  destruct (run_calls_inv cs _ (brd_new_ok i capacity m) Hcs)
    as (errs' & st' & E & Hok & _ & _ & Hwr & Hnew).
  rewrite Hrun in E. simplify_eq. split_and!.
  - intros idx (a & Ha & <-). by apply Hwr.
  - intros idx Hidx. destruct (Hnew Hlens idx Hidx) as [He|]; [|done].
    simpl in He. rewrite lookup_empty in He. by destruct He.
  - intros pg len off op sector r st'' Hop E.
    by destruct (brd_do_bvec_read_pure _ _ _ _ _ _ _ _ Hop E).
Qed.

(** ** Requests *)

Lemma u64_range z : 0 <= u64 z < 2 ^ 64.
Proof. unfold u64. apply Z.mod_pos_bound. lia. Qed.

(** A request whose segments all complete. *)
Lemma brd_do_segments_done vecs :
  ∀ op sector st vecs' st',
    brd_do_segments vecs op sector st = Ok ((0, vecs'), st') ->
    segments_done vecs op sector st = length vecs.
Proof.
  induction vecs as [|bvec vecs IH]; intros op sector st vecs' st' E;
    [done|].
  simpl in *. apply bind_inv in E as ([err pg'] & st1 & E1 & E).
  rewrite E1. case_bool_decide as Herr.
  - unfold mret, M_ret in E. by simplify_eq.
  - apply bind_inv in E as ([err2 vecs2] & st2 & E2 & E).
    unfold mret, M_ret in E. simplify_eq.
    by rewrite (IH _ _ _ _ _ E2).
Qed.

(** A request one segment of which fails: the segments before it ran as
    a request of their own would, the failing segment is the next, the
    loop stops there, and the segments after it are not looked at. *)
Lemma brd_do_segments_failed vecs :
  ∀ op sector st err vecs' st',
    brd_do_segments vecs op sector st = Ok ((err, vecs'), st') ->
    err ≠ 0 ->
    let k := segments_done vecs op sector st in
    ∃ bvec pre stk pg',
      vecs !! k = Some bvec
      ∧ brd_do_segments (take k vecs) op sector st = Ok ((0, pre), stk)
      ∧ length pre = k
      ∧ brd_do_bvec (bv_page bvec) (bv_len bvec) (bv_offset bvec) op
          (sector_after (take k vecs) sector) stk
        = Ok ((err, pg'), st')
      ∧ vecs' = pre ++ BioVec pg' (bv_len bvec) (bv_offset bvec)
                       :: drop (S k) vecs.
Proof.
  induction vecs as [|bvec vecs IH]; intros op sector st err vecs' st' E Herr.
  { simpl in E. unfold mret, M_ret in E. by simplify_eq. }
  simpl in *. apply bind_inv in E as ([err1 pg1] & st1 & E1 & E).
  rewrite E1. case_bool_decide as Herr1.
  - unfold mret, M_ret in E. simplify_eq.
    exists bvec, [], st, pg1. simpl. rewrite drop_0. done.
  - apply bind_inv in E as ([err2 vecs2] & st2 & E2 & E).
    unfold mret, M_ret in E. simplify_eq.
    destruct (IH _ _ _ _ _ _ E2 Herr)
      as (b & pre & stk & pg' & Hb & Epre & Hlen & Eb & ->).
    eexists b, _, stk, pg'. simpl.
    rewrite (bind_Ok _ _ _ _ _ E1). simpl.
    rewrite (bind_Ok _ _ _ _ _ Epre). simpl.
    split_and!; try done. simpl. by rewrite Hlen.
Qed.

(** The segments of a request keep the store well formed; a failure is
    [-ENOSPC], of a write. *)
Lemma brd_do_segments_ok vecs :
  ∀ op sector st,
    store_ok st -> 0 <= sector < 2 ^ 64 -> Forall seg_ok vecs ->
    ∃ err vecs' st',
      brd_do_segments vecs op sector st = Ok ((err, vecs'), st')
      ∧ store_ok st'
      ∧ brd_capacity (dev st') = brd_capacity (dev st)
      ∧ (err = 0 ∨ (err = - ENOSPC ∧ op_is_write op = true)).
Proof.
  induction vecs as [|bvec vecs IH]; intros op sector st Hok Hs Hvecs.
  { exists 0, [], st. simpl. split_and!; try done. by left. }
  apply Forall_cons in Hvecs as [(Hn & Hoff & Hlen) Hvecs].
  destruct (brd_do_bvec_step st (bv_page bvec) (bv_len bvec)
              (bv_offset bvec) op sector)
    as (err & pg' & st1 & E & Hok1 & Hcap1 & _ & Herr & Hrd & _);
    try done.
  simpl. rewrite (bind_Ok _ _ _ _ _ E). simpl.
  case_bool_decide as Hne.
  - eexists _, _, _. split; [done|]. split_and!; try done.
    right. destruct Herr as [?|?]; [done|]. split; [done|].
    destruct (op_is_write op); [done|]. by destruct Hrd.
  - destruct (IH op (u64 (sector + Z.shiftr (bv_len bvec) SECTOR_SHIFT))
                st1 Hok1 (u64_range _) Hvecs)
      as (err2 & vecs2 & st2 & E2 & Hok2 & Hcap2 & Herr2).
    rewrite (bind_Ok _ _ _ _ _ E2). simpl.
    eexists _, _, _. split; [done|]. split_and!; try done. congruence.
Qed.

Lemma sector_after_range vecs :
  ∀ sector, 0 <= sector < 2 ^ 64 ->
            0 <= sector_after vecs sector < 2 ^ 64.
Proof.
  induction vecs as [|bvec vecs IH]; intros sector Hs; [done|].
  simpl. apply IH, u64_range.
Qed.

Lemma sector_after_segments vecs :
  ∀ op sector st vecs' st',
    brd_do_segments vecs op sector st = Ok ((0, vecs'), st') ->
    length vecs' = length vecs.
Proof.
  induction vecs as [|bvec vecs IH]; intros op sector st vecs' st' E.
  { simpl in E. unfold mret, M_ret in E. by simplify_eq. }
  simpl in E. apply bind_inv in E as ([err1 pg1] & st1 & E1 & E).
  case_bool_decide.
  - unfold mret, M_ret in E. by simplify_eq.
  - apply bind_inv in E as ([err2 vecs2] & st2 & E2 & E).
    unfold mret, M_ret in E. simplify_eq. simpl.
    by rewrite (IH _ _ _ _ _ E2).
Qed.

(** ** Properties of requests *)

(** When the sector range of a request may wrap, [bio_end_sector] is
    the end of the range as the code computes it. *)
Lemma bio_end_sector_exact b :
  0 <= bi_sector b -> 0 <= bi_size b ->
  bi_sector b + bi_size b / 512 < 2 ^ 64 ->
  bio_end_sector b = bi_sector b + bi_size b / 512.
Proof.
  intros Hs Hz Hlt. unfold bio_end_sector, u64.
  rewrite Z.shiftr_div_pow2 by lia. change (2 ^ 9) with 512.
  apply Z.mod_small. pose proof (Z.div_pos (bi_size b) 512). lia.
Qed.

(** C5. A request whose end sector is beyond the capacity of the device
    is completed with an I/O error at once: no segment is processed,
    the caller's pages are as they were, and the kernel state (the
    tree, the allocator, the log) is unchanged. *)
Theorem brd_submit_bio_beyond_capacity b st :
  bio_end_sector b > brd_capacity (dev st) ->
  brd_submit_bio b st
    = Ok ((BLK_QC_T_NONE,
           Bio (bi_sector b) (bi_size b) (bi_opf b) BLK_STS_IOERR
             (bi_io_vec b)),
          st).
Proof.
  intros Hend. unfold brd_submit_bio, get_capacity.
  unfold mbind at 1, M_bind at 1.
  by rewrite (proj2 (Z.gtb_gt _ _)) by lia.
Qed.

(** C7, as the code has it. When a segment of a request fails, the
    request is completed with an I/O error and nothing more; the
    segments before the failing one have run as a request of their own
    would; the failing one, a write out of memory, has left every byte
    of the device as those segments left it; and the segments after it
    are untouched. *)
Theorem brd_submit_bio_segment_fails b st :
  store_ok st -> 0 <= bi_sector b < 2 ^ 64 -> Forall seg_ok (bi_io_vec b) ->
  bio_end_sector b <= brd_capacity (dev st) ->
  let vecs := bi_io_vec b in
  let k := segments_done vecs (bio_op b) (bi_sector b) st in
  (k < length vecs)%nat ->
  ∃ bvec pre stk st',
    brd_submit_bio b st
      = Ok ((BLK_QC_T_NONE,
             Bio (bi_sector b) (bi_size b) (bi_opf b) BLK_STS_IOERR
               (pre ++ drop k vecs)),
            st')
    ∧ vecs !! k = Some bvec
    ∧ brd_do_segments (take k vecs) (bio_op b) (bi_sector b) st
      = Ok ((0, pre), stk)
    ∧ length pre = k
    ∧ brd_do_bvec (bv_page bvec) (bv_len bvec) (bv_offset bvec) (bio_op b)
        (sector_after (take k vecs) (bi_sector b)) stk
      = Ok ((- ENOSPC, bv_page bvec), st')
    ∧ ∀ a, dev_byte (brd_pages (dev st')) a
           = dev_byte (brd_pages (dev stk)) a.
Proof.
  intros Hok Hs Hvecs Hcap vecs k Hk.
  destruct (brd_do_segments_ok vecs (bio_op b) (bi_sector b) st Hok Hs
              Hvecs)
    as (err & vecs' & st' & E & _ & _ & Herr).
  assert (Hne : err ≠ 0).
  { intros ->. pose proof (brd_do_segments_done _ _ _ _ _ _ E).
    unfold k in Hk. lia. }
  destruct (brd_do_segments_failed vecs _ _ _ _ _ _ E Hne)
    as (bvec & pre & stk & pg' & Hb & Epre & Hlen & Eb & ->).
  fold k in Hb, Epre, Hlen, Eb.
  destruct (brd_do_segments_ok (take k vecs) (bio_op b) (bi_sector b) st
              Hok Hs (Forall_take _ _ _ Hvecs))
    as (err0 & pre0 & stk0 & Epre0 & Hokk & _ & _).
  rewrite Epre in Epre0. injection Epre0 as <- <- <-.
  pose proof (Forall_lookup_1 _ _ _ _ Hvecs Hb) as (Hn & Hoff & Hlenb).
  destruct (brd_do_bvec_step stk (bv_page bvec) (bv_len bvec)
              (bv_offset bvec) (bio_op b)
              (sector_after (take k vecs) (bi_sector b)))
    as (err1 & pg1 & st1 & E1 & _ & _ & _ & _ & _ & Hwr & Hfail & _);
    try done; [by apply sector_after_range|].
  rewrite Eb in E1. injection E1 as <- <- <-.
  destruct Herr as [?|[-> Hop]]; [done|].
  rewrite (Hwr Hop) in *.
  exists bvec, pre, stk, st'.
  split_and!; try done; [|by apply Hfail].
  unfold brd_submit_bio, get_capacity.
  unfold mbind at 1, M_bind at 1.
  rewrite Z.gtb_ltb, (proj2 (Z.ltb_ge _ _)) by lia.
  fold vecs. rewrite (bind_Ok _ _ _ _ _ E). simpl.
  rewrite (drop_S _ _ _ Hb). by destruct bvec.
Qed.

(** ** The bulk free *)

Lemma indices_from_spec (root : gmap Z page) pos i :
  i ∈ indices_from root pos ↔ pos <= i ∧ is_Some (root !! i).
Proof.
  unfold indices_from. rewrite merge_sort_Permutation.
  rewrite list_elem_of_filter, elem_of_elements, elem_of_dom. done.
Qed.

Lemma indices_from_sorted (root : gmap Z page) pos :
  StronglySorted Z.le (indices_from root pos).
Proof. apply StronglySorted_merge_sort; apply _. Qed.

Lemma indices_from_NoDup (root : gmap Z page) pos :
  NoDup (indices_from root pos).
Proof.
  unfold indices_from. rewrite merge_sort_Permutation.
  apply NoDup_filter, NoDup_elements.
Qed.

Lemma omap_lookup_index (root : gmap Z page) ks :
  tree_ok root -> Forall (fun i => is_Some (root !! i)) ks ->
  index <$> omap (fun i => root !! i) ks = ks
  ∧ Forall (fun p => root !! index p = Some p)
      (omap (fun i => root !! i) ks).
Proof.
  intros Hok. induction 1 as [|i ks [p Hp] _ [IH1 IH2]]; [done|].
  unfold omap in *. simpl. rewrite Hp. destruct (Hok _ _ Hp) as [Hi _].
  split; [by rewrite fmap_cons, IH1, Hi|].
  constructor; [by rewrite Hi|done].
Qed.

Lemma gang_lookup_spec (root : gmap Z page) pos n :
  tree_ok root ->
  index <$> radix_tree_gang_lookup root pos n
    = take (Z.to_nat n) (indices_from root pos)
  ∧ Forall (fun p => root !! index p = Some p)
      (radix_tree_gang_lookup root pos n).
Proof.
  intros Hok. unfold radix_tree_gang_lookup.
  destruct (omap_lookup_index root (indices_from root pos) Hok) as [H1 H2].
  { apply Forall_forall. intros i Hi. by apply indices_from_spec in Hi as [_ ?]. }
  split.
  - by rewrite fmap_take, H1.
  - by apply Forall_take.
Qed.

Lemma last_cons_default (x d : Z) l :
  default d (last (x :: l)) = default x (last l).
Proof.
  destruct l as [|y l]; [done|].
  change (last (x :: y :: l)) with (last (y :: l)).
  destruct (last (y :: l)) eqn:E; [done|]. by apply last_None in E.
Qed.

Lemma brd_free_batch_spec ps :
  ∀ st pos,
    StronglySorted Z.le (pos :: (index <$> ps)) ->
    NoDup (index <$> ps) ->
    Forall (fun p => brd_pages (dev st) !! index p = Some p) ps ->
    brd_free_batch ps pos st
      = Ok (default pos (last (index <$> ps)),
            KState (BrdDevice (brd_number (dev st)) (brd_capacity (dev st))
                      (foldr delete (brd_pages (dev st)) (index <$> ps)))
                   (mem st) (klog st ++ (EvFreePage <$> ps))).
Proof.
  induction ps as [|p ps IH]; intros st pos Hsort Hnd Hps.
  { simpl. rewrite app_nil_r. by destruct st as [[] ? ?]. }
  apply StronglySorted_cons in Hsort as [Hpos Hsort].
  apply Forall_cons in Hpos as [Hpos _].
  apply NoDup_cons in Hnd as [Hp Hnd].
  apply Forall_cons in Hps as [Hlp Hps].
  simpl. unfold radix_tree_delete. munfold.
  rewrite (proj2 (Z.ltb_ge _ _)) by done.
  rewrite Hlp. rewrite bool_decide_false by (by intros ?).
  rewrite IH; simpl; try done.
  - rewrite last_cons_default, <- delete_foldr_delete, <- app_assoc. done.
  - apply Forall_forall. intros q Hq.
    rewrite lookup_delete_ne.
    + by apply (proj1 (Forall_forall _ _) Hps).
    + intros Heq. apply Hp. rewrite Heq. by apply list_elem_of_fmap_2.
Qed.

Lemma map_to_list_foldr_delete ps :
  ∀ root : gmap Z page,
    NoDup (index <$> ps) ->
    Forall (fun p => root !! index p = Some p) ps ->
    (map_to_list root).*2
      ≡ₚ ps ++ (map_to_list (foldr delete root (index <$> ps))).*2.
Proof.
  induction ps as [|p ps IH]; intros root Hnd Hps; [done|].
  apply NoDup_cons in Hnd as [Hp Hnd].
  apply Forall_cons in Hps as [Hlp Hps].
  rewrite (IH root Hnd Hps). simpl.
  rewrite <- (map_to_list_delete (foldr delete root (index <$> ps))
                (index p) p).
  - simpl. by rewrite Permutation_middle.
  - by rewrite lookup_foldr_delete_not_elem_of.
Qed.

Lemma freed_batch ps l :
  freed ((EvFreePage <$> ps) ++ EvResched :: l) = ps ++ freed l.
Proof.
  unfold freed. rewrite omap_app. f_equal.
  induction ps as [|p ps IH]; [done|].
  rewrite fmap_cons. unfold omap in *. simpl. by rewrite IH.
Qed.

Lemma foldr_delete_tree_ok (root : gmap Z page) ks :
  tree_ok root -> tree_ok (foldr delete root ks).
Proof.
  intros Hok i p Hp. apply lookup_foldr_delete_Some in Hp as [_ Hp].
  by apply Hok.
Qed.

Lemma brd_free_pages_from_spec fuel :
  ∀ st pos,
    tree_ok (brd_pages (dev st)) ->
    (∀ i, is_Some (brd_pages (dev st) !! i) -> pos <= i) ->
    (size (brd_pages (dev st)) < fuel)%nat ->
    ∃ st' l,
      brd_free_pages_from fuel pos st = Ok (true, st')
      ∧ brd_pages (dev st') = ∅
      ∧ brd_number (dev st') = brd_number (dev st)
      ∧ brd_capacity (dev st') = brd_capacity (dev st)
      ∧ mem st' = mem st
      ∧ klog st' = klog st ++ l
      ∧ batched l
      ∧ freed l ≡ₚ (map_to_list (brd_pages (dev st))).*2.
Proof.
  induction fuel as [|fuel IH]; intros st pos Hok Hinv Hfuel; [lia|].
  set (root := brd_pages (dev st)) in *.
  set (L := indices_from root pos).
  set (ps := radix_tree_gang_lookup root pos FREE_BATCH).
  destruct (gang_lookup_spec root pos FREE_BATCH Hok) as [Hidx Hlk].
  fold ps L in Hidx, Hlk. change (Z.to_nat FREE_BATCH) with 16%nat in Hidx.
  pose proof (indices_from_sorted root pos) as Hsort.
  pose proof (indices_from_NoDup root pos) as Hnd.
  fold L in Hsort, Hnd. rewrite <- (take_drop 16 L) in Hsort, Hnd.
  apply StronglySorted_app in Hsort as (Hlt & Hsort1 & _).
  apply NoDup_app in Hnd as (Hnd1 & Hdisj & _).
  assert (Hbatch : StronglySorted Z.le (pos :: (index <$> ps))).
  { rewrite Hidx. apply StronglySorted_cons. split; [|done].
    apply Forall_forall. intros i Hi. apply subseteq_take in Hi.
    by apply indices_from_spec in Hi as [? _]. }
  assert (Hperm : (map_to_list root).*2
                  ≡ₚ ps ++ (map_to_list
                              (foldr delete root (index <$> ps))).*2).
  { apply map_to_list_foldr_delete; [by rewrite Hidx|done]. }
  assert (Hsize : size root
                  = (length ps
                     + size (foldr delete root (index <$> ps)))%nat).
  { rewrite <- !length_map_to_list.
    rewrite <- (length_fmap snd (map_to_list root)), Hperm.
    by rewrite length_app, length_fmap. }
  assert (Hlenps : length ps = length (take 16 L)).
  { by rewrite <- Hidx, length_fmap. }
  simpl. fold root ps.
  rewrite (bind_Ok _ _ _ _ _ (eq_refl : get_pages st = Ok (root, st))).
  rewrite (bind_Ok _ _ _ _ _
             (brd_free_batch_spec ps st pos Hbatch
                ltac:(by rewrite Hidx) Hlk)).
  unfold cond_resched.
  unfold mbind at 1, M_bind at 1, emit at 1. simpl. fold root. fold ps.
  destruct (Z.eqb_spec (Z.of_nat (length ps)) FREE_BATCH) as [Hfull|Hpart].
  - unfold FREE_BATCH in Hfull.
    destruct (last (take 16 L)) as [x|] eqn:Hlast.
    2:{ apply last_None in Hlast. rewrite Hlast in Hlenps. simpl in *. lia. }
    rewrite Hidx, Hlast. simpl.
    assert (Hx : x ∈ take 16 L) by (by eapply last_Some_elem_of).
    assert (Hrest : ∀ i, is_Some (foldr delete root (take 16 L) !! i) ->
                         x < i < 2 ^ 64).
    { intros i [p Hp]. apply lookup_foldr_delete_Some in Hp as [Hni Hp].
      assert (Hi : i ∈ L).
      { apply indices_from_spec. split; [apply Hinv|]; by eexists. }
      rewrite <- (take_drop 16 L) in Hi.
      apply elem_of_app in Hi as [?|Hi]; [done|].
      pose proof (Hlt x i Hx Hi). destruct (Hok _ _ Hp) as [_ ?].
      assert (x ≠ i) by (intros ->; done). lia. }
    destruct (IH (KState
                    (BrdDevice (brd_number (dev st)) (brd_capacity (dev st))
                       (foldr delete root (take 16 L)))
                    (mem st) ((klog st ++ (EvFreePage <$> ps)) ++ [EvResched]))
                (u64 (x + 1)))
      as (st' & l & E & Hempty & Hnr & Hcap & Hmem & Hlog & Hb & Hfreed).
    + by apply foldr_delete_tree_ok.
    + simpl. intros i Hi. destruct (Hrest i Hi).
      assert (0 <= x).
      { apply subseteq_take, indices_from_spec in Hx as [_ [p Hp]].
        by destruct (Hok _ _ Hp) as [_ [? _]]. }
      unfold u64. rewrite Z.mod_small; lia.
    + simpl. rewrite Hidx in Hsize. lia.
    + exists st', ((EvFreePage <$> ps) ++ EvResched :: l).
      rewrite E. simpl in *. split_and!; try done.
      * rewrite Hlog, <- !app_assoc. done.
      * apply batched_cons; [unfold FREE_BATCH; lia|done].
      * rewrite freed_batch, Hfreed, Hperm, Hidx. done.
  - assert (Hall : take 16 L = L).
    { apply take_ge. rewrite length_take in Hlenps.
      unfold FREE_BATCH in Hpart. lia. }
    assert (Hempty : foldr delete root (index <$> ps) = ∅).
    { apply map_empty. intros i. rewrite Hidx, Hall.
      destruct (foldr delete root L !! i) as [p|] eqn:Hp; [|done].
      apply lookup_foldr_delete_Some in Hp as [Hni Hp].
      exfalso. apply Hni, indices_from_spec.
      split; [apply Hinv|]; by eexists. }
    eexists _, ((EvFreePage <$> ps) ++ EvResched :: []).
    split; [done|]. simpl. split_and!; try done.
    + by rewrite <- app_assoc.
    + apply batched_cons; [|constructor].
      rewrite Hlenps, length_take. unfold FREE_BATCH. lia.
    + rewrite freed_batch, Hperm, Hempty, map_to_list_empty. done.
Qed.

(** C8. [brd_free_pages] returns, by the loop's own test within the
    rounds allotted, with an empty tree; what it logs is a sequence of
    batches of at most [FREE_BATCH] pages given back, each followed by
    a yield; and the pages given back are the pages of the tree, each
    once. *)
Theorem brd_free_pages_all st :
  tree_ok (brd_pages (dev st)) ->
  ∃ st' l,
    brd_free_pages st = Ok (tt, st')
    ∧ brd_free_pages_from (S (size (brd_pages (dev st)))) 0 st
      = Ok (true, st')
    ∧ brd_pages (dev st') = ∅
    ∧ klog st' = klog st ++ l
    ∧ batched l
    ∧ freed l ≡ₚ (map_to_list (brd_pages (dev st))).*2.
Proof.
  intros Hok.
  destruct (brd_free_pages_from_spec (S (size (brd_pages (dev st)))) st 0)
    as (st' & l & E & Hempty & _ & _ & _ & Hlog & Hb & Hfreed);
    [done| |lia|].
  { intros i [p Hp]. by destruct (Hok _ _ Hp) as [_ [? _]]. }
  exists st', l. split_and!; try done.
  unfold brd_free_pages.
  rewrite (bind_Ok _ _ _ _ _
             (eq_refl : get_pages st = Ok (brd_pages (dev st), st))).
  by rewrite (bind_Ok _ _ _ _ _ E).
Qed.

(** ** The rounds of the bulk free *)

Lemma yields_batch ps l :
  yields ((EvFreePage <$> ps) ++ EvResched :: l) = S (yields l).
Proof.
  unfold yields. rewrite omap_app, length_app.
  assert (omap (fun e => match e with
                         | EvResched => Some tt
                         | EvFreePage _ => None
                         end) (EvFreePage <$> ps) = []) as ->.
  { induction ps as [|p ps IH]; [done|].
    rewrite fmap_cons. unfold omap in *. simpl. by rewrite IH. }
  done.
Qed.

Ltac fold_div16 :=
  repeat match goal with
         | |- context [fst (Nat.divmod ?a 15 0 15)] =>
           change (fst (Nat.divmod a 15 0 15)) with (a / 16)%nat
         end.

Lemma brd_free_pages_from_rounds fuel :
  ∀ st pos,
    tree_ok (brd_pages (dev st)) ->
    (∀ i, is_Some (brd_pages (dev st) !! i) -> pos <= i) ->
    (size (brd_pages (dev st)) < fuel)%nat ->
    ∃ st' l,
      brd_free_pages_from fuel pos st = Ok (true, st')
      ∧ dev st' = BrdDevice (brd_number (dev st)) (brd_capacity (dev st)) ∅
      ∧ mem st' = mem st
      ∧ klog st' = klog st ++ l
      ∧ index <$> freed l = indices_from (brd_pages (dev st)) pos
      ∧ yields l = S (size (brd_pages (dev st)) / 16).
Proof.
  induction fuel as [|fuel IH]; intros st pos Hok Hinv Hfuel; [lia|].
  set (root := brd_pages (dev st)) in *.
  set (L := indices_from root pos).
  set (ps := radix_tree_gang_lookup root pos FREE_BATCH).
  destruct (gang_lookup_spec root pos FREE_BATCH Hok) as [Hidx Hlk].
  fold ps L in Hidx, Hlk. change (Z.to_nat FREE_BATCH) with 16%nat in Hidx.
  pose proof (indices_from_sorted root pos) as Hsort.
  pose proof (indices_from_NoDup root pos) as Hnd.
  fold L in Hsort, Hnd. rewrite <- (take_drop 16 L) in Hsort, Hnd.
  apply StronglySorted_app in Hsort as (Hlt & Hsort1 & Hsort2).
  apply NoDup_app in Hnd as (Hnd1 & Hdisj & Hnd2).
  assert (Hbatch : StronglySorted Z.le (pos :: (index <$> ps))).
  { rewrite Hidx. apply StronglySorted_cons. split; [|done].
    apply Forall_forall. intros i Hi. apply subseteq_take in Hi.
    by apply indices_from_spec in Hi as [? _]. }
  assert (Hperm : (map_to_list root).*2
                  ≡ₚ ps ++ (map_to_list
                              (foldr delete root (index <$> ps))).*2).
  { apply map_to_list_foldr_delete; [by rewrite Hidx|done]. }
  assert (Hsize : size root
                  = (length ps
                     + size (foldr delete root (index <$> ps)))%nat).
  { rewrite <- !length_map_to_list.
    rewrite <- (length_fmap snd (map_to_list root)), Hperm.
    by rewrite length_app, length_fmap. }
  assert (Hlenps : length ps = length (take 16 L)).
  { by rewrite <- Hidx, length_fmap. }
  simpl. fold root ps.
  rewrite (bind_Ok _ _ _ _ _ (eq_refl : get_pages st = Ok (root, st))).
  rewrite (bind_Ok _ _ _ _ _
             (brd_free_batch_spec ps st pos Hbatch
                ltac:(by rewrite Hidx) Hlk)).
  unfold cond_resched.
  unfold mbind at 1, M_bind at 1, emit at 1. simpl. fold root. fold ps.
  destruct (Z.eqb_spec (Z.of_nat (length ps)) FREE_BATCH) as [Hfull|Hpart].
  - unfold FREE_BATCH in Hfull.
    destruct (last (take 16 L)) as [x|] eqn:Hlast.
    2:{ apply last_None in Hlast. rewrite Hlast in Hlenps. simpl in *. lia. }
    rewrite Hidx, Hlast. simpl.
    assert (Hx : x ∈ take 16 L) by (by eapply last_Some_elem_of).
    assert (Hx0 : 0 <= x).
    { apply subseteq_take, indices_from_spec in Hx as [_ [p Hp]].
      by destruct (Hok _ _ Hp) as [_ [? _]]. }
    assert (Hrest : ∀ i, is_Some (foldr delete root (take 16 L) !! i) ->
                         i ∈ drop 16 L ∧ x < i < 2 ^ 64).
    { intros i [p Hp]. apply lookup_foldr_delete_Some in Hp as [Hni Hp].
      assert (Hi : i ∈ L).
      { apply indices_from_spec. split; [apply Hinv|]; by eexists. }
      rewrite <- (take_drop 16 L) in Hi.
      apply elem_of_app in Hi as [?|Hi]; [done|]. split; [done|].
      pose proof (Hlt x i Hx Hi). destruct (Hok _ _ Hp) as [_ ?].
      assert (x ≠ i) by (intros ->; done). lia. }
    set (st1 := KState
                  (BrdDevice (brd_number (dev st)) (brd_capacity (dev st))
                     (foldr delete root (take 16 L)))
                  (mem st) ((klog st ++ (EvFreePage <$> ps)) ++ [EvResched])).
    assert (Hnext : indices_from (brd_pages (dev st1)) (u64 (x + 1))
                    = drop 16 L).
    { apply (StronglySorted_unique Z.le);
        [apply indices_from_sorted|done|].
      apply NoDup_Permutation; [apply indices_from_NoDup|done|].
      intros i. rewrite indices_from_spec. simpl. split.
      - intros [_ Hi]. by destruct (Hrest i Hi).
      - intros Hi.
        assert (HiL : i ∈ L).
        { rewrite <- (take_drop 16 L). apply elem_of_app. by right. }
        apply indices_from_spec in HiL as [Hpi [p Hp]].
        assert (Hsome : is_Some (foldr delete root (take 16 L) !! i)).
        { exists p. apply lookup_foldr_delete_Some. split; [|done].
          intros Hin. by apply (Hdisj i). }
        split; [|done]. destruct (Hrest i Hsome) as [_ ?].
        unfold u64. rewrite Z.mod_small; lia. }
    destruct (IH st1 (u64 (x + 1)))
      as (st' & l & E & Hdev & Hmem & Hlog & Hord & Hy).
    + by apply foldr_delete_tree_ok.
    + simpl. intros i Hi. destruct (Hrest i Hi) as [_ ?].
      unfold u64. rewrite Z.mod_small; lia.
    + simpl. rewrite Hidx in Hsize. lia.
    + exists st', ((EvFreePage <$> ps) ++ EvResched :: l).
      fold st1. rewrite E. simpl in *. split_and!; try done.
      * rewrite Hlog, <- !app_assoc. done.
      * rewrite freed_batch, fmap_app, Hidx, Hord, Hnext.
        apply take_drop.
      * rewrite yields_batch, Hy. f_equal. fold_div16. rewrite Hsize, Hidx.
        replace (length ps) with (1 * 16)%nat by lia.
        by rewrite Nat.div_add_l by lia.
  - assert (Hall : take 16 L = L).
    { apply take_ge. rewrite length_take in Hlenps.
      unfold FREE_BATCH in Hpart. lia. }
    assert (Hempty : foldr delete root (index <$> ps) = ∅).
    { apply map_empty. intros i. rewrite Hidx, Hall.
      destruct (foldr delete root L !! i) as [p|] eqn:Hp; [|done].
      apply lookup_foldr_delete_Some in Hp as [Hni Hp].
      exfalso. apply Hni, indices_from_spec.
      split; [apply Hinv|]; by eexists. }
    eexists _, ((EvFreePage <$> ps) ++ EvResched :: []).
    split; [done|]. simpl. split_and!; try done.
    + by rewrite Hempty.
    + by rewrite <- app_assoc.
    + by rewrite freed_batch, app_nil_r, Hidx.
    + rewrite yields_batch. f_equal. fold_div16.
      rewrite Hempty, map_size_empty in Hsize.
      rewrite Nat.div_small; [done|].
      rewrite length_take in Hlenps. unfold FREE_BATCH in Hpart. lia.
Qed.

Lemma sorted_le_NoDup (l : list Z) :
  StronglySorted Z.le l -> NoDup l -> StronglySorted Z.lt l.
Proof.
  induction 1 as [|i k Hs IH Hi]; intros Hn; [constructor|].
  apply NoDup_cons in Hn as [Hni Hn]. constructor; [by apply IH|].
  rewrite Forall_forall in *. intros j Hj.
  specialize (Hi j Hj). assert (i ≠ j) by (by intros ->). lia.
Qed.

(** X20. The rounds of [brd_free_pages]: it gives the pages back in
    the order of their indices, lowest first, and yields once more than
    there are full batches of 16 pages in the tree; a second call gives
    nothing back and yields once. *)
Theorem brd_free_pages_rounds st :
  tree_ok (brd_pages (dev st)) ->
  ∃ st' l,
    brd_free_pages st = Ok (tt, st')
    ∧ klog st' = klog st ++ l
    ∧ index <$> freed l = indices_from (brd_pages (dev st)) 0
    ∧ StronglySorted Z.lt (index <$> freed l)
    ∧ yields l = S (size (brd_pages (dev st)) / 16)
    ∧ brd_free_pages st'
      = Ok (tt, KState (dev st') (mem st') (klog st' ++ [EvResched])).
Proof.
  intros Hok.
  destruct (brd_free_pages_from_rounds (S (size (brd_pages (dev st)))) st 0)
    as (st' & l & E & Hdev & Hmem & Hlog & Hord & Hy); [done| |lia|].
  { intros i [p Hp]. by destruct (Hok _ _ Hp) as [_ [? _]]. }
  exists st', l. split.
  { unfold brd_free_pages.
    rewrite (bind_Ok _ _ _ _ _
               (eq_refl : get_pages st = Ok (brd_pages (dev st), st))).
    by rewrite (bind_Ok _ _ _ _ _ E). }
  split; [done|]. split; [done|]. split.
  { rewrite Hord.
    apply sorted_le_NoDup; [apply indices_from_sorted|].
    apply indices_from_NoDup. }
  split; [done|].
  destruct st' as [d' m' l']. simpl in Hdev. subst d'.
  vm_compute. reflexivity.
Qed.


(** ** Further properties of the page store and of one segment *)

(** X1. Insert, then look up: once [brd_insert_page] has returned a page
    for a sector, [brd_lookup_page] of every sector of the same page
    returns that page, a second [brd_insert_page] returns it too without
    asking for memory, and the lookup of a sector of another page gives
    what it gave before. *)
Theorem brd_insert_page_lookup st sector p st' :
  tree_ok (brd_pages (dev st)) -> 0 <= sector < 2 ^ 64 ->
  brd_insert_page sector st = Ok (Some p, st') ->
  (∀ s, Z.shiftr s PAGE_SECTORS_SHIFT = Z.shiftr sector PAGE_SECTORS_SHIFT ->
        brd_lookup_page s st' = Ok (Some p, st')
        ∧ brd_insert_page s st' = Ok (Some p, st'))
  ∧ (∀ s, Z.shiftr s PAGE_SECTORS_SHIFT ≠ Z.shiftr sector PAGE_SECTORS_SHIFT ->
          ∃ r, brd_lookup_page s st = Ok (r, st)
               ∧ brd_lookup_page s st' = Ok (r, st')).
Proof.
  intros Hok Hs E.
  destruct (brd_insert_page_cases st sector Hok)
    as (r & st1 & E1 & _ & _ & Hr).
  rewrite E in E1. injection E1 as <- <-. destruct Hr as [Hst' Hp].
  assert (Hok' : tree_ok (brd_pages (dev st'))).
  { rewrite Hst'. apply with_page_tree_ok; [done|by apply idx_u64]. }
  split.
  - intros s Hsame. rewrite !sector_index_div in Hsame.
    split.
    + by rewrite brd_lookup_page_spec, Hsame, Hp.
    + apply brd_insert_page_found; [done|by rewrite Hsame].
  - intros s Hother. rewrite !sector_index_div in Hother.
    exists (brd_pages (dev st) !! (s / PAGE_SECTORS)).
    split; [by apply brd_lookup_page_spec|].
    rewrite brd_lookup_page_spec by done. f_equal. f_equal.
    rewrite Hst'. unfold with_page.
    destruct (brd_pages (dev st) !! (sector / PAGE_SECTORS)); [done|].
    by rewrite lookup_insert_ne.
Qed.

Lemma byte_addr_index_first sector :
  0 <= sector < 2 ^ 64 ->
  byte_addr sector 0 / PAGE_SIZE = sector / PAGE_SECTORS.
Proof.
  intros Hs. pose proof (sector_offset_range sector).
  apply byte_addr_first; [done|lia].
Qed.

Lemma byte_addr_index_second sector :
  0 <= sector < 2 ^ 64 ->
  byte_addr sector (PAGE_SIZE - sector_offset sector) / PAGE_SIZE
    = next_page_sector sector / PAGE_SECTORS.
Proof.
  intros Hs. pose proof (sector_offset_range sector).
  pose proof PAGE_SIZE_bounds.
  apply byte_addr_second; [done|lia].
Qed.

(** X2. Overwriting never fails: a write of at least one byte whose range
    lies in pages that exist returns [0] whatever the allocator would
    answer, asks for no memory, gives nothing back and adds no page. *)
Theorem brd_do_bvec_overwrite st pg len off op sector :
  store_ok st -> op_is_write op = true ->
  0 <= sector < 2 ^ 64 -> 0 < len <= PAGE_SIZE ->
  0 <= off -> off + len <= Z.of_nat (length (data pg)) ->
  (∀ k, 0 <= k < len ->
        is_Some (brd_pages (dev st) !! (byte_addr sector k / PAGE_SIZE))) ->
  ∃ st',
    brd_do_bvec pg len off op sector st = Ok ((0, pg), st')
    ∧ mem st' = mem st ∧ klog st' = klog st
    ∧ (∀ i, is_Some (brd_pages (dev st') !! i)
            ↔ is_Some (brd_pages (dev st) !! i)).
Proof.
  intros [Hok Hpg] Hop Hs Hn Hoff Hlen Hpresent.
  destruct (Hpresent 0 ltac:(lia)) as [p1 Hp1].
  rewrite byte_addr_index_first in Hp1 by done.
  assert (Hp2 : crosses sector len ->
                is_Some (brd_pages (dev st)
                           !! (next_page_sector sector / PAGE_SECTORS))).
  { unfold crosses. intros Hc. pose proof (sector_offset_range sector).
    rewrite <- byte_addr_index_second by done. apply Hpresent. lia. }
  assert (Eset : copy_to_brd_setup sector len st = Ok (0, st)).
  { unfold copy_to_brd_setup. rewrite first_chunk_u64.
    rewrite (bind_Ok _ _ _ _ _ (brd_insert_page_found st sector p1 Hok Hp1)).
    simpl.
    destruct (Z.ltb_spec (Z.min len (PAGE_SIZE - sector_offset sector)) len)
      as [Hlt|Hge]; [|done].
    rewrite Z.min_r in * by lia. fold (next_page_sector sector).
    destruct Hp2 as [p2 Hp2]; [unfold crosses; lia|].
    by rewrite (bind_Ok _ _ _ _ _
                  (brd_insert_page_found st _ p2 Hok Hp2)). }
  unfold brd_do_bvec. rewrite Hop, (bind_Ok _ _ _ _ _ Eset). simpl.
  rewrite (bind_Ok _ _ _ _ _
             (copy_to_brd_spec st (data pg) off sector len Hok Hs
                ltac:(lia) (ex_intro _ p1 Hp1) Hp2)).
  eexists. split; [done|]. simpl. split_and!; try done.
  intros i. destruct (_ <=? _); by rewrite ?put_bytes_lookup.
Qed.

(** X3. A write leaves the rest of the device alone: whether it returns
    [0] or fails, a read of a range that shares no byte address with the
    range of the write returns after the write what it returned before. *)
Theorem brd_do_bvec_write_frame st pg len off wop sector rpg rlen roff rop
    rsector :
  store_ok st ->
  op_is_write wop = true -> op_is_write rop = false ->
  0 <= sector < 2 ^ 64 -> 0 <= len <= PAGE_SIZE ->
  0 <= off -> off + len <= Z.of_nat (length (data pg)) ->
  0 <= rsector < 2 ^ 64 -> 0 <= rlen <= PAGE_SIZE ->
  0 <= roff -> roff + rlen <= Z.of_nat (length (data rpg)) ->
  (∀ k k', 0 <= k < len -> 0 <= k' < rlen ->
           byte_addr sector k ≠ byte_addr rsector k') ->
  ∃ err st1 rpg',
    brd_do_bvec pg len off wop sector st = Ok ((err, pg), st1)
    ∧ brd_do_bvec rpg rlen roff rop rsector st = Ok ((0, rpg'), st)
    ∧ brd_do_bvec rpg rlen roff rop rsector st1 = Ok ((0, rpg'), st1).
Proof.
  intros Hok Hw Hr Hs Hn Hoff Hlen Hrs Hrn Hroff Hrlen Hdisj.
  destruct (brd_do_bvec_step st pg len off wop sector)
    as (err & pg' & st1 & E & Hok1 & _ & _ & _ & _ & Hpg & _ & Hout & _);
    try done.
  rewrite (Hpg Hw) in E.
  destruct (brd_do_bvec_read st rpg rlen roff rop rsector)
    as (d & Ed & Hdl & Hdin & Hdout); try done.
  destruct (brd_do_bvec_read st1 rpg rlen roff rop rsector)
    as (d1 & Ed1 & Hd1l & Hd1in & Hd1out); try done.
  exists err, st1, (Page (index rpg) d). split_and!; try done.
  rewrite Ed1. cut (d1 = d); [by intros ->|].
  apply list_eq. intros i.
  rewrite <- (Nat2Z.id i).
  destruct (decide (roff <= Z.of_nat i < roff + rlen)) as [Hi|Hi].
  - replace (Z.of_nat i) with (roff + (Z.of_nat i - roff)) by lia.
    rewrite Hdin, Hd1in by lia. f_equal.
    apply Hout. intros k Hk Heq. apply (Hdisj k (Z.of_nat i - roff)); [done|lia|done].
  - rewrite Hdout, Hd1out by lia. done.
Qed.

Lemma covered_Some sector len a k :
  0 <= a < 2 ^ 73 -> 0 <= len <= 2 ^ 73 ->
  covered sector len a = Some k ->
  0 <= k < len ∧ a = byte_addr sector k.
Proof.
  intros Ha Hlen. unfold covered, byte_addr.
  pose proof (Z.mod_pos_bound (a - sector * SECTOR_SIZE) (2 ^ 73)
                ltac:(lia)) as Hk.
  destruct (Z.ltb_spec ((a - sector * SECTOR_SIZE) mod 2 ^ 73) len);
    [|done].
  intros [= <-]. split; [lia|].
  rewrite Zplus_mod_idemp_r.
  replace (sector * SECTOR_SIZE + (a - sector * SECTOR_SIZE)) with a by lia.
  symmetry. apply Z.mod_small. lia.
Qed.

Lemma covered_None sector len a :
  0 <= len <= 2 ^ 73 ->
  covered sector len a = None ->
  ∀ k, 0 <= k < len -> a ≠ byte_addr sector k.
Proof.
  intros Hlen. unfold covered, byte_addr.
  destruct (Z.ltb_spec ((a - sector * SECTOR_SIZE) mod 2 ^ 73) len)
    as [|Hge]; [done|].
  intros _ k Hk ->.
  rewrite Zminus_mod_idemp_l in Hge.
  replace (sector * SECTOR_SIZE + k - sector * SECTOR_SIZE) with k in Hge
    by lia.
  rewrite Z.mod_small in Hge by lia. lia.
Qed.

Lemma replay_ext cs :
  ∀ errs f g a, f a = g a -> replay cs errs f a = replay cs errs g a.
Proof.
  induction cs as [|c cs IH]; intros [|err errs] f g a Hfg; simpl; try done.
  apply IH. by rewrite Hfg.
Qed.

Lemma PAGE_SIZE_addr : PAGE_SIZE <= 2 ^ 73.
Proof.
  pose proof PAGE_SIZE_bounds.
  assert (2 ^ 32 <= 2 ^ 73) by (apply Z.pow_le_mono_r; lia). lia.
Qed.

Lemma run_calls_replay cs :
  ∀ st errs st',
    store_ok st -> Forall call_ok cs ->
    run_calls cs st = Ok (errs, st') ->
    ∀ a, 0 <= a < 2 ^ 73 ->
         dev_byte (brd_pages (dev st')) a
         = replay cs errs (dev_byte (brd_pages (dev st))) a.
Proof.
  induction cs as [|c cs IH]; intros st errs st' Hok Hcs E a Ha.
  { simpl in E. unfold mret, M_ret in E. by simplify_eq. }
  apply Forall_cons in Hcs as [(Hs & Hn & Hoff & Hlen) Hcs].
  destruct (brd_do_bvec_step st (c_page c) (c_len c) (c_off c) (c_op c)
              (c_sector c))
    as (err & pg' & st1 & E1 & Hok1 & _ & _ & _ & Hrd & _ & Hfail & Hout
        & Hin & _); try done.
  simpl in E. rewrite (bind_Ok _ _ _ _ _ E1) in E. simpl in E.
  apply bind_inv in E as (errs1 & st2 & E2 & E).
  unfold mret, M_ret in E. simplify_eq. simpl.
  rewrite (IH _ _ _ Hok1 Hcs E2 a Ha). apply replay_ext.
  pose proof PAGE_SIZE_addr.
  case_bool_decide as Herr; simpl; [|by apply Hfail].
  destruct (op_is_write (c_op c)) eqn:Hop; simpl.
  - destruct (covered (c_sector c) (c_len c) a) as [k|] eqn:Hcov.
    + apply covered_Some in Hcov as [Hk ->]; [|done|lia].
      by apply Hin.
    + apply Hout. apply covered_None; [lia|done].
  - by destruct Hrd as [_ ->].
Qed.

(** X4. The last write wins: on a device reached by any history of
    calls since its creation, a read returns [0] and puts in the caller's
    buffer, for each byte of its range, the byte that the last write of
    the history that returned [0] and held that address took from its
    buffer, and a zero byte when there was no such write. *)
Theorem brd_read_replays_history i capacity m cs errs st pg len off op
    sector :
  Forall call_ok cs ->
  run_calls cs (brd_new i capacity m) = Ok (errs, st) ->
  op_is_write op = false ->
  0 <= sector < 2 ^ 64 -> 0 <= len <= PAGE_SIZE ->
  0 <= off -> off + len <= Z.of_nat (length (data pg)) ->
  ∃ d',
    brd_do_bvec pg len off op sector st = Ok ((0, Page (index pg) d'), st)
    ∧ ∀ k, 0 <= k < len ->
           d' !! Z.to_nat (off + k)
           = Some (replay cs errs (fun _ => x00) (byte_addr sector k)).
Proof.
  intros Hcs Hrun Hop Hs Hn Hoff Hlen.
  destruct (run_calls_inv cs _ (brd_new_ok i capacity m) Hcs)
    as (errs' & st' & E & Hok & _).
  rewrite Hrun in E. injection E as <- <-.
  destruct (brd_do_bvec_read st pg len off op sector)
    as (d' & E' & _ & Hin & _); try done.
  exists d'. split; [done|]. intros k Hk. rewrite (Hin k Hk). f_equal.
  rewrite (run_calls_replay cs _ _ _ (brd_new_ok i capacity m) Hcs Hrun).
  - by apply replay_ext.
  - unfold byte_addr. apply Z.mod_pos_bound. lia.
Qed.




Lemma memcpy_whole (dst src : list byte) n :
  Z.of_nat (length dst) = n -> Z.of_nat (length src) = n ->
  memcpy dst 0 src 0 n = src.
Proof.
  intros Hd Hs. unfold memcpy. rewrite Z.add_0_l.
  change (Z.to_nat 0) with 0%nat. rewrite take_0, drop_0.
  rewrite (take_ge src), (drop_ge dst) by lia. apply app_nil_r.
Qed.

(** X6. [brd_rw_page] on a page boundary: a transparent huge page is
    refused with [-ENOTSUPP] and nothing changes; otherwise the write of
    a whole page at a sector that starts a page touches that page only:
    it returns [0] exactly when the page exists or memory for one page
    and its tree node is obtained, the tree then holds the caller's bytes
    as that page, and when it fails it returns [-ENOSPC] and the tree is
    as it was. *)
Theorem brd_rw_page_aligned st sector pg op :
  store_ok st -> op_is_write op = true ->
  0 <= sector < 2 ^ 64 -> Z.land sector (PAGE_SECTORS - 1) = 0 ->
  Z.of_nat (length (data pg)) = PAGE_SIZE ->
  let idx := Z.shiftr sector PAGE_SECTORS_SHIFT in
  brd_rw_page sector pg true op st = Ok ((- ENOTSUPP, pg), st)
  ∧ ∃ err st',
      brd_rw_page sector pg false op st = Ok ((err, pg), st')
      ∧ (err = 0
         ↔ is_Some (brd_pages (dev st) !! idx)
           ∨ ∃ m, mem st = true :: true :: m)
      ∧ (err = 0 ->
         brd_pages (dev st') = <[idx := Page idx (data pg)]> (brd_pages (dev st)))
      ∧ (err ≠ 0 ->
         err = - ENOSPC ∧ brd_pages (dev st') = brd_pages (dev st)).
Proof.
  intros Hok Hop Hs Halign Hlen idx. split; [done|].
  unfold idx. rewrite sector_index_div.
  assert (Ho : sector_offset sector = 0).
  { unfold sector_offset. rewrite Halign. done. }
  pose proof PAGE_SIZE_bounds as Hb.
  destruct (brd_do_bvec_write st pg PAGE_SIZE 0 op sector)
    as (err & st' & E & _ & _ & _ & Hcases); try done; try lia.
  exists err, st'. split; [done|].
  destruct Hok as [Htree Hpages].
  assert (Hws : written_store (brd_pages (dev st)) (data pg) 0 sector
                  PAGE_SIZE
                = <[sector / PAGE_SECTORS
                    := Page (sector / PAGE_SECTORS) (data pg)]>
                    (brd_pages (dev st))).
  { unfold written_store. rewrite Ho, Z.sub_0_r, Z.leb_refl.
    unfold put_bytes, with_page.
    destruct (brd_pages (dev st) !! (sector / PAGE_SECTORS)) as [p|] eqn:Hp.
    - rewrite Hp. destruct (Htree _ _ Hp) as [-> _].
      rewrite memcpy_whole; [done|by eapply Hpages|done].
    - rewrite lookup_insert_eq, insert_insert_eq. simpl.
      rewrite memcpy_whole;
        [done|apply (fresh_page_length (sector / PAGE_SECTORS))|done]. }
  (* what [copy_to_brd_setup] returns, from the allocator *)
  assert (Hset : ∃ r st1, brd_insert_page sector st = Ok (r, st1)
                 ∧ copy_to_brd_setup sector PAGE_SIZE st
                   = Ok (match r with Some _ => 0 | None => - ENOSPC end,
                         st1)).
  { destruct (brd_insert_page_cases st sector Htree)
      as (r & st1 & E1 & _). exists r, st1. split; [done|].
    unfold copy_to_brd_setup. rewrite first_chunk_u64, Ho, Z.sub_0_r.
    rewrite (bind_Ok _ _ _ _ _ E1), Z.min_id, Z.ltb_irrefl.
    by destruct r. }
  destruct Hset as (r & st1 & E1 & Eset).
  assert (Herr : err = match r with Some _ => 0 | None => - ENOSPC end).
  { unfold brd_do_bvec in E. rewrite Hop, (bind_Ok _ _ _ _ _ Eset) in E.
    destruct r; simpl in E.
    - apply bind_inv in E as (? & ? & _ & E).
      unfold mret, M_ret in E. by simplify_eq.
    - unfold mret, M_ret in E. by simplify_eq. }
  split_and!.
  - rewrite Herr. split.
    + destruct r as [p|]; [intros _|done].
      destruct (brd_pages (dev st) !! (sector / PAGE_SECTORS)) as [q|] eqn:Hq;
        [by left|right].
      destruct (mem st) as [|[] m] eqn:Hm.
      * rewrite brd_insert_page_no_page in E1 by (by rewrite ?Hm). done.
      * destruct m as [|[] m']; [|by eauto|].
        -- rewrite (brd_insert_page_no_node st sector []) in E1 by done.
           done.
        -- rewrite (brd_insert_page_no_node st sector (false :: m')) in E1
             by done. done.
      * rewrite brd_insert_page_no_page in E1 by (by rewrite ?Hm). done.
    + intros [[q Hq]|[m Hm]].
      * rewrite (brd_insert_page_found st sector q Htree Hq) in E1.
        by simplify_eq.
      * destruct (brd_pages (dev st) !! (sector / PAGE_SECTORS)) as [q|] eqn:Hq.
        -- rewrite (brd_insert_page_found st sector q Htree Hq) in E1.
           by simplify_eq.
        -- rewrite (brd_insert_page_new st sector m Htree Hq Hm) in E1.
           by simplify_eq.
  - intros ->. destruct Hcases as [[_ ->]|[? _]]; [done|done].
  - intros Hne. destruct Hcases as [[? _]|[-> [->|[Hc _]]]]; [done|done|].
    unfold crosses in Hc. lia.
Qed.

(** X21. [brd_insert_page] loses no page: the pages of the tree and
    the pages given back grow together by the one page allocated, when
    the index had no page and [alloc_page] gave one, and by none
    otherwise; a page given back is the one just allocated, and then no
    page is returned and the tree is as it was. *)
Theorem brd_insert_page_no_leak st sector r st' :
  tree_ok (brd_pages (dev st)) ->
  brd_insert_page sector st = Ok (r, st') ->
  let idx := Z.shiftr sector PAGE_SECTORS_SHIFT in
  let allocated :=
    match brd_pages (dev st) !! idx, mem st with
    | None, true :: _ => 1%nat
    | _, _ => 0%nat
    end in
  ∃ l,
    klog st' = klog st ++ l
    ∧ (size (brd_pages (dev st')) + length (freed l)
       = size (brd_pages (dev st)) + allocated)%nat
    ∧ (l = []
       ∨ (l = [EvFreePage (Page 0 (replicate (Z.to_nat PAGE_SIZE) x00))]
          ∧ r = None ∧ dev st' = dev st)).
Proof.
  intros Hok E. cbv zeta. rewrite sector_index_div.
  destruct (brd_pages (dev st) !! (sector / PAGE_SECTORS)) as [p|] eqn:Hp.
  { rewrite (brd_insert_page_found _ _ _ Hok Hp) in E.
    injection E as <- <-. exists []. rewrite app_nil_r.
    split; [done|]. split; [simpl; lia|by left]. }
  destruct (mem st) as [|[] m] eqn:Hm.
  - rewrite (brd_insert_page_no_page _ _ Hok Hp) in E by (by rewrite Hm).
    injection E as <- <-. exists []. simpl. rewrite app_nil_r.
    split; [done|]. split; [lia|by left].
  - destruct (decide (head m = Some true)) as [Hh|Hh].
    + destruct m as [|[] m']; try done.
      rewrite (brd_insert_page_new _ _ _ Hok Hp Hm) in E.
      injection E as <- <-. exists []. simpl. rewrite app_nil_r.
      split; [done|]. split; [|by left].
      rewrite map_size_insert_None by done. lia.
    + rewrite (brd_insert_page_no_node _ _ _ Hok Hp Hm Hh) in E.
      injection E as <- <-. eexists. simpl. split; [done|].
      split; [simpl; lia|]. right. done.
  - rewrite (brd_insert_page_no_page _ _ Hok Hp) in E by (by rewrite Hm).
    injection E as <- <-. exists []. simpl. rewrite app_nil_r.
    split; [done|]. split; [lia|by left].
Qed.


(** ** Further properties of requests *)

Lemma brd_do_bvec_read_total st pg len off op sector :
  tree_ok (brd_pages (dev st)) -> op_is_write op = false ->
  ∃ pg', brd_do_bvec pg len off op sector st = Ok ((0, pg'), st).
Proof.
  intros Hok Hop. unfold brd_do_bvec. rewrite Hop. simpl.
  unfold mbind at 1, M_bind at 1, mret at 1, M_ret at 1. simpl.
  destruct (copy_from_brd_total st (data pg) off sector len Hok) as [d' E].
  rewrite (bind_Ok _ _ _ _ _ E). eauto.
Qed.

Lemma brd_do_segments_read st op vecs :
  tree_ok (brd_pages (dev st)) -> op_is_write op = false ->
  ∀ sector, ∃ vecs',
    brd_do_segments vecs op sector st = Ok ((0, vecs'), st)
    ∧ Forall2 (fun v v' => bv_len v' = bv_len v
                           ∧ bv_offset v' = bv_offset v) vecs vecs'.
Proof.
  intros Hok Hop. induction vecs as [|bvec vecs IH]; intros sector.
  { exists []. by split. }
  destruct (brd_do_bvec_read_total st (bv_page bvec) (bv_len bvec)
              (bv_offset bvec) op sector Hok Hop) as [pg' E].
  destruct (IH (u64 (sector + Z.shiftr (bv_len bvec) SECTOR_SHIFT)))
    as (vecs' & E' & Hlen).
  eexists. simpl. rewrite (bind_Ok _ _ _ _ _ E). simpl.
  rewrite (bind_Ok _ _ _ _ _ E'). simpl. split; [done|].
  by constructor.
Qed.

(** X7. A read request never fails: when its end sector is within the
    capacity, [brd_submit_bio] of a request that is not a write
    completes it with the status it came with, for any segments and
    whatever pages exist, leaves the kernel state as it is, and gives
    back segments of the same lengths and offsets. *)
Theorem brd_submit_bio_read b st :
  tree_ok (brd_pages (dev st)) -> op_is_write (bio_op b) = false ->
  bio_end_sector b <= brd_capacity (dev st) ->
  ∃ vecs',
    brd_submit_bio b st
      = Ok ((BLK_QC_T_NONE,
             Bio (bi_sector b) (bi_size b) (bi_opf b) (bi_status b) vecs'),
            st)
    ∧ Forall2 (fun v v' => bv_len v' = bv_len v
                           ∧ bv_offset v' = bv_offset v)
        (bi_io_vec b) vecs'.
Proof.
  intros Hok Hop Hcap.
  destruct (brd_do_segments_read st (bio_op b) (bi_io_vec b) Hok Hop
              (bi_sector b)) as (vecs' & E & Hlen).
  exists vecs'. split; [|done].
  unfold brd_submit_bio, get_capacity.
  unfold mbind at 1, M_bind at 1.
  rewrite Z.gtb_ltb, (proj2 (Z.ltb_ge _ _)) by lia.
  by rewrite (bind_Ok _ _ _ _ _ E).
Qed.

Lemma seg_aligned_len bvec :
  0 <= bv_len bvec -> seg_aligned bvec ->
  bv_len bvec = Z.shiftr (bv_len bvec) SECTOR_SHIFT * 512.
Proof.
  unfold seg_aligned. change (SECTOR_SIZE - 1) with (Z.ones 9).
  rewrite Z.land_ones by lia. intros Hn Hm.
  unfold SECTOR_SHIFT. rewrite Z.shiftr_div_pow2 by lia.
  change (2 ^ 9) with 512 in *.
  pose proof (Z.div_mod (bv_len bvec) 512 ltac:(lia)). lia.
Qed.

Lemma total_sectors_bytes vecs :
  Forall (fun v => 0 <= bv_len v) vecs -> Forall seg_aligned vecs ->
  bio_bytes vecs = total_sectors vecs * 512 ∧ 0 <= total_sectors vecs.
Proof.
  induction 1 as [|v vecs Hv _ IH]; intros Ha; [done|].
  apply Forall_cons in Ha as [Hav Ha]. destruct (IH Ha) as [IH1 IH2].
  simpl. pose proof (seg_aligned_len v Hv Hav). lia.
Qed.

Lemma byte_addr_flat sector k :
  0 <= sector -> 0 <= k -> sector * 512 + k < 2 ^ 73 ->
  byte_addr sector k = sector * 512 + k.
Proof.
  intros. unfold byte_addr. change SECTOR_SIZE with 512.
  apply Z.mod_small. lia.
Qed.

(** The segments of a request change no byte outside the sectors the
    cursor goes over. *)
Lemma brd_do_segments_frame vecs :
  ∀ op sector st,
    store_ok st -> 0 <= sector ->
    Forall seg_ok vecs -> Forall seg_aligned vecs ->
    sector + total_sectors vecs < 2 ^ 64 ->
    ∃ err vecs' st',
      brd_do_segments vecs op sector st = Ok ((err, vecs'), st')
      ∧ store_ok st'
      ∧ ∀ a, ¬ (sector * 512 <= a < (sector + total_sectors vecs) * 512) ->
             dev_byte (brd_pages (dev st')) a
             = dev_byte (brd_pages (dev st)) a.
Proof.
  induction vecs as [|bvec vecs IH]; intros op sector st Hok Hs Hvecs Hal Hend.
  { exists 0, [], st. by split_and!. }
  apply Forall_cons in Hvecs as [(Hn & Hoff & Hlen) Hvecs].
  apply Forall_cons in Hal as [Hav Hal]. simpl in Hend.
  pose proof (seg_aligned_len bvec ltac:(lia) Hav) as Hl.
  assert (Hsec : 0 <= Z.shiftr (bv_len bvec) SECTOR_SHIFT) by lia.
  assert (Htot : 0 <= total_sectors vecs).
  { apply total_sectors_bytes; [|done].
    eapply Forall_impl; [exact Hvecs|]. by intros v [[? _] _]. }
  destruct (brd_do_bvec_step st (bv_page bvec) (bv_len bvec)
              (bv_offset bvec) op sector)
    as (err & pg' & st1 & E & Hok1 & _ & _ & _ & _ & _ & _ & Hout & _);
    try done; [lia|].
  assert (Hu : u64 (sector + Z.shiftr (bv_len bvec) SECTOR_SHIFT)
               = sector + Z.shiftr (bv_len bvec) SECTOR_SHIFT).
  { unfold u64. apply Z.mod_small. lia. }
  assert (Hfirst : ∀ a,
            ¬ (sector * 512 <= a
               < (sector + Z.shiftr (bv_len bvec) SECTOR_SHIFT) * 512) ->
            dev_byte (brd_pages (dev st1)) a
            = dev_byte (brd_pages (dev st)) a).
  { intros a Ha. apply Hout. intros k Hk ->.
    rewrite byte_addr_flat in Ha; [lia|lia|lia|].
    change (2 ^ 73) with (2 ^ 64 * 512). lia. }
  simpl. rewrite (bind_Ok _ _ _ _ _ E). simpl.
  case_bool_decide as Herr.
  - eexists _, _, _. split; [done|]. split; [done|].
    intros a Ha. apply Hfirst. lia.
  - destruct (IH op (sector + Z.shiftr (bv_len bvec) SECTOR_SHIFT) st1)
      as (err2 & vecs2 & st2 & E2 & Hok2 & Hrest); try done; try lia.
    rewrite Hu, (bind_Ok _ _ _ _ _ E2). simpl.
    eexists _, _, _. split; [done|]. split; [done|].
    intros a Ha. rewrite Hrest by lia. apply Hfirst. lia.
Qed.

(** X8. The capacity is respected: for a request of sector-aligned
    segments whose [bi_size] is the bytes of its segments and whose
    sector range does not wrap, [brd_submit_bio] returns and, completed
    or failed, leaves every byte of the device outside the sector range
    of the request as it was, and so every byte at or beyond the
    capacity. *)
Theorem brd_submit_bio_within_range b st :
  store_ok st -> 0 <= bi_sector b ->
  Forall seg_ok (bi_io_vec b) -> Forall seg_aligned (bi_io_vec b) ->
  bi_size b = bio_bytes (bi_io_vec b) ->
  bi_sector b + Z.shiftr (bi_size b) 9 < 2 ^ 64 ->
  ∃ r st',
    brd_submit_bio b st = Ok (r, st')
    ∧ ∀ a, a < bi_sector b * 512
           ∨ (bi_sector b + Z.shiftr (bi_size b) 9) * 512 <= a
           ∨ brd_capacity (dev st) * 512 <= a ->
           dev_byte (brd_pages (dev st')) a
           = dev_byte (brd_pages (dev st)) a.
Proof.
  intros Hok Hs Hvecs Hal Hsize Hend.
  assert (Hlens : Forall (fun v => 0 <= bv_len v) (bi_io_vec b)).
  { eapply Forall_impl; [exact Hvecs|]. by intros v [[? _] _]. }
  destruct (total_sectors_bytes _ Hlens Hal) as [Hbytes Htot].
  assert (Hsec : Z.shiftr (bi_size b) 9 = total_sectors (bi_io_vec b)).
  { rewrite Hsize, Hbytes, Z.shiftr_div_pow2 by lia.
    change (2 ^ 9) with 512. by rewrite Z.div_mul. }
  unfold brd_submit_bio, get_capacity.
  unfold mbind at 1, M_bind at 1.
  destruct (Z.gtb_spec (bio_end_sector b) (brd_capacity (dev st)))
    as [Hgt|Hle].
  { eexists _, _. split; [done|]. done. }
  destruct (brd_do_segments_frame (bi_io_vec b) (bio_op b) (bi_sector b) st)
    as (err & vecs' & st' & E & _ & Hframe); try done; [lia|].
  rewrite (bind_Ok _ _ _ _ _ E). simpl.
  assert (Hcap : (bi_sector b + total_sectors (bi_io_vec b)) * 512
                 <= brd_capacity (dev st) * 512).
  { unfold bio_end_sector, u64 in Hle. rewrite Z.mod_small in Hle by lia.
    lia. }
  case_bool_decide; eexists _, _; (split; [done|]);
    intros a Ha; apply Hframe; lia.
Qed.

Lemma seg_data_eq d d' len off roff :
  0 <= len -> 0 <= off -> 0 <= roff ->
  off + len <= Z.of_nat (length d) ->
  (∀ k, 0 <= k < len ->
     d' !! Z.to_nat (roff + k)
     = Some (default x00 (d !! Z.to_nat (off + k)))) ->
  take (Z.to_nat len) (drop (Z.to_nat roff) d')
  = take (Z.to_nat len) (drop (Z.to_nat off) d).
Proof.
  intros Hlen Hoff Hroff Hd H. apply list_eq. intros i.
  rewrite !lookup_take. case_decide as Hi; [|done].
  rewrite !lookup_drop.
  specialize (H (Z.of_nat i) ltac:(lia)).
  replace (Z.to_nat (roff + Z.of_nat i)) with (Z.to_nat roff + i)%nat
    in H by lia.
  replace (Z.to_nat (off + Z.of_nat i)) with (Z.to_nat off + i)%nat
    in H by lia.
  rewrite H.
  destruct (lookup_lt_is_Some_2 d (Z.to_nat off + i)%nat ltac:(lia))
    as [x ->].
  done.
Qed.

(** What the segments of a write put on the device, segments of the same
    lengths read back from the final state. *)
Lemma brd_do_segments_write_read vecs :
  ∀ rvecs op rop sector st vecs' st',
    store_ok st -> 0 <= sector ->
    Forall seg_ok vecs -> Forall seg_aligned vecs ->
    sector + total_sectors vecs < 2 ^ 64 ->
    op_is_write op = true -> op_is_write rop = false ->
    Forall seg_ok rvecs ->
    Forall2 (fun v rv => bv_len rv = bv_len v) vecs rvecs ->
    brd_do_segments vecs op sector st = Ok ((0, vecs'), st') ->
    brd_capacity (dev st') = brd_capacity (dev st)
    ∧ store_ok st'
    ∧ ∃ rvecs',
        brd_do_segments rvecs rop sector st' = Ok ((0, rvecs'), st')
        ∧ Forall2 (fun v rv' => seg_data rv' = seg_data v) vecs rvecs'.
Proof.
  induction vecs as [|bvec vecs IH];
    intros rvecs op rop sector st vecs' st' Hok Hs Hvecs Hal Hend Hop Hrop
      Hrvecs Hlens Hrun.
  { apply Forall2_nil_inv_l in Hlens as ->. simpl in Hrun.
    injection Hrun as <- <-. split; [done|]. split; [done|].
    exists []. by split. }
  apply Forall2_cons_inv_l in Hlens as (rv & rvs & Hrlen & Hlens & ->).
  apply Forall_cons in Hvecs as [(Hn & Hoff & Hlen) Hvecs].
  apply Forall_cons in Hal as [Hav Hal].
  apply Forall_cons in Hrvecs as [(Hrn & Hroff & Hrl) Hrvecs].
  simpl in Hend.
  pose proof (seg_aligned_len bvec ltac:(lia) Hav) as Hl.
  assert (Hsec : 0 <= Z.shiftr (bv_len bvec) SECTOR_SHIFT) by lia.
  assert (Htot : 0 <= total_sectors vecs).
  { apply total_sectors_bytes; [|done].
    eapply Forall_impl; [exact Hvecs|]. by intros v [[? _] _]. }
  destruct (brd_do_bvec_step st (bv_page bvec) (bv_len bvec)
              (bv_offset bvec) op sector)
    as (err & pg' & st1 & E & Hok1 & Hcap1 & _ & _ & _ & _ & _ & _
        & Hin & _);
    try done; [lia|].
  assert (Hu : u64 (sector + Z.shiftr (bv_len bvec) SECTOR_SHIFT)
               = sector + Z.shiftr (bv_len bvec) SECTOR_SHIFT).
  { unfold u64. apply Z.mod_small. lia. }
  simpl in Hrun. rewrite (bind_Ok _ _ _ _ _ E) in Hrun. simpl in Hrun.
  case_bool_decide as Herr; [by injection Hrun as -> _ _|].
  assert (err = 0) as -> by lia.
  rewrite Hu in Hrun.
  apply bind_inv in Hrun as ([err2 vecs2] & st2 & E2 & Hret).
  injection Hret as -> <- <-.
  destruct (IH rvs op rop (sector + Z.shiftr (bv_len bvec) SECTOR_SHIFT)
              st1 vecs2 st2 Hok1 ltac:(lia) Hvecs Hal
              ltac:(lia) Hop Hrop Hrvecs Hlens E2)
    as (Hcap2 & Hok2 & rvecs' & Er & Hdata).
  destruct (brd_do_segments_frame vecs op
              (sector + Z.shiftr (bv_len bvec) SECTOR_SHIFT) st1)
    as (err3 & vecs3 & st3 & E3 & _ & Hframe); try done; try lia.
  rewrite E2 in E3. injection E3 as _ _ <-.
  split; [congruence|]. split; [done|].
  destruct (brd_do_bvec_read st2 (bv_page rv) (bv_len rv) (bv_offset rv)
              rop sector)
    as (d' & Eh & _ & Hd' & _); try done; [lia|].
  eexists. split.
  { simpl. rewrite (bind_Ok _ _ _ _ _ Eh). simpl.
    rewrite Hrlen, Hu, (bind_Ok _ _ _ _ _ Er). done. }
  constructor; [|done].
  unfold seg_data. simpl.
  apply seg_data_eq; try lia.
  intros k Hk. rewrite Hd' by lia. f_equal.
  rewrite Hframe.
  - by apply Hin.
  - rewrite byte_addr_flat; [lia|lia|lia|].
    change (2 ^ 73) with (2 ^ 64 * 512). lia.
Qed.

(** X9. What a write request stores, a read request gives back: after
    [brd_submit_bio] has completed a write request of sector-aligned
    segments without setting its status to an error, a read request of
    the same start sector and size, with segments of the same lengths
    in pages and at offsets of its own, completes with the status it
    came with, changes nothing, and leaves in each of its segments the
    bytes of the segment the write had at that place. *)
Theorem brd_submit_bio_write_read b rb st q b' st' :
  store_ok st -> 0 <= bi_sector b ->
  Forall seg_ok (bi_io_vec b) -> Forall seg_aligned (bi_io_vec b) ->
  bi_size b = bio_bytes (bi_io_vec b) ->
  bi_sector b + Z.shiftr (bi_size b) 9 < 2 ^ 64 ->
  op_is_write (bio_op b) = true ->
  brd_submit_bio b st = Ok ((q, b'), st') ->
  bi_status b' ≠ BLK_STS_IOERR ->
  bi_sector rb = bi_sector b -> bi_size rb = bi_size b ->
  op_is_write (bio_op rb) = false ->
  Forall seg_ok (bi_io_vec rb) ->
  Forall2 (fun v rv => bv_len rv = bv_len v) (bi_io_vec b) (bi_io_vec rb) ->
  ∃ rvecs',
    brd_submit_bio rb st'
      = Ok ((BLK_QC_T_NONE,
             Bio (bi_sector rb) (bi_size rb) (bi_opf rb) (bi_status rb)
               rvecs'),
            st')
    ∧ Forall2 (fun v rv' => seg_data rv' = seg_data v) (bi_io_vec b) rvecs'.
Proof.
  intros Hok Hs Hvecs Hal Hsize Hend Hop Hrun Hst Hrs Hrsize Hrop Hrvecs
    Hlens.
  assert (Hpos : Forall (fun v => 0 <= bv_len v) (bi_io_vec b)).
  { eapply Forall_impl; [exact Hvecs|]. by intros v [[? _] _]. }
  destruct (total_sectors_bytes _ Hpos Hal) as [Hbytes Htot].
  assert (Hsec : Z.shiftr (bi_size b) 9 = total_sectors (bi_io_vec b)).
  { rewrite Hsize, Hbytes, Z.shiftr_div_pow2 by lia.
    change (2 ^ 9) with 512. by rewrite Z.div_mul. }
  unfold brd_submit_bio, get_capacity in Hrun.
  unfold mbind at 1, M_bind at 1 in Hrun.
  destruct (Z.gtb_spec (bio_end_sector b) (brd_capacity (dev st)))
    as [Hgt|Hle].
  { injection Hrun as _ <- _. by destruct Hst. }
  apply bind_inv in Hrun as ([err vecs'] & st1 & E & Hret).
  case_bool_decide as Herr.
  { injection Hret as _ <- _. by destruct Hst. }
  assert (err = 0) as -> by lia.
  injection Hret as _ _ <-.
  destruct (brd_do_segments_write_read (bi_io_vec b) (bi_io_vec rb)
              (bio_op b) (bio_op rb) (bi_sector b) st vecs' st1)
    as (Hcap & Hok1 & rvecs' & Er & Hdata); try done; [lia|].
  exists rvecs'. split; [|done].
  unfold brd_submit_bio, get_capacity.
  unfold mbind at 1, M_bind at 1.
  assert (bio_end_sector rb = bio_end_sector b) as ->.
  { unfold bio_end_sector. by rewrite Hrs, Hrsize. }
  rewrite Hcap, Z.gtb_ltb, (proj2 (Z.ltb_ge _ _)) by lia.
  rewrite Hrs, (bind_Ok _ _ _ _ _ Er). by rewrite <- Hrs.
Qed.

End brd.

(** ** The device list *)

Lemma brd_find_app os l1 l2 i :
  brd_find os (l1 ++ l2) i
    = match brd_find os l1 i with
      | Some brd => Some brd
      | None => brd_find os l2 i
      end.
Proof.
  induction l1 as [|b l1 IH]; [done|]. simpl.
  destruct (os !! b) as [d|]; [case_bool_decide|]; done.
Qed.

Lemma brd_find_insert_fresh os l i a d :
  os !! a = None -> Forall (fun brd => is_Some (os !! brd)) l ->
  brd_find (<[a := d]> os) l i = brd_find os l i.
Proof.
  intros Ha. induction 1 as [|b l [db Hb] _ IH]; [done|]. simpl.
  rewrite lookup_insert_ne by congruence. by rewrite Hb, IH.
Qed.

Lemma brd_find_Some os l i a :
  brd_find os l i = Some a ->
  a ∈ l ∧ brd_number <$> os !! a = Some i.
Proof.
  induction l as [|b l IH]; [done|]. simpl.
  destruct (os !! b) as [d|] eqn:Hb.
  - case_bool_decide as Hd.
    + intros [= <-]. split; [by left|]. by rewrite Hb, <- Hd.
    + intros Hf. destruct (IH Hf). split; [by right|done].
  - intros Hf. destruct (IH Hf). split; [by right|done].
Qed.

Lemma brd_find_None os l i :
  brd_find os l i = None ->
  filter (fun brd => brd_number <$> os !! brd = Some i) l = [].
Proof.
  induction l as [|b l IH]; [done|]. simpl.
  destruct (os !! b) as [d|] eqn:Hb.
  - case_bool_decide as Hd; [done|]. intros Hf.
    rewrite filter_cons_False; [by apply IH|].
    rewrite Hb. simpl. congruence.
  - intros Hf. rewrite filter_cons_False; [by apply IH|]. by rewrite Hb.
Qed.

Lemma filter_insert_fresh (os : gmap Z brd_device) l i a d :
  os !! a = None -> Forall (fun brd => is_Some (os !! brd)) l ->
  filter (fun brd => brd_number <$> <[a := d]> os !! brd = Some i) l
    = filter (fun brd => brd_number <$> os !! brd = Some i) l.
Proof.
  intros Ha. induction 1 as [|b l [db Hb] _ IH]; [done|].
  assert (Hne : a ≠ b) by congruence.
  destruct (decide (brd_number <$> os !! b = Some i)) as [Hi|Hi].
  - rewrite !filter_cons_True, IH; try done. by rewrite lookup_insert_ne.
  - rewrite !filter_cons_False, IH; try done. by rewrite lookup_insert_ne.
Qed.

Lemma brd_alloc_cases i r :
  (∃ m, outcomes r = true :: true :: true :: m
        ∧ brd_alloc i r
          = (Some (fresh (dom (objs r))),
             BrdModule (rd_size r) (max_part r)
               (<[fresh (dom (objs r))
                  := BrdDevice i (u64 (rd_size r * 2)) ∅]> (objs r))
               (brd_devices r) m))
  ∨ ((¬ ∃ m, outcomes r = true :: true :: true :: m)
     ∧ ∃ m, brd_alloc i r
            = (None, BrdModule (rd_size r) (max_part r) (objs r)
                       (brd_devices r) m)).
Proof.
  unfold brd_alloc, take_outcome.
  destruct r as [sz mp os l [|[] [|[] [|[] m]]]]; simpl;
    first [ left; eexists; split; reflexivity
          | right; split; [intros [? [=]]|eexists; reflexivity] ].
Qed.

(** C9. [brd_init_one]: a device of the list with number [i] is returned
    and nothing changes; when there is none and the allocations succeed,
    a new device with number [i], the configured capacity and no page is
    allocated at an unused address, put at the tail of the list and
    returned, and when an allocation fails, [NULL] is returned and the
    list is unchanged; and once a call has returned a device, a second
    call with the same [i] returns the same device, says it is not new,
    and changes nothing, so the list holds one device of number [i]. *)
Theorem brd_init_one_idempotent i r :
  list_ok r ->
  ∃ brd new r1,
    brd_init_one i r = (brd, new, r1)
    ∧ (∀ a, brd_find (objs r) (brd_devices r) i = Some a ->
            brd = Some a ∧ new = false ∧ r1 = r)
    ∧ (brd_find (objs r) (brd_devices r) i = None ->
       new = true
       ∧ match brd with
         | Some a =>
             (∃ m, outcomes r = true :: true :: true :: m)
             ∧ objs r !! a = None
             ∧ objs r1 = <[a := BrdDevice i (u64 (rd_size r * 2)) ∅]> (objs r)
             ∧ brd_devices r1 = brd_devices r ++ [a]
             ∧ entries r1 i = 1%nat
         | None =>
             (¬ ∃ m, outcomes r = true :: true :: true :: m)
             ∧ objs r1 = objs r
             ∧ brd_devices r1 = brd_devices r
         end)
    ∧ (∀ a, brd = Some a ->
            brd_init_one i r1 = (Some a, false, r1)).
Proof.
  intros Hok. unfold brd_init_one.
  destruct (brd_find (objs r) (brd_devices r) i) as [a|] eqn:Hfind.
  - exists (Some a), false, r. split_and!; try done.
    intros ? [= <-]. by rewrite Hfind.
  - destruct (brd_alloc_cases i r) as [(m & Hm & ->)|(Hm & m & ->)].
    + set (a := fresh (dom (objs r))).
      assert (Ha : objs r !! a = None).
      { apply not_elem_of_dom. apply is_fresh. }
      eexists _, _, _. split; [done|]. simpl.
      assert (Hfind1 :
        brd_find (<[a := BrdDevice i (u64 (rd_size r * 2)) ∅]> (objs r))
          (brd_devices r ++ [a]) i = Some a).
      { rewrite brd_find_app, brd_find_insert_fresh, Hfind by done.
        simpl. rewrite lookup_insert_eq. simpl.
        by rewrite bool_decide_true. }
      split_and!; try done.
      * split; [done|]. split_and!; try done; [by eauto|].
        unfold entries. simpl. rewrite filter_app.
        rewrite filter_insert_fresh by done.
        rewrite (brd_find_None _ _ _ Hfind). simpl.
        rewrite filter_cons_True by (by rewrite lookup_insert_eq).
        done.
      * intros ? [= <-]. by rewrite Hfind1.
    + eexists _, _, _. split; [done|]. simpl. split_and!; try done.
Qed.

(** What [brd_init_one] returns is found in the list it leaves. *)
Lemma brd_init_one_finds i r a new r1 :
  list_ok r ->
  brd_init_one i r = (Some a, new, r1) ->
  brd_find (objs r1) (brd_devices r1) i = Some a
  ∧ max_part r1 = max_part r.
Proof.
  intros Hok E. unfold brd_init_one in E.
  destruct (brd_find (objs r) (brd_devices r) i) as [c|] eqn:Hfind.
  { by simplify_eq. }
  destruct (brd_alloc_cases i r) as [(m & _ & Ea)|(_ & m & Ea)];
    rewrite Ea in E; simplify_eq. simpl. split; [|done].
  assert (Ha : objs r !! fresh (dom (objs r)) = None).
  { apply not_elem_of_dom. apply is_fresh. }
  rewrite brd_find_app, brd_find_insert_fresh, Hfind by done.
  simpl. rewrite lookup_insert_eq. simpl. by rewrite bool_decide_true.
Qed.

(** The same on demand: two probes of the same device number that both
    get a disk get the disk of the same device, and the second adds
    nothing. *)
Lemma brd_probe_same_device dev part part' r :
  list_ok r ->
  ∀ k1 p1 r1 k2 p2 r2 a b,
    brd_probe dev part r = (k1, p1, r1) ->
    brd_probe dev part' r1 = (k2, p2, r2) ->
    k1 = Some a -> k2 = Some b ->
    b = a ∧ brd_devices r2 = brd_devices r1 ∧ objs r2 = objs r1.
Proof.
  intros Hok k1 p1 r1 k2 p2 r2 a b E1 E2 -> ->.
  unfold brd_probe in E1.
  destruct (brd_init_one (MINOR dev / max_part r) r)
    as [[[a0|] new] r0] eqn:E; [|by simplify_eq].
  destruct (brd_init_one_finds _ _ _ _ _ Hok E) as [Hfind Hmp].
  unfold take_outcome in E1.
  unfold brd_probe, brd_init_one, take_outcome in E2.
  destruct (outcomes r0) as [|[] m]; simplify_eq; simpl in *.
  rewrite Hmp, Hfind in E2.
  destruct m as [|[] m']; simpl in E2; simplify_eq; simpl; auto.
Qed.

(** ** The parameters of the module *)

Lemma pow2_divides_minor j :
  0 <= j <= MINORBITS -> Z.shiftl 1 MINORBITS mod 2 ^ j = 0.
Proof.
  unfold MINORBITS. intros Hj. rewrite Z.shiftl_1_l.
  replace 20 with ((20 - j) + j) by lia.
  rewrite Z.pow_add_r by lia. apply Z.mod_mul.
  apply Z.pow_nonzero; lia.
Qed.

Lemma brd_check_and_reset_par_fix r :
  1 <= r <= DISK_MAX_PARTS -> Z.shiftl 1 MINORBITS mod r = 0 ->
  brd_check_and_reset_par r = r.
Proof.
  unfold DISK_MAX_PARTS. intros Hr Hd. unfold brd_check_and_reset_par.
  rewrite (proj2 (Z.eqb_neq r 0)) by lia.
  unfold u32. rewrite (Z.mod_small r) by lia.
  rewrite Hd. simpl. unfold DISK_MAX_PARTS.
  rewrite Z.gtb_ltb, (proj2 (Z.ltb_ge _ _)) by lia. done.
Qed.

(** X10. [brd_check_and_reset_par] on a [max_part] from 0 to below
    [2^30]: the value it leaves is from 1 to [DISK_MAX_PARTS], divides
    [1 << MINORBITS], is not below a [max_part] that was no more than
    [DISK_MAX_PARTS], and is left as it is by a second call. *)
Theorem brd_check_and_reset_par_divides max_part :
  0 <= max_part < 2 ^ 30 ->
  1 <= brd_check_and_reset_par max_part <= DISK_MAX_PARTS
  ∧ Z.shiftl 1 MINORBITS mod brd_check_and_reset_par max_part = 0
  ∧ (max_part <= DISK_MAX_PARTS ->
     max_part <= brd_check_and_reset_par max_part)
  ∧ brd_check_and_reset_par (brd_check_and_reset_par max_part)
    = brd_check_and_reset_par max_part.
Proof.
  intros Hm.
  cut (1 <= brd_check_and_reset_par max_part <= DISK_MAX_PARTS
       ∧ Z.shiftl 1 MINORBITS mod brd_check_and_reset_par max_part = 0
       ∧ (max_part <= DISK_MAX_PARTS ->
          max_part <= brd_check_and_reset_par max_part)).
  { intros (Hr & Hd & Hle). do 3 (split; [done|]).
    by apply brd_check_and_reset_par_fix. }
  unfold brd_check_and_reset_par, DISK_MAX_PARTS.
  set (m := if max_part =? 0 then 1 else max_part).
  assert (Hm1 : 1 <= m < 2 ^ 30 ∧ max_part <= m).
  { unfold m. destruct (Z.eqb_spec max_part 0); lia. }
  clearbody m. destruct Hm1 as [Hm1 Hmm].
  unfold u32. rewrite (Z.mod_small m) by lia.
  destruct (Z.eqb_spec (Z.shiftl 1 MINORBITS mod m) 0) as [Hd|Hd]; simpl.
  - destruct (Z.ltb_spec 256 m) as [Hgt|Hle];
      rewrite Z.gtb_ltb; [rewrite (proj2 (Z.ltb_lt _ _)) by lia
                         |rewrite (proj2 (Z.ltb_ge _ _)) by lia].
    + split; [lia|]. split; [|lia]. apply (pow2_divides_minor 8).
      unfold MINORBITS. lia.
    + split; [lia|]. split; [done|lia].
  - unfold fls, u32. rewrite (Z.mod_small m) by lia.
    rewrite (proj2 (Z.eqb_neq m 0)) by lia.
    pose proof (Z.log2_nonneg m) as Hl0.
    assert (Hl : Z.log2 m < 30) by (apply Z.log2_lt_pow2; lia).
    destruct (Z.log2_spec m ltac:(lia)) as [_ Hup].
    replace (Z.succ (Z.log2 m)) with (Z.log2 m + 1) in Hup by lia.
    rewrite Z.shiftl_1_l.
    assert (Hp : 2 ^ (Z.log2 m + 1) <= 2 ^ 30).
    { apply Z.pow_le_mono_r; lia. }
    unfold u64, s32.
    rewrite (Z.mod_small (2 ^ (Z.log2 m + 1))) by lia.
    rewrite (Z.mod_small (2 ^ (Z.log2 m + 1) + 2 ^ 31)) by lia.
    replace (2 ^ (Z.log2 m + 1) + 2 ^ 31 - 2 ^ 31)
      with (2 ^ (Z.log2 m + 1)) by lia.
    destruct (Z.ltb_spec 256 (2 ^ (Z.log2 m + 1))) as [Hgt|Hle];
      rewrite Z.gtb_ltb; [rewrite (proj2 (Z.ltb_lt _ _)) by lia
                         |rewrite (proj2 (Z.ltb_ge _ _)) by lia].
    + split; [lia|]. split; [|lia]. apply (pow2_divides_minor 8).
      unfold MINORBITS. lia.
    + split; [lia|]. split; [|lia]. apply pow2_divides_minor.
      unfold MINORBITS. split; [lia|].
      destruct (Z.le_gt_cases (Z.log2 m + 1) 8) as [?|Hbig]; [lia|].
      assert (2 ^ 9 <= 2 ^ (Z.log2 m + 1)) by (apply Z.pow_le_mono_r; lia).
      lia.
Qed.

(** X11. [brd_check_and_reset_par] beyond that range: a negative
    [max_part] is left as 0, and one from [2^30] on as [- 2^31], neither
    of which divides [1 << MINORBITS]. *)
Theorem brd_check_and_reset_par_wraps max_part :
  - 2 ^ 31 <= max_part < 2 ^ 31 ->
  (max_part < 0 -> brd_check_and_reset_par max_part = 0)
  ∧ (2 ^ 30 <= max_part -> brd_check_and_reset_par max_part = - 2 ^ 31)
  ∧ (max_part < 0 ∨ 2 ^ 30 <= max_part ->
     ¬ (brd_check_and_reset_par max_part | Z.shiftl 1 MINORBITS)).
Proof.
  intros Hm.
  cut ((max_part < 0 -> brd_check_and_reset_par max_part = 0)
       ∧ (2 ^ 30 <= max_part ->
          brd_check_and_reset_par max_part = - 2 ^ 31)).
  { intros [Hn Hb]. split; [done|]. split; [done|].
    change (Z.shiftl 1 MINORBITS) with 1048576.
    intros [Hc|Hc]; [rewrite (Hn Hc)|rewrite (Hb Hc)]; intros [k Hk]; lia. }
  unfold brd_check_and_reset_par. split; intros Hc.
  - rewrite (proj2 (Z.eqb_neq max_part 0)) by lia.
    assert (Hu : u32 max_part = max_part + 2 ^ 32).
    { unfold u32. symmetry. apply (Z.mod_unique _ _ (-1)); lia. }
    assert (Hd : Z.shiftl 1 MINORBITS mod u32 max_part = 2 ^ 20).
    { rewrite Hu. apply Z.mod_small. lia. }
    rewrite Hd. simpl negb. cbv iota.
    unfold fls. rewrite Hu.
    rewrite (proj2 (Z.eqb_neq _ 0)) by lia.
    assert (Hl : Z.log2 (max_part + 2 ^ 32) = 31).
    { apply Z.log2_unique; lia. }
    rewrite Hl. reflexivity.
  - rewrite (proj2 (Z.eqb_neq max_part 0)) by lia.
    assert (Hu : u32 max_part = max_part).
    { unfold u32. apply Z.mod_small. lia. }
    assert (Hd : Z.shiftl 1 MINORBITS mod u32 max_part = 2 ^ 20).
    { rewrite Hu. apply Z.mod_small. lia. }
    rewrite Hd. simpl negb. cbv iota.
    unfold fls. rewrite Hu.
    rewrite (proj2 (Z.eqb_neq _ 0)) by lia.
    assert (Hl : Z.log2 max_part = 30).
    { apply Z.log2_unique; lia. }
    rewrite Hl. reflexivity.
Qed.


(** ** Loading and unloading the module *)

Lemma brd_free_spec st :
  tree_ok (brd_pages (dev st)) ->
  ∃ st' l,
    brd_free st = Ok (tt, st')
    ∧ klog st' = klog st ++ l
    ∧ batched l
    ∧ freed l ≡ₚ (map_to_list (brd_pages (dev st))).*2.
Proof.
  intros Hok.
  destruct (brd_free_pages_from_spec (S (size (brd_pages (dev st)))) st 0)
    as (st' & l & E & _ & _ & _ & _ & Hlog & Hb & Hfreed);
    [done| |lia|].
  { intros i [p Hp]. by destruct (Hok _ _ Hp) as [_ [? _]]. }
  exists st', l. split_and!; try done.
  unfold brd_free, brd_free_pages.
  rewrite (bind_Ok _ _ _ _ _
             (eq_refl : get_pages st = Ok (brd_pages (dev st), st))).
  by rewrite (bind_Ok _ _ _ _ _ E).
Qed.

Lemma brd_free_at_spec brd r d :
  objs r !! brd = Some d -> tree_ok (brd_pages d) ->
  ∃ ev,
    brd_free_at brd r
      = Ok (ev, BrdModule (rd_size r) (max_part r) (delete brd (objs r))
                  (brd_devices r) (outcomes r))
    ∧ batched ev
    ∧ freed ev ≡ₚ (map_to_list (brd_pages d)).*2.
Proof.
  intros Hd Hok. unfold brd_free_at. rewrite Hd.
  destruct (brd_free_spec (KState d [] []))
    as (st' & l & E & Hlog & Hb & Hf); [done|].
  rewrite E. simpl in Hlog. exists l. by rewrite Hlog.
Qed.

Lemma pages_at_cons r a l d :
  objs r !! a = Some d ->
  pages_at r (a :: l) = (map_to_list (brd_pages d)).*2 ++ pages_at r l.
Proof. intros Hd. unfold pages_at. rewrite bind_cons. by rewrite Hd. Qed.

Lemma pages_at_ext r r' l :
  (∀ a, a ∈ l -> objs r' !! a = objs r !! a) ->
  pages_at r' l = pages_at r l.
Proof.
  induction l as [|a l IH]; intros H; [done|].
  unfold pages_at in *. rewrite !bind_cons.
  rewrite H by left. f_equal. apply IH. intros b Hb. apply H. by right.
Qed.

Lemma pages_at_blank r l :
  (∀ a, a ∈ l -> ∃ d, objs r !! a = Some d ∧ brd_pages d = ∅) ->
  pages_at r l = [].
Proof.
  induction l as [|a l IH]; intros H; [done|].
  destruct (H a ltac:(left)) as (d & Hd & He).
  rewrite (pages_at_cons _ _ _ _ Hd), He, map_to_list_empty. simpl.
  apply IH. intros b Hb. apply H. by right.
Qed.

Lemma filter_all {A} (P : A -> Prop) `{∀ x, Decision (P x)} (l : list A) :
  Forall P l -> filter P l = l.
Proof.
  induction 1 as [|x l Hx _ IH]; [done|].
  by rewrite filter_cons_True, IH.
Qed.

Lemma filter_none {A} (P : A -> Prop) `{∀ x, Decision (P x)} (l : list A) :
  Forall (fun x => ¬ P x) l -> filter P l = [].
Proof.
  induction 1 as [|x l Hx _ IH]; [done|].
  by rewrite filter_cons_False.
Qed.

(** The loop that deletes the devices at [l]. *)
Lemma for_each_del_spec l :
  ∀ r,
    NoDup l ->
    (∀ a, a ∈ l -> ∃ d, objs r !! a = Some d ∧ tree_ok (brd_pages d)) ->
    ∃ ev r',
      for_each_entry_safe brd_del_one l r = Ok (ev, r')
      ∧ rd_size r' = rd_size r
      ∧ max_part r' = max_part r
      ∧ outcomes r' = outcomes r
      ∧ brd_devices r' = filter (fun a => a ∉ l) (brd_devices r)
      ∧ (∀ a, objs r' !! a = if decide (a ∈ l) then None else objs r !! a)
      ∧ freed ev ≡ₚ pages_at r l.
Proof.
  induction l as [|a l IH]; intros r Hnd Hdev.
  { exists [], r. simpl. split_and!; try done.
    symmetry. apply filter_all, Forall_forall. intros a _.
    apply not_elem_of_nil. }
  apply NoDup_cons in Hnd as [Ha Hnd].
  destruct (Hdev a ltac:(left)) as (d & Hd & Hok).
  destruct (brd_free_at_spec a (list_del a r) d Hd Hok)
    as (ev & E & _ & Hf).
  set (r1 := BrdModule (rd_size r) (max_part r) (delete a (objs r))
               (filter (fun b => b ≠ a) (brd_devices r)) (outcomes r)).
  assert (Hobjs : ∀ b, b ∈ l -> objs r1 !! b = objs r !! b).
  { intros b Hb. simpl. apply lookup_delete_ne. by intros ->. }
  destruct (IH r1 Hnd) as (ev' & r' & E' & Hsz & Hmp & Hout & Hl & Ho & Hf').
  { intros b Hb. rewrite Hobjs by done. apply Hdev. by right. }
  exists (ev ++ ev'), r'. split.
  { change (brd_free_at a (list_del a r) = Ok (ev, r1)) in E.
    simpl. unfold brd_del_one at 1. by rewrite E, E'. }
  split; [done|]. split; [done|]. split; [done|]. split.
  { rewrite Hl. simpl. rewrite list_filter_filter.
    apply list_filter_iff. intros b. rewrite not_elem_of_cons. tauto. }
  split.
  { intros b. rewrite Ho. simpl.
    destruct (decide (b = a)) as [->|Hne].
    - rewrite decide_False by done. rewrite lookup_delete_eq.
      by rewrite decide_True by left.
    - rewrite lookup_delete_ne by done.
      destruct (decide (b ∈ l)).
      + by rewrite decide_True by (by right).
      + rewrite decide_False; [done|]. rewrite elem_of_cons. tauto. }
  unfold freed in *. rewrite omap_app, Hf, Hf'.
  rewrite (pages_at_cons _ _ _ _ Hd). f_equiv.
  by rewrite (pages_at_ext r r1).
Qed.

(** The loop that allocates the devices. *)
Lemma brd_init_loop_spec n :
  ∀ i r,
    list_ok r -> NoDup (brd_devices r) ->
    ∃ ok new r',
      brd_init_loop n i r = (ok, r')
      ∧ rd_size r' = rd_size r
      ∧ max_part r' = max_part r
      ∧ brd_devices r' = brd_devices r ++ new
      ∧ NoDup (brd_devices r')
      ∧ (∀ a, a ∈ new -> objs r !! a = None)
      ∧ (∀ a, a ∉ new -> objs r' !! a = objs r !! a)
      ∧ (length new <= n)%nat
      ∧ Forall2 (fun a j => objs r' !! a = Some (blank_device r j))
          new (seqZ i (Z.of_nat (length new)))
      ∧ (ok = true ->
         length new = n ∧ outcomes r = replicate (3 * n) true ++ outcomes r')
      ∧ (ok = false -> ¬ ∃ m, outcomes r = replicate (3 * n) true ++ m).
Proof.
  induction n as [|n IH]; intros i r Hok Hnd.
  { exists true, [], r. simpl. rewrite app_nil_r.
    split_and!; try done. by intros a ?%not_elem_of_nil. }
  simpl brd_init_loop.
  destruct (brd_alloc_cases i r) as [(m & Hm & ->)|(Hm & m & ->)].
  - set (a := fresh (dom (objs r))).
    assert (Ha : objs r !! a = None).
    { apply not_elem_of_dom. apply is_fresh. }
    assert (Hal : a ∉ brd_devices r).
    { intros Hin. unfold list_ok in Hok. rewrite Forall_forall in Hok.
      destruct (Hok a Hin) as [? ?]. congruence. }
    set (r1 := list_add_tail a
                 (BrdModule (rd_size r) (max_part r)
                    (<[a := BrdDevice i (u64 (rd_size r * 2)) ∅]> (objs r))
                    (brd_devices r) m)).
    destruct (IH (i + 1) r1) as
      (ok & new & r' & E & Hsz & Hmp & Hl & Hnd' & Hnew & Hold & Hlen
       & Hblank & Htrue & Hfalse).
    { unfold list_ok, r1. simpl. apply Forall_app. split.
      - eapply Forall_impl; [exact Hok|]. intros b [db Hb].
        exists db. rewrite lookup_insert_ne; [done|]. congruence.
      - constructor; [|done]. rewrite lookup_insert_eq. eauto. }
    { unfold r1. simpl. apply NoDup_app. split; [done|]. split.
      - intros b Hb ->%list_elem_of_singleton. done.
      - apply NoDup_singleton. }
    simpl in Hl. rewrite <- app_assoc in Hl. simpl in Hl.
    assert (Han : a ∉ new).
    { rewrite Hl in Hnd'. apply NoDup_app in Hnd' as (_ & _ & Hnd').
      by apply NoDup_cons in Hnd' as [? _]. }
    exists ok, (a :: new), r'. split; [done|].
    split; [done|]. split; [done|]. split; [done|]. split; [done|].
    split.
    { intros b [->|Hb]%elem_of_cons; [done|].
      specialize (Hnew b Hb). simpl in Hnew.
      by apply lookup_insert_None in Hnew as [? _]. }
    split.
    { intros b Hb. apply not_elem_of_cons in Hb as [Hne Hb].
      rewrite Hold by done. simpl. by rewrite lookup_insert_ne. }
    split; [simpl; lia|]. split.
    { simpl length. rewrite seqZ_cons by lia. constructor.
      - rewrite Hold by done. simpl. by rewrite lookup_insert_eq.
      - replace (Z.succ i) with (i + 1) by lia.
        replace (Z.pred (Z.of_nat (S (length new))))
          with (Z.of_nat (length new)) by lia.
        done. }
    split.
    { intros Ht. destruct (Htrue Ht) as [Hn Ho]. split; [simpl; lia|].
      rewrite Hm. simpl in Ho. rewrite Ho.
      replace (3 * S n)%nat with (S (S (S (3 * n)))) by lia. done. }
    intros Hf [m' Hm']. apply (Hfalse Hf). exists m'.
    rewrite Hm in Hm'.
    replace (3 * S n)%nat with (S (S (S (3 * n)))) in Hm' by lia.
    simpl in Hm'. by simplify_eq.
  - assert (Hno : ¬ ∃ m0, outcomes r = replicate (3 * S n) true ++ m0).
    { intros [m' Hm']. apply Hm.
      replace (3 * S n)%nat with (S (S (S (3 * n)))) in Hm' by lia.
      simpl in Hm'. eauto. }
    eexists false, [], _. split; [done|]. simpl. rewrite app_nil_r.
    split_and!; try done;
      first [by intros a ?%not_elem_of_nil | lia | by intros _].
Qed.


Lemma Forall2_elem_l {A B} (P : A -> B -> Prop) l k a :
  Forall2 P l k -> a ∈ l -> ∃ b, b ∈ k ∧ P a b.
Proof.
  induction 1 as [|x y l k Hxy _ IH]; intros Ha.
  { by apply not_elem_of_nil in Ha. }
  apply elem_of_cons in Ha as [->|Ha].
  - exists y. split; [by left|done].
  - destruct (IH Ha) as (b & Hb & HP). exists b. split; [by right|done].
Qed.

Lemma brd_find_blank os c l js j :
  Forall2 (fun a j => os !! a = Some (BrdDevice j c ∅)) l js ->
  j ∈ js ->
  ∃ a, brd_find os l j = Some a ∧ os !! a = Some (BrdDevice j c ∅).
Proof.
  induction 1 as [|a0 j0 l js Ha0 _ IH]; intros Hj.
  { by apply not_elem_of_nil in Hj. }
  simpl. rewrite Ha0. simpl. case_bool_decide as Hn.
  - subst j0. eauto.
  - apply elem_of_cons in Hj as [->|Hj]; [done|]. by apply IH.
Qed.

(** [brd_init] on the empty list. *)
Lemma brd_init_spec rd_nr r :
  brd_devices r = [] ->
  ∃ code ev r',
    brd_init rd_nr r = Ok (code, ev, r')
    ∧ rd_size r' = rd_size r
    ∧ (code = 0
       ↔ ∃ m, outcomes r = replicate (1 + 3 * Z.to_nat rd_nr) true ++ m)
    ∧ (code = 0 ->
       ev = []
       ∧ max_part r' = brd_check_and_reset_par (max_part r)
       ∧ NoDup (brd_devices r')
       ∧ Forall2 (fun a j => objs r' !! a = Some (blank_device r j))
           (brd_devices r') (seqZ 0 rd_nr)
       ∧ (∀ a, a ∈ brd_devices r' -> objs r !! a = None)
       ∧ (∀ a, a ∉ brd_devices r' -> objs r' !! a = objs r !! a))
    ∧ (code ≠ 0 ->
       (code = - EIO ∨ code = - ENOMEM)
       ∧ brd_devices r' = [] ∧ objs r' = objs r ∧ freed ev = []).
Proof.
  intros Hl. unfold brd_init, take_outcome.
  destruct (outcomes r) as [|[] m] eqn:Ho.
  - exists (- EIO), [], r. simpl.
    split; [done|]. split; [done|]. split.
    { split; [done|]. by intros [? [=]]. }
    split; [done|]. intros _. split; [by left|done].
  - simpl negb. cbv iota.
    set (r1 := set_max_part _ _).
    destruct (brd_init_loop_spec (Z.to_nat rd_nr) 0 r1) as
      (ok & new & r' & E & Hsz & Hmp & Hl' & Hnd & Hnew & Hold & Hlen
       & Hblank & Htrue & Hfalse).
    { unfold list_ok, r1. simpl. rewrite Hl. constructor. }
    { unfold r1. simpl. rewrite Hl. constructor. }
    rewrite E. unfold r1 in Hl'. simpl in Hl'. rewrite Hl in Hl'.
    simpl in Hl'. subst new.
    change (rd_size r1) with (rd_size r) in Hsz.
    change (max_part r1) with (brd_check_and_reset_par (max_part r)) in Hmp.
    change (objs r1) with (objs r) in Hnew, Hold.
    change (outcomes r1) with m in Htrue, Hfalse.
    change (blank_device r1) with (blank_device r) in Hblank.
    destruct ok.
    + destruct (Htrue eq_refl) as [Hn Hm].
      exists 0, [], r'. split; [done|]. split; [done|]. split.
      { split; [|done]. intros _. exists (outcomes r').
        rewrite Hm. done. }
      split; [|done]. intros _. split_and!; try done.
      rewrite Hn in Hblank. unfold seqZ in *.
      by rewrite Nat2Z.id in Hblank.
    + assert (Hdev : ∀ a, a ∈ brd_devices r' ->
                ∃ d, objs r' !! a = Some d ∧ brd_pages d = ∅).
      { intros a Ha.
        destruct (Forall2_elem_l _ _ _ _ Hblank Ha) as (j & _ & Hj).
        eauto. }
      destruct (for_each_del_spec (brd_devices r') r' Hnd) as
        (ev & r2 & E2 & Hsz2 & _ & _ & Hl2 & Ho2 & Hf2).
      { intros a Ha. destruct (Hdev a Ha) as (d & Hd & He).
        exists d. split; [done|]. rewrite He. by intros ? ? ?. }
      change (for_each_entry_safe
                (fun brd r => brd_free_at brd (list_del brd r)))
        with (for_each_entry_safe brd_del_one).
      rewrite E2. exists (- ENOMEM), ev, r2.
      split; [done|]. split; [congruence|]. split.
      { split; [done|]. intros [m' Hm']. exfalso.
        apply (Hfalse eq_refl). exists m'.
        replace (1 + 3 * Z.to_nat rd_nr)%nat
          with (S (3 * Z.to_nat rd_nr)) in Hm' by lia.
        simpl in Hm'. by simplify_eq. }
      split; [done|]. intros _. split; [by right|]. split.
      { rewrite Hl2. apply filter_none, Forall_forall. by intros a Ha ?. }
      split.
      { apply map_eq. intros a. rewrite Ho2.
        case_decide as Ha; [by rewrite Hnew|by apply Hold]. }
      rewrite (pages_at_blank _ _ Hdev) in Hf2.
      by apply Permutation_nil_r in Hf2.
  - eexists (- EIO), [], _. simpl.
    split; [done|]. split; [done|]. split.
    { split; [done|]. by intros [? [=]]. }
    split; [done|]. intros _. split; [by left|done].
Qed.

(** X12. [brd_init] is all or nothing: on the empty list it returns 0
    exactly when [register_blkdev] and the three allocations of each of
    the [rd_nr] devices succeed, and the list is then the new devices,
    numbered from 0 in order, each with the configured capacity and no
    page, at addresses that were unused; otherwise it returns [-EIO] or
    [-ENOMEM], the list is empty again, the devices are those there
    were before, and no page has been given back. *)
Theorem brd_init_all_or_nothing rd_nr r :
  brd_devices r = [] ->
  ∃ code ev r',
    brd_init rd_nr r = Ok (code, ev, r')
    ∧ (code = 0
       ↔ ∃ m, outcomes r = replicate (1 + 3 * Z.to_nat rd_nr) true ++ m)
    ∧ (code = 0 ->
       NoDup (brd_devices r')
       ∧ Forall2 (fun a j => objs r' !! a = Some (blank_device r j))
           (brd_devices r') (seqZ 0 rd_nr)
       ∧ (∀ a, a ∈ brd_devices r' -> objs r !! a = None)
       ∧ (∀ a, a ∉ brd_devices r' -> objs r' !! a = objs r !! a))
    ∧ (code ≠ 0 ->
       (code = - EIO ∨ code = - ENOMEM)
       ∧ brd_devices r' = [] ∧ objs r' = objs r ∧ freed ev = []).
Proof.
  intros Hl.
  destruct (brd_init_spec rd_nr r Hl)
    as (code & ev & r' & E & _ & Hiff & Hz & Hnz).
  exists code, ev, r'. split; [done|]. split; [done|]. split; [|done].
  intros Hc. by destruct (Hz Hc) as (_ & _ & ? & ? & ? & ?).
Qed.

(** X13. The devices [brd_init] has made are the ones [brd_init_one]
    finds: after a [brd_init] that returned 0, [brd_init_one] for a
    number from 0 to below [rd_nr] returns the device of that number,
    says it is not new and changes nothing. *)
Theorem brd_init_then_init_one rd_nr r ev r1 j :
  brd_devices r = [] ->
  brd_init rd_nr r = Ok (0, ev, r1) ->
  0 <= j < rd_nr ->
  ∃ a,
    brd_init_one j r1 = (Some a, false, r1)
    ∧ a ∈ brd_devices r1
    ∧ objs r1 !! a = Some (blank_device r j).
Proof.
  intros Hl E Hj.
  destruct (brd_init_spec rd_nr r Hl)
    as (code & ev' & r' & E' & _ & _ & Hz & _).
  rewrite E in E'. injection E' as <- <- <-.
  destruct (Hz eq_refl) as (_ & _ & _ & Hblank & _).
  destruct (brd_find_blank _ _ _ _ j Hblank) as (a & Hfind & Ha).
  { apply elem_of_seqZ. lia. }
  exists a. unfold brd_init_one. rewrite Hfind. split; [done|].
  split; [|done]. by destruct (brd_find_Some _ _ _ _ Hfind).
Qed.

(** X14. [brd_exit] leaves nothing of the list: when every entry is a
    device, no device is listed twice and the trees are well formed, it
    returns, the list is empty, every device that was listed is gone
    and the others are as they were, and the pages given back are the
    pages of the listed devices. *)
Theorem brd_exit_all r :
  module_ok r ->
  ∃ ev r',
    brd_exit r = Ok (ev, r')
    ∧ brd_devices r' = []
    ∧ (∀ a, objs r' !! a
            = if decide (a ∈ brd_devices r) then None else objs r !! a)
    ∧ freed ev ≡ₚ pages_at r (brd_devices r).
Proof.
  intros (Hok & Hnd & Htree).
  destruct (for_each_del_spec (brd_devices r) r Hnd) as
    (ev & r' & E & _ & _ & _ & Hl & Ho & Hf).
  { intros a Ha. unfold list_ok in Hok. rewrite Forall_forall in Hok.
    destruct (Hok a Ha) as [d Hd]. exists d. split; [done|].
    by apply (Htree a). }
  exists ev, r'. split; [done|]. split; [|done].
  rewrite Hl. apply filter_none, Forall_forall. by intros a Ha ?.
Qed.

(** X15. Loading and unloading leaves no trace: after a [brd_init] on
    the empty list that returned 0, [brd_exit] returns, the list is
    empty, the devices are those there were before [brd_init], and no
    page is given back. *)
Theorem brd_init_exit rd_nr r ev r1 :
  brd_devices r = [] ->
  brd_init rd_nr r = Ok (0, ev, r1) ->
  ∃ ev' r2,
    brd_exit r1 = Ok (ev', r2)
    ∧ brd_devices r2 = []
    ∧ objs r2 = objs r
    ∧ freed ev' = [].
Proof.
  intros Hl E.
  destruct (brd_init_spec rd_nr r Hl)
    as (code & ev0 & r' & E' & _ & _ & Hz & _).
  rewrite E in E'. injection E' as <- <- <-.
  destruct (Hz eq_refl) as (_ & _ & Hnd & Hblank & Hnew & Hold).
  assert (Hdev : ∀ a, a ∈ brd_devices r1 ->
            ∃ d, objs r1 !! a = Some d ∧ brd_pages d = ∅).
  { intros a Ha.
    destruct (Forall2_elem_l _ _ _ _ Hblank Ha) as (j & _ & Hj). eauto. }
  destruct (for_each_del_spec (brd_devices r1) r1 Hnd) as
    (ev' & r2 & E2 & _ & _ & _ & Hl2 & Ho2 & Hf2).
  { intros a Ha. destruct (Hdev a Ha) as (d & Hd & He).
    exists d. split; [done|]. rewrite He. by intros ? ? ?. }
  exists ev', r2. split; [done|]. split.
  { rewrite Hl2. apply filter_none, Forall_forall. by intros a Ha ?. }
  split.
  { apply map_eq. intros a. rewrite Ho2.
    case_decide as Ha; [by rewrite Hnew|by apply Hold]. }
  rewrite (pages_at_blank _ _ Hdev) in Hf2.
  by apply Permutation_nil_r in Hf2.
Qed.


(** ** Devices coming and going *)

Lemma entries_del (os : gmap Z brd_device) a d i l :
  NoDup l -> os !! a = Some d ->
  (length (filter (fun b => brd_number <$> delete a os !! b = Some i)
             (filter (fun b => b ≠ a) l))
   + (if decide (a ∈ l ∧ brd_number d = i) then 1 else 0))%nat
  = length (filter (fun b => brd_number <$> os !! b = Some i) l).
Proof.
  intros Hnd Hd. induction Hnd as [|b l Hb Hnd IH]; [done|].
  destruct (decide (b = a)) as [->|Hne].
  - rewrite (filter_cons_False (fun b => b ≠ a)) by (by intros ?).
    rewrite decide_False in IH by tauto. rewrite Nat.add_0_r in IH.
    rewrite IH. destruct (decide (brd_number d = i)) as [Hi|Hi].
    + rewrite decide_True by (split; [left|done]).
      rewrite (filter_cons_True _ a) by (by rewrite Hd, <- Hi).
      simpl. lia.
    + rewrite decide_False by tauto.
      rewrite (filter_cons_False _ a); [lia|].
      rewrite Hd. simpl. congruence.
  - rewrite (filter_cons_True (fun b => b ≠ a)) by done.
    assert (Hin : (a ∈ b :: l ∧ brd_number d = i)
                  ↔ (a ∈ l ∧ brd_number d = i)).
    { rewrite elem_of_cons. split; [|tauto]. intros [[?|?] ?]; [|tauto].
      congruence. }
    destruct (decide (brd_number <$> os !! b = Some i)) as [Hi|Hi].
    + rewrite (filter_cons_True _ b) by (by rewrite lookup_delete_ne).
      rewrite (filter_cons_True _ b) by done. simpl.
      rewrite <- IH. by rewrite (decide_ext _ _ _ _ Hin).
    + rewrite (filter_cons_False _ b) by (by rewrite lookup_delete_ne).
      rewrite (filter_cons_False _ b) by done.
      rewrite <- IH. by rewrite (decide_ext _ _ _ _ Hin).
Qed.

Lemma brd_find_no_entry r i :
  entries r i = 0%nat -> brd_find (objs r) (brd_devices r) i = None.
Proof.
  intros He. destruct (brd_find _ _ i) as [a|] eqn:Hf; [|done].
  destruct (brd_find_Some _ _ _ _ Hf) as [Hin Hn].
  assert (Ha : a ∈ filter (fun brd => brd_number <$> objs r !! brd = Some i)
                   (brd_devices r)).
  { by apply list_elem_of_filter. }
  unfold entries in He. apply nil_length_inv in He. rewrite He in Ha.
  by apply not_elem_of_nil in Ha.
Qed.

Lemma brd_del_one_cases a r d :
  module_ok r -> objs r !! a = Some d ->
  ∃ ev r',
    brd_del_one a r = Ok (ev, r')
    ∧ batched ev
    ∧ freed ev ≡ₚ (map_to_list (brd_pages d)).*2
    ∧ module_ok r'
    ∧ rd_size r' = rd_size r
    ∧ objs r' = delete a (objs r)
    ∧ brd_devices r' = filter (fun b => b ≠ a) (brd_devices r)
    ∧ ∀ i, (entries r' i
            + (if decide (a ∈ brd_devices r ∧ brd_number d = i)
               then 1 else 0))%nat
           = entries r i.
Proof.
  intros (Hok & Hnd & Htree) Hd.
  destruct (brd_free_at_spec a (list_del a r) d Hd (Htree _ _ Hd))
    as (ev & E & Hb & Hf).
  eexists ev, _. split; [exact E|]. split; [done|]. split; [done|].
  simpl. split.
  { split_and!; simpl.
    - unfold list_ok in *. simpl. rewrite Forall_forall in *.
      intros b [Hne Hb']%list_elem_of_filter.
      destruct (Hok b Hb') as [db Hdb]. exists db.
      by rewrite lookup_delete_ne.
    - by apply NoDup_filter.
    - intros b db [_ Hdb]%lookup_delete_Some. by apply (Htree b). }
  split; [done|]. split; [done|]. split; [done|].
  intros i. unfold entries. simpl. by apply entries_del.
Qed.

(** X16. [brd_del_one] of a listed device: it returns, the pages given
    back are the pages of the device, in batches of at most
    [FREE_BATCH] with a yield after each, the device is gone and off
    the list, the other devices and the order of the list are as they
    were, the list counts one device less of its number and as many of
    any other number, and the list is as the kernel keeps it. *)
Theorem brd_del_one_removes a r d :
  module_ok r -> a ∈ brd_devices r -> objs r !! a = Some d ->
  ∃ ev r',
    brd_del_one a r = Ok (ev, r')
    ∧ batched ev
    ∧ freed ev ≡ₚ (map_to_list (brd_pages d)).*2
    ∧ module_ok r'
    ∧ objs r' = delete a (objs r)
    ∧ brd_devices r' = filter (fun b => b ≠ a) (brd_devices r)
    ∧ (S (entries r' (brd_number d)) = entries r (brd_number d))
    ∧ ∀ i, i ≠ brd_number d -> entries r' i = entries r i.
Proof.
  intros Hok Ha Hd.
  destruct (brd_del_one_cases a r d Hok Hd)
    as (ev & r' & E & Hb & Hf & Hok' & _ & Ho & Hl & He).
  exists ev, r'. do 6 (split; [done|]). split.
  - specialize (He (brd_number d)). rewrite decide_True in He by done. lia.
  - intros i Hi. specialize (He i).
    rewrite decide_False in He by (intros [_ ?]; congruence). lia.
Qed.

(** X17. The data of a deleted device is gone: when no two devices of
    the list have the same number, [brd_init_one] for the number of a
    device that [brd_del_one] has deleted finds no device and says so,
    and the device it returns, if any, has no page. *)
Theorem brd_del_one_then_init_one a r d ev r1 brd new r2 :
  module_ok r -> numbers_distinct r ->
  a ∈ brd_devices r -> objs r !! a = Some d ->
  brd_del_one a r = Ok (ev, r1) ->
  brd_init_one (brd_number d) r1 = (brd, new, r2) ->
  new = true
  ∧ ∀ b, brd = Some b ->
         objs r2 !! b = Some (blank_device r (brd_number d))
         ∧ brd_devices r2 = filter (fun b => b ≠ a) (brd_devices r) ++ [b].
Proof.
  intros Hok Hdist Ha Hd E E1.
  destruct (brd_del_one_cases a r d Hok Hd)
    as (ev' & r' & E' & _ & _ & _ & Hsz & _ & Hl & He).
  rewrite E in E'. injection E' as <- <-.
  assert (Hnone : brd_find (objs r1) (brd_devices r1) (brd_number d) = None).
  { apply brd_find_no_entry. specialize (He (brd_number d)).
    rewrite decide_True in He by done.
    specialize (Hdist (brd_number d)). lia. }
  unfold brd_init_one in E1. rewrite Hnone in E1.
  destruct (brd_alloc_cases (brd_number d) r1)
    as [(m & _ & Ea)|(_ & m & Ea)];
    rewrite Ea in E1; injection E1 as <- <- <-; (split; [done|]).
  - intros b [= <-]. simpl. rewrite lookup_insert_eq, Hl.
    unfold blank_device. by rewrite Hsz.
  - by intros b [=].
Qed.

(** X18. [brd_init_one] keeps the list as the kernel keeps it: every
    entry stays a device, no device is listed twice, the trees are well
    formed, and no two devices of the list have the same number; the
    devices there were are kept as they are, and the list grows at its
    tail only. *)
Theorem brd_init_one_invariant i r brd new r1 :
  module_ok r -> numbers_distinct r ->
  brd_init_one i r = (brd, new, r1) ->
  module_ok r1
  ∧ numbers_distinct r1
  ∧ objs r ⊆ objs r1
  ∧ brd_devices r `prefix_of` brd_devices r1.
Proof.
  intros (Hok & Hnd & Htree) Hdist E. unfold brd_init_one in E.
  destruct (brd_find (objs r) (brd_devices r) i) as [c|] eqn:Hfind.
  { injection E as <- <- <-. by split_and!. }
  destruct (brd_alloc_cases i r) as [(m & _ & Ea)|(_ & m & Ea)];
    rewrite Ea in E; injection E as <- <- <-; simpl.
  - set (a := fresh (dom (objs r))).
    assert (Ha : objs r !! a = None).
    { apply not_elem_of_dom. apply is_fresh. }
    assert (Hal : a ∉ brd_devices r).
    { intros Hin. unfold list_ok in Hok. rewrite Forall_forall in Hok.
      destruct (Hok a Hin) as [? ?]. congruence. }
    split; [split_and!|split_and!]; simpl.
    + unfold list_ok. simpl. apply Forall_app. split.
      * eapply Forall_impl; [exact Hok|]. intros b [db Hb].
        exists db. rewrite lookup_insert_ne; [done|]. congruence.
      * constructor; [|done]. rewrite lookup_insert_eq. eauto.
    + apply NoDup_app. split; [done|]. split.
      * by intros b Hb ->%list_elem_of_singleton.
      * apply NoDup_singleton.
    + intros b db [[_ <-]|[_ Hb]]%lookup_insert_Some.
      * by intros ? ? ?.
      * by apply (Htree b).
    + intros j. unfold entries. simpl. rewrite filter_app, length_app.
      rewrite filter_insert_fresh by done.
      destruct (decide (i = j)) as [<-|Hne].
      * rewrite (brd_find_None _ _ _ Hfind). simpl.
        rewrite filter_cons_True by (by rewrite lookup_insert_eq).
        done.
      * rewrite filter_cons_False.
        { specialize (Hdist j). unfold entries in Hdist. simpl. lia. }
        rewrite lookup_insert_eq. simpl. congruence.
    + by apply insert_subseteq.
    + by apply prefix_app_r.
  - by split_and!.
Qed.

Lemma MINOR_range dev : 0 <= MINOR dev < 2 ^ 20.
Proof.
  unfold MINOR, MINORMASK, MINORBITS.
  change (Z.shiftl 1 20 - 1) with (Z.ones 20).
  rewrite Z.land_ones by lia. apply Z.mod_pos_bound. lia.
Qed.

(** X19. What [brd_probe] hands out: for a positive [max_part], the
    number it looks for is [MINOR (dev) / max_part], which is from 0 to
    below [2^20]; a disk it returns is the disk of the device of the
    list with that number; [*part] is left as it was when a device of
    that number was in the list, and then no device and no entry is
    added; it is set to 0 when there was none, also when no disk is
    returned. *)
Theorem brd_probe_device dev part r kobj p r1 :
  list_ok r -> 0 < max_part r ->
  brd_probe dev part r = (kobj, p, r1) ->
  0 <= MINOR dev / max_part r < 2 ^ 20
  ∧ (∀ a, kobj = Some a ->
          brd_find (objs r1) (brd_devices r1) (MINOR dev / max_part r)
          = Some a)
  ∧ (is_Some (brd_find (objs r) (brd_devices r) (MINOR dev / max_part r)) ->
     p = part ∧ objs r1 = objs r ∧ brd_devices r1 = brd_devices r)
  ∧ (brd_find (objs r) (brd_devices r) (MINOR dev / max_part r) = None ->
     p = 0).
Proof.
  intros Hok Hmp E. pose proof (MINOR_range dev) as Hm. split.
  { split; [apply Z.div_pos; lia|].
    apply Z.div_lt_upper_bound; [lia|]. nia. }
  unfold brd_probe in E.
  destruct (brd_init_one (MINOR dev / max_part r) r)
    as [[brd new] r0] eqn:E0.
  split.
  { intros a ->. destruct brd as [b|]; [|by simplify_eq].
    destruct (brd_init_one_finds _ _ _ _ _ Hok E0) as [Hfind _].
    unfold take_outcome in E.
    destruct (outcomes r0) as [|[] m]; simplify_eq; simpl in *; done. }
  unfold brd_init_one in E0.
  destruct (brd_find (objs r) (brd_devices r) (MINOR dev / max_part r))
    as [c|] eqn:Hfind.
  - split; [|done]. intros _. injection E0 as <- <- <-.
    unfold take_outcome in E.
    destruct (outcomes r) as [|[] m]; simplify_eq; simpl; done.
  - split; [by intros [? [=]]|]. intros _.
    destruct (brd_alloc _ r) as [[b|] r'];
      injection E0 as <- <- <-; [|by simplify_eq].
    unfold take_outcome in E. simpl in E.
    destruct (outcomes r') as [|[] m]; by simplify_eq.
Qed.


(** ** The properties at work, with 4 KiB pages *)

Lemma PAGE_SHIFT_4K : SECTOR_SHIFT <= 12 < 32.
Proof. unfold SECTOR_SHIFT. lia. Defined.

Lemma demo_dev_ok m : store_ok 12 (demo_dev m).
Proof. apply brd_new_ok. Defined.


Lemma demo_history :
  run_calls 12 demo_calls (demo_dev [true; true]) = Ok ([0], demo_after).
Proof. vm_compute. reflexivity. Defined.

Lemma demo_calls_ok : Forall (call_ok 12) demo_calls.
Proof.
  repeat constructor; vm_compute; discriminate.
Defined.

Lemma brd_read_never_written_witness :
  ∃ d',
    brd_do_bvec 12 (demo_page "*") 512 0 REQ_OP_READ 8 demo_after
      = Ok ((0, Page 0 d'), demo_after)
    ∧ take (Z.to_nat 512) (drop (Z.to_nat 0) d')
      = replicate (Z.to_nat 512) x00.
Proof.
  apply (brd_read_never_written 12 PAGE_SHIFT_4K 0 64 [true; true]
           demo_calls [0] demo_after (demo_page "*") 512 0 REQ_OP_READ 8).
  - apply demo_calls_ok.
  - apply demo_history.
  - reflexivity.
  - lia.
  - vm_compute. split; discriminate.
  - lia.
  - vm_compute. discriminate.
  - intros k Hk [[_ [_ (k' & Hk' & Heq)]]|[]].
    unfold byte_addr in Heq. simpl in Hk', Heq.
    change SECTOR_SIZE with 512 in Heq.
    change (2 ^ 73) with 9444732965739290427392 in Heq.
    rewrite !Z.mod_small in Heq by lia. lia.
Defined.

Lemma brd_insert_page_contract_witness :
  ∃ r st', brd_insert_page 12 3 (demo_dev [true; true]) = Ok (r, st').
Proof.
  apply (brd_insert_page_contract 12 PAGE_SHIFT_4K (demo_dev [true; true]) 3).
  apply demo_dev_ok.
Defined.

Lemma brd_do_bvec_nospace_witness :
  ∃ st',
    brd_do_bvec 12 (demo_page "*") 1024 0 REQ_OP_WRITE 7
      (demo_dev [true; true; false])
      = Ok ((- ENOSPC, demo_page "*"), st')
    ∧ ∀ a, dev_byte 12 (brd_pages (dev st')) a
           = dev_byte 12 (brd_pages (dev (demo_dev [true; true; false]))) a.
Proof.
  apply (brd_do_bvec_nospace 12 PAGE_SHIFT_4K (demo_dev [true; true; false])
           (demo_page "*") 1024 0 REQ_OP_WRITE 7).
  - apply demo_dev_ok.
  - reflexivity.
  - lia.
  - vm_compute. split; discriminate.
  - lia.
  - vm_compute. discriminate.
  - right. split; [vm_compute; reflexivity|].
    eexists _, _, _. split; vm_compute; reflexivity.
Defined.

Lemma brd_submit_bio_beyond_capacity_witness :
  brd_submit_bio 12 (demo_bio 56) (demo_dev [true; true; true; true])
    = Ok ((BLK_QC_T_NONE,
           Bio 56 8192 REQ_OP_WRITE BLK_STS_IOERR (bi_io_vec (demo_bio 56))),
          demo_dev [true; true; true; true]).
Proof.
  apply (brd_submit_bio_beyond_capacity 12 (demo_bio 56)
           (demo_dev [true; true; true; true])).
  vm_compute. reflexivity.
Defined.

Lemma brd_pages_of_history_witness :
  (∀ idx, (∃ a, written demo_calls [0] a ∧ a / PAGE_SIZE 12 = idx) ->
          is_Some (brd_pages (dev demo_after) !! idx))
  ∧ (∀ idx, is_Some (brd_pages (dev demo_after) !! idx) ->
            targeted 12 demo_calls idx)
  ∧ (∀ pg len off op sector r st',
       op_is_write op = false ->
       brd_do_bvec 12 pg len off op sector demo_after = Ok (r, st') ->
       st' = demo_after).
Proof.
  apply (brd_pages_of_history 12 PAGE_SHIFT_4K 0 64 [true; true] demo_calls
           [0] demo_after).
  - apply demo_calls_ok.
  - repeat constructor.
  - apply demo_history.
Defined.

Lemma brd_submit_bio_segment_fails_witness :
  ∃ bvec pre stk st',
    brd_submit_bio 12 (demo_bio 0) (demo_dev [true; true])
      = Ok ((BLK_QC_T_NONE,
             Bio 0 8192 REQ_OP_WRITE BLK_STS_IOERR
               (pre ++ drop 1 (bi_io_vec (demo_bio 0)))),
            st')
    ∧ bi_io_vec (demo_bio 0) !! 1%nat = Some bvec
    ∧ brd_do_segments 12 (take 1 (bi_io_vec (demo_bio 0))) 1 0
        (demo_dev [true; true])
      = Ok ((0, pre), stk)
    ∧ length pre = 1%nat
    ∧ brd_do_bvec 12 (bv_page bvec) (bv_len bvec) (bv_offset bvec) 1
        (sector_after (take 1 (bi_io_vec (demo_bio 0))) 0) stk
      = Ok ((- ENOSPC, bv_page bvec), st')
    ∧ ∀ a, dev_byte 12 (brd_pages (dev st')) a
           = dev_byte 12 (brd_pages (dev stk)) a.
Proof.
  apply (brd_submit_bio_segment_fails 12 PAGE_SHIFT_4K (demo_bio 0)
           (demo_dev [true; true])).
  - apply demo_dev_ok.
  - simpl. lia.
  - repeat constructor; vm_compute; discriminate.
  - vm_compute. discriminate.
  - vm_compute. lia.
Defined.

Lemma demo_after_tree_ok : tree_ok (brd_pages (dev demo_after)).
Proof.
  intros idx p H. simpl in H.
  apply lookup_singleton_Some in H as [<- <-]. simpl. lia.
Defined.

Lemma brd_free_pages_all_witness :
  ∃ st' l,
    brd_free_pages demo_after = Ok (tt, st')
    ∧ brd_free_pages_from (S (size (brd_pages (dev demo_after)))) 0 demo_after
      = Ok (true, st')
    ∧ brd_pages (dev st') = ∅
    ∧ klog st' = klog demo_after ++ l
    ∧ batched l
    ∧ freed l ≡ₚ (map_to_list (brd_pages (dev demo_after))).*2.
Proof.
  apply (brd_free_pages_all demo_after). apply demo_after_tree_ok.
Defined.

Lemma brd_init_one_idempotent_witness :
  ∃ brd new r1,
    brd_init_one 5 (demo_module [true; true; true]) = (brd, new, r1)
    ∧ (∀ a, brd = Some a -> brd_init_one 5 r1 = (Some a, false, r1)).
Proof.
  destruct (brd_init_one_idempotent 5 (demo_module [true; true; true]))
    as (brd & new & r1 & E & _ & _ & H).
  - constructor.
  - exists brd, new, r1. split; [exact E|exact H].
Defined.

Lemma brd_do_bvec_read_succeeds_witness :
  (∀ r st',
     brd_do_bvec 12 (demo_page "*") 4096 0 REQ_OP_READ 3 demo_after
       = Ok (r, st') ->
     r.1 = 0 ∧ st' = demo_after)
  ∧ (tree_ok (brd_pages (dev demo_after)) ->
     ∃ pg',
       brd_do_bvec 12 (demo_page "*") 4096 0 REQ_OP_READ 3 demo_after
         = Ok ((0, pg'), demo_after)).
Proof.
  apply (brd_do_bvec_read_succeeds 12 PAGE_SHIFT_4K demo_after).
  reflexivity.
Defined.

(** The scenario of the specification: exactly two pages exist, and of
    the bytes read back exactly the two written are not zero. *)
Lemma scenario_two_pages :
  ∃ st vecs,
    run_calls 12 scenario_writes (demo_dev (replicate 4 true))
      = Ok ([0; 0], st)
    ∧ size (brd_pages (dev st)) = 2%nat
    ∧ brd_do_segments 12 scenario_read REQ_OP_READ 0 st = Ok ((0, vecs), st)
    ∧ (fun bvec => data (bv_page bvec)) <$> vecs
      = [ "*"%byte :: replicate 4095 x00 ] ++ replicate 6 (replicate 4096 x00)
        ++ [ "*"%byte :: replicate 4095 x00 ].
Proof.
  eexists _, _. split_and!.
  - vm_compute. reflexivity.
  - vm_compute. reflexivity.
  - vm_compute. reflexivity.
  - vm_compute. reflexivity.
Qed.

Lemma demo_after_ok : store_ok 12 demo_after.
Proof.
  split; [apply demo_after_tree_ok|].
  intros idx p H. simpl in H.
  apply lookup_singleton_Some in H as [<- <-]. reflexivity.
Defined.

Lemma byte_addr_demo sector k :
  0 <= sector < 64 -> 0 <= k < 4096 -> byte_addr sector k = sector * 512 + k.
Proof.
  intros Hs Hk. unfold byte_addr. change SECTOR_SIZE with 512.
  change (2 ^ 73) with 9444732965739290427392.
  apply Z.mod_small. lia.
Defined.

Lemma brd_insert_page_lookup_witness :
  (∀ s,
     Z.shiftr s (PAGE_SECTORS_SHIFT 12) = Z.shiftr 3 (PAGE_SECTORS_SHIFT 12) ->
     brd_lookup_page 12 s torn_after
       = Ok (Some (Page 0 (replicate 4096 x00)), torn_after)
     ∧ brd_insert_page 12 s torn_after
       = Ok (Some (Page 0 (replicate 4096 x00)), torn_after))
  ∧ (∀ s,
       Z.shiftr s (PAGE_SECTORS_SHIFT 12) ≠ Z.shiftr 3 (PAGE_SECTORS_SHIFT 12) ->
       ∃ r,
         brd_lookup_page 12 s (demo_dev [true; true])
           = Ok (r, demo_dev [true; true])
         ∧ brd_lookup_page 12 s torn_after = Ok (r, torn_after)).
Proof.
  apply (brd_insert_page_lookup 12 PAGE_SHIFT_4K (demo_dev [true; true]) 3
           (Page 0 (replicate 4096 x00)) torn_after).
  - apply (demo_dev_ok [true; true]).
  - lia.
  - vm_compute. reflexivity.
Defined.

Lemma brd_do_bvec_overwrite_witness :
  ∃ st',
    brd_do_bvec 12 (demo_page "#") 512 0 REQ_OP_WRITE 0 demo_after
      = Ok ((0, demo_page "#"), st')
    ∧ mem st' = mem demo_after
    ∧ klog st' = klog demo_after
    ∧ ∀ i, is_Some (brd_pages (dev st') !! i)
           ↔ is_Some (brd_pages (dev demo_after) !! i).
Proof.
  apply (brd_do_bvec_overwrite 12 PAGE_SHIFT_4K demo_after (demo_page "#")
           512 0 REQ_OP_WRITE 0).
  - apply demo_after_ok.
  - reflexivity.
  - lia.
  - vm_compute. split; [reflexivity|discriminate].
  - lia.
  - vm_compute. discriminate.
  - intros k Hk. rewrite byte_addr_demo by lia.
    change (PAGE_SIZE 12) with 4096.
    rewrite Z.div_small by lia. eexists. reflexivity.
Defined.

Lemma brd_do_bvec_write_frame_witness :
  ∃ err st1 rpg',
    brd_do_bvec 12 (demo_page "*") 512 0 REQ_OP_WRITE 0 (demo_dev [true; true])
      = Ok ((err, demo_page "*"), st1)
    ∧ brd_do_bvec 12 (demo_page "#") 512 0 REQ_OP_READ 8
        (demo_dev [true; true])
      = Ok ((0, rpg'), demo_dev [true; true])
    ∧ brd_do_bvec 12 (demo_page "#") 512 0 REQ_OP_READ 8 st1
      = Ok ((0, rpg'), st1).
Proof.
  apply (brd_do_bvec_write_frame 12 PAGE_SHIFT_4K (demo_dev [true; true])
           (demo_page "*") 512 0 REQ_OP_WRITE 0
           (demo_page "#") 512 0 REQ_OP_READ 8).
  - apply demo_dev_ok.
  - reflexivity.
  - reflexivity.
  - lia.
  - vm_compute. split; discriminate.
  - lia.
  - vm_compute. discriminate.
  - lia.
  - vm_compute. split; discriminate.
  - lia.
  - vm_compute. discriminate.
  - intros k k' Hk Hk'. rewrite !byte_addr_demo by lia. lia.
Defined.

Lemma brd_read_replays_history_witness :
  ∃ d',
    brd_do_bvec 12 (demo_page "#") 1024 0 REQ_OP_READ 0 demo_after
      = Ok ((0, Page (index (demo_page "#")) d'), demo_after)
    ∧ ∀ k, 0 <= k < 1024 ->
           d' !! Z.to_nat (0 + k)
           = Some (replay demo_calls [0] (fun _ => x00) (byte_addr 0 k)).
Proof.
  apply (brd_read_replays_history 12 PAGE_SHIFT_4K 0 64 [true; true]
           demo_calls [0] demo_after (demo_page "#") 1024 0 REQ_OP_READ 0).
  - apply demo_calls_ok.
  - apply demo_history.
  - reflexivity.
  - lia.
  - vm_compute. split; discriminate.
  - lia.
  - vm_compute. discriminate.
Defined.


Lemma brd_rw_page_aligned_witness :
  let idx := Z.shiftr 8 (PAGE_SECTORS_SHIFT 12) in
  brd_rw_page 12 8 (demo_page "*") true REQ_OP_WRITE (demo_dev [true; true])
    = Ok ((- ENOTSUPP, demo_page "*"), demo_dev [true; true])
  ∧ ∃ err st',
      brd_rw_page 12 8 (demo_page "*") false REQ_OP_WRITE
        (demo_dev [true; true])
        = Ok ((err, demo_page "*"), st')
      ∧ (err = 0
         ↔ is_Some (brd_pages (dev (demo_dev [true; true])) !! idx)
           ∨ ∃ m, mem (demo_dev [true; true]) = true :: true :: m)
      ∧ (err = 0 ->
         brd_pages (dev st')
         = <[idx := Page idx (data (demo_page "*"))]>
             (brd_pages (dev (demo_dev [true; true]))))
      ∧ (err ≠ 0 ->
         err = - ENOSPC
         ∧ brd_pages (dev st') = brd_pages (dev (demo_dev [true; true]))).
Proof.
  apply (brd_rw_page_aligned 12 PAGE_SHIFT_4K (demo_dev [true; true]) 8
           (demo_page "*") REQ_OP_WRITE).
  - apply demo_dev_ok.
  - reflexivity.
  - lia.
  - reflexivity.
  - reflexivity.
Defined.

Lemma brd_submit_bio_read_witness :
  ∃ vecs',
    brd_submit_bio 12 (demo_read_bio 0) demo_after
      = Ok ((BLK_QC_T_NONE,
             Bio (bi_sector (demo_read_bio 0)) (bi_size (demo_read_bio 0))
               (bi_opf (demo_read_bio 0)) (bi_status (demo_read_bio 0))
               vecs'),
            demo_after)
    ∧ Forall2 (fun v v' => bv_len v' = bv_len v
                           ∧ bv_offset v' = bv_offset v)
        (bi_io_vec (demo_read_bio 0)) vecs'.
Proof.
  apply (brd_submit_bio_read 12 PAGE_SHIFT_4K (demo_read_bio 0) demo_after).
  - apply demo_after_tree_ok.
  - reflexivity.
  - vm_compute. discriminate.
Defined.

Lemma demo_bio_seg_ok sector : Forall (seg_ok 12) (bi_io_vec (demo_bio sector)).
Proof. repeat constructor; vm_compute; discriminate. Defined.

Lemma demo_bio_aligned sector :
  Forall seg_aligned (bi_io_vec (demo_bio sector)).
Proof. repeat constructor. Defined.

Lemma brd_submit_bio_within_range_witness :
  ∃ r st',
    brd_submit_bio 12 (demo_bio 0) (demo_dev [true; true; true; true])
      = Ok (r, st')
    ∧ ∀ a, a < bi_sector (demo_bio 0) * 512
           ∨ (bi_sector (demo_bio 0)
              + Z.shiftr (bi_size (demo_bio 0)) 9) * 512 <= a
           ∨ brd_capacity (dev (demo_dev [true; true; true; true])) * 512
             <= a ->
           dev_byte 12 (brd_pages (dev st')) a
           = dev_byte 12
               (brd_pages (dev (demo_dev [true; true; true; true]))) a.
Proof.
  apply (brd_submit_bio_within_range 12 PAGE_SHIFT_4K (demo_bio 0)
           (demo_dev [true; true; true; true])).
  - apply demo_dev_ok.
  - simpl. lia.
  - apply demo_bio_seg_ok.
  - apply demo_bio_aligned.
  - reflexivity.
  - vm_compute. reflexivity.
Defined.

Lemma brd_submit_bio_write_read_witness :
  ∃ rvecs',
    brd_submit_bio 12 (demo_read_bio 0) demo_written
      = Ok ((BLK_QC_T_NONE,
             Bio (bi_sector (demo_read_bio 0)) (bi_size (demo_read_bio 0))
               (bi_opf (demo_read_bio 0)) (bi_status (demo_read_bio 0))
               rvecs'),
            demo_written)
    ∧ Forall2 (fun v rv' => seg_data rv' = seg_data v)
        (bi_io_vec (demo_bio 0)) rvecs'.
Proof.
  apply (brd_submit_bio_write_read 12 PAGE_SHIFT_4K (demo_bio 0)
           (demo_read_bio 0) (demo_dev [true; true; true; true])
           BLK_QC_T_NONE (demo_bio 0) demo_written).
  - apply demo_dev_ok.
  - simpl. lia.
  - apply demo_bio_seg_ok.
  - apply demo_bio_aligned.
  - reflexivity.
  - vm_compute. reflexivity.
  - reflexivity.
  - vm_compute. reflexivity.
  - vm_compute. discriminate.
  - reflexivity.
  - reflexivity.
  - reflexivity.
  - repeat constructor; vm_compute; discriminate.
  - repeat constructor.
Defined.


Lemma brd_check_and_reset_par_divides_witness :
  1 <= brd_check_and_reset_par 3 <= DISK_MAX_PARTS
  ∧ Z.shiftl 1 MINORBITS mod brd_check_and_reset_par 3 = 0
  ∧ (3 <= DISK_MAX_PARTS -> 3 <= brd_check_and_reset_par 3)
  ∧ brd_check_and_reset_par (brd_check_and_reset_par 3)
    = brd_check_and_reset_par 3.
Proof. apply (brd_check_and_reset_par_divides 3). lia. Defined.

Lemma brd_check_and_reset_par_wraps_witness :
  (-1 < 0 -> brd_check_and_reset_par (-1) = 0)
  ∧ (2 ^ 30 <= -1 -> brd_check_and_reset_par (-1) = - 2 ^ 31)
  ∧ (-1 < 0 ∨ 2 ^ 30 <= -1 ->
     ¬ (brd_check_and_reset_par (-1) | Z.shiftl 1 MINORBITS)).
Proof. apply (brd_check_and_reset_par_wraps (-1)). lia. Defined.

Lemma brd_init_all_or_nothing_witness :
  ∃ code ev r',
    brd_init 2 (demo_module [true; true; true; true; false])
      = Ok (code, ev, r')
    ∧ (code = 0
       ↔ ∃ m, outcomes (demo_module [true; true; true; true; false])
              = replicate (1 + 3 * Z.to_nat 2) true ++ m)
    ∧ (code = 0 ->
       NoDup (brd_devices r')
       ∧ Forall2 (fun a j =>
                    objs r' !! a
                    = Some (blank_device
                              (demo_module [true; true; true; true; false])
                              j))
           (brd_devices r') (seqZ 0 2)
       ∧ (∀ a, a ∈ brd_devices r' ->
               objs (demo_module [true; true; true; true; false]) !! a
               = None)
       ∧ (∀ a, a ∉ brd_devices r' ->
               objs r' !! a
               = objs (demo_module [true; true; true; true; false]) !! a))
    ∧ (code ≠ 0 ->
       (code = - EIO ∨ code = - ENOMEM)
       ∧ brd_devices r' = []
       ∧ objs r' = objs (demo_module [true; true; true; true; false])
       ∧ freed ev = []).
Proof.
  apply (brd_init_all_or_nothing 2
           (demo_module [true; true; true; true; false])).
  reflexivity.
Defined.

Lemma demo_init :
  brd_init 2 (demo_module (replicate 7 true)) = Ok (0, [], demo_loaded).
Proof. vm_compute. reflexivity. Defined.

Lemma brd_init_then_init_one_witness :
  ∃ a,
    brd_init_one 1 demo_loaded = (Some a, false, demo_loaded)
    ∧ a ∈ brd_devices demo_loaded
    ∧ objs demo_loaded !! a
      = Some (blank_device (demo_module (replicate 7 true)) 1).
Proof.
  apply (brd_init_then_init_one 2 (demo_module (replicate 7 true)) []
           demo_loaded 1).
  - reflexivity.
  - apply demo_init.
  - lia.
Defined.

Lemma demo_listed_ok : module_ok demo_listed.
Proof.
  split_and!.
  - repeat constructor. eexists. reflexivity.
  - apply NoDup_singleton.
  - intros a d H. simpl in H.
    apply lookup_singleton_Some in H as [_ <-]. apply demo_after_tree_ok.
Defined.

Lemma brd_exit_all_witness :
  ∃ ev r',
    brd_exit demo_listed = Ok (ev, r')
    ∧ brd_devices r' = []
    ∧ (∀ a, objs r' !! a
            = if decide (a ∈ brd_devices demo_listed) then None
              else objs demo_listed !! a)
    ∧ freed ev ≡ₚ pages_at demo_listed (brd_devices demo_listed).
Proof. apply (brd_exit_all demo_listed). apply demo_listed_ok. Defined.

Lemma brd_init_exit_witness :
  ∃ ev' r2,
    brd_exit demo_loaded = Ok (ev', r2)
    ∧ brd_devices r2 = []
    ∧ objs r2 = objs (demo_module (replicate 7 true))
    ∧ freed ev' = [].
Proof.
  apply (brd_init_exit 2 (demo_module (replicate 7 true)) [] demo_loaded).
  - reflexivity.
  - apply demo_init.
Defined.

Lemma brd_del_one_removes_witness :
  ∃ ev r',
    brd_del_one 7 demo_listed = Ok (ev, r')
    ∧ batched ev
    ∧ freed ev ≡ₚ (map_to_list (brd_pages (dev demo_after))).*2
    ∧ module_ok r'
    ∧ objs r' = delete 7 (objs demo_listed)
    ∧ brd_devices r' = filter (fun b => b ≠ 7) (brd_devices demo_listed)
    ∧ S (entries r' (brd_number (dev demo_after)))
      = entries demo_listed (brd_number (dev demo_after))
    ∧ ∀ i, i ≠ brd_number (dev demo_after) ->
           entries r' i = entries demo_listed i.
Proof.
  apply (brd_del_one_removes 7 demo_listed (dev demo_after)).
  - apply demo_listed_ok.
  - repeat constructor.
  - reflexivity.
Defined.

Lemma demo_listed_distinct : numbers_distinct demo_listed.
Proof.
  intros i. unfold entries. etransitivity; [apply length_filter|].
  simpl. lia.
Defined.

Lemma brd_del_one_then_init_one_witness :
  true = true
  ∧ ∀ b, Some 0 = Some b ->
         objs (BrdModule 4096 1 {[0 := BrdDevice 0 8192 ∅]} [0] []) !! b
         = Some (blank_device demo_listed (brd_number (dev demo_after)))
         ∧ brd_devices (BrdModule 4096 1 {[0 := BrdDevice 0 8192 ∅]} [0] [])
           = filter (fun b => b ≠ 7) (brd_devices demo_listed) ++ [b].
Proof.
  apply (brd_del_one_then_init_one 7 demo_listed (dev demo_after)
           [EvFreePage (Page 0 (replicate 512 "*"%byte ++ replicate 3584 x00));
            EvResched]
           (BrdModule 4096 1 ∅ [] [true; true; true])
           (Some 0) true
           (BrdModule 4096 1 {[0 := BrdDevice 0 8192 ∅]} [0] [])).
  - apply demo_listed_ok.
  - apply demo_listed_distinct.
  - repeat constructor.
  - reflexivity.
  - vm_compute. reflexivity.
  - vm_compute. reflexivity.
Defined.

Lemma demo_module_ok os : module_ok (demo_module os).
Proof.
  split_and!.
  - constructor.
  - constructor.
  - intros a d H. simpl in H. by rewrite lookup_empty in H.
Defined.

Lemma demo_module_distinct os : numbers_distinct (demo_module os).
Proof. intros i. unfold entries. simpl. lia. Defined.

Lemma brd_init_one_invariant_witness :
  module_ok (BrdModule 4096 1 {[0 := BrdDevice 5 8192 ∅]} [0] [])
  ∧ numbers_distinct (BrdModule 4096 1 {[0 := BrdDevice 5 8192 ∅]} [0] [])
  ∧ objs (demo_module [true; true; true])
    ⊆ objs (BrdModule 4096 1 {[0 := BrdDevice 5 8192 ∅]} [0] [])
  ∧ brd_devices (demo_module [true; true; true])
    `prefix_of` brd_devices
                  (BrdModule 4096 1 {[0 := BrdDevice 5 8192 ∅]} [0] []).
Proof.
  apply (brd_init_one_invariant 5 (demo_module [true; true; true])
           (Some 0) true
           (BrdModule 4096 1 {[0 := BrdDevice 5 8192 ∅]} [0] [])).
  - apply demo_module_ok.
  - apply demo_module_distinct.
  - vm_compute. reflexivity.
Defined.

Lemma brd_probe_device_witness :
  0 <= MINOR 5 / max_part (demo_module [true; true; true; true]) < 2 ^ 20
  ∧ (∀ a, Some 0 = Some a ->
          brd_find
            (objs (BrdModule 4096 1 {[0 := BrdDevice 5 8192 ∅]} [0] []))
            (brd_devices (BrdModule 4096 1 {[0 := BrdDevice 5 8192 ∅]} [0] []))
            (MINOR 5 / max_part (demo_module [true; true; true; true]))
          = Some a)
  ∧ (is_Some (brd_find (objs (demo_module [true; true; true; true]))
                (brd_devices (demo_module [true; true; true; true]))
                (MINOR 5 / max_part (demo_module [true; true; true; true]))) ->
     0 = 3
     ∧ objs (BrdModule 4096 1 {[0 := BrdDevice 5 8192 ∅]} [0] [])
       = objs (demo_module [true; true; true; true])
     ∧ brd_devices (BrdModule 4096 1 {[0 := BrdDevice 5 8192 ∅]} [0] [])
       = brd_devices (demo_module [true; true; true; true]))
  ∧ (brd_find (objs (demo_module [true; true; true; true]))
       (brd_devices (demo_module [true; true; true; true]))
       (MINOR 5 / max_part (demo_module [true; true; true; true])) = None ->
     0 = 0).
Proof.
  apply (brd_probe_device 5 3 (demo_module [true; true; true; true])
           (Some 0) 0
           (BrdModule 4096 1 {[0 := BrdDevice 5 8192 ∅]} [0] [])).
  - constructor.
  - simpl. lia.
  - vm_compute. reflexivity.
Defined.


Lemma brd_free_pages_rounds_witness :
  ∃ st' l,
    brd_free_pages demo_after = Ok (tt, st')
    ∧ klog st' = klog demo_after ++ l
    ∧ index <$> freed l = indices_from (brd_pages (dev demo_after)) 0
    ∧ StronglySorted Z.lt (index <$> freed l)
    ∧ yields l = S (size (brd_pages (dev demo_after)) / 16)
    ∧ brd_free_pages st'
      = Ok (tt, KState (dev st') (mem st') (klog st' ++ [EvResched])).
Proof. apply (brd_free_pages_rounds demo_after). apply demo_after_tree_ok. Defined.

Lemma brd_insert_page_no_leak_witness :
  let st := demo_dev [true] in
  let st' :=
    KState (BrdDevice 0 64 ∅) []
      [EvFreePage (Page 0 (replicate 4096 x00))] in
  let idx := Z.shiftr 3 (PAGE_SECTORS_SHIFT 12) in
  let allocated :=
    match brd_pages (dev st) !! idx, mem st with
    | None, true :: _ => 1%nat
    | _, _ => 0%nat
    end in
  ∃ l,
    klog st' = klog st ++ l
    ∧ (size (brd_pages (dev st')) + length (freed l)
       = size (brd_pages (dev st)) + allocated)%nat
    ∧ (l = []
       ∨ (l = [EvFreePage (Page 0 (replicate (Z.to_nat (PAGE_SIZE 12)) x00))]
          ∧ (None : option page) = None ∧ dev st' = dev st)).
Proof.
  apply (brd_insert_page_no_leak 12 PAGE_SHIFT_4K (demo_dev [true]) 3 None
           (KState (BrdDevice 0 64 ∅) []
              [EvFreePage (Page 0 (replicate 4096 x00))])).
  - apply (demo_dev_ok [true]).
  - vm_compute. reflexivity.
Defined.


(** ** Where the code departs from the specification *)

Lemma torn_history :
  Forall (call_ok 12) torn_calls
  ∧ Forall (fun c => 0 < c_len c) torn_calls
  ∧ run_calls 12 torn_calls (demo_dev [true; true; false])
    = Ok ([- ENOSPC], torn_after).
Proof.
  split_and!.
  - repeat constructor; vm_compute; discriminate.
  - repeat constructor.
  - vm_compute. reflexivity.
Qed.

(** C6 fails as stated: after that write, page 0 is present and no byte
    has been written. *)
Lemma brd_page_without_written_byte :
  run_calls 12 torn_calls (demo_dev [true; true; false])
    = Ok ([- ENOSPC], torn_after)
  ∧ ¬ pages_iff_written 12 torn_calls [- ENOSPC] torn_after.
Proof.
  split; [apply torn_history|].
  intros H. destruct (proj1 (H 0)) as (a & Ha & _).
  - simpl. by rewrite lookup_singleton_eq.
  - simpl in Ha. destruct Ha as [[Herr _]|[]]. discriminate.
Qed.

(** C7 fails as stated: the same request fails on its first segment
    when no memory is left and on its second when there is memory for
    one page, and [brd_submit_bio] gives back the same in both cases. *)
Lemma brd_submit_bio_tells_no_count :
  ¬ ∃ count, result_tells_count 12 count.
Proof.
  intros [count H].
  pose proof (H (demo_bio 0) (demo_dev [])
                (BLK_QC_T_NONE,
                 Bio 0 8192 REQ_OP_WRITE BLK_STS_IOERR
                   (bi_io_vec (demo_bio 0))) _
                ltac:(vm_compute; reflexivity)
                ltac:(vm_compute; lia)) as H0.
  pose proof (H (demo_bio 0) (demo_dev [true; true])
                (BLK_QC_T_NONE,
                 Bio 0 8192 REQ_OP_WRITE BLK_STS_IOERR
                   (bi_io_vec (demo_bio 0))) _
                ltac:(vm_compute; reflexivity)
                ltac:(vm_compute; lia)) as H1.
  rewrite H0 in H1. vm_compute in H1. discriminate.
Qed.
